(** * Secure volume manager: a model of [internal/infra/security/luks_linux.c]

    The C file drives [cryptsetup], [mkfs.ext4], [mount] and [umount] through
    child processes.  Two process runners ([execute_command] and
    [execute_with_stdin]) are composed into the four lifecycle verbs
    [luks_create_volume], [luks_open_volume], [luks_close_volume] and
    [luks_is_open].  The key is handed to the child over a pipe and wiped with
    [secure_zero] afterwards.

    The embedding is a state monad over a [world]: the caller's memory (where
    the key buffer lives), [errno], the trace of system calls made so far (by
    the parent and by every forked child), and the answers the operating
    system is going to give.  The functions below follow the C text statement
    by statement. *)

From Stdlib Require Import ZArith String List Lia Bool.
From Stdlib Require Import Init.Byte.
From stdpp Require Import base list.

Import ListNotations.
Local Open Scope string_scope.
Local Open Scope list_scope.
Local Open Scope Z_scope.

(** ** C scalars *)

(** [size_t] and [ssize_t] on LP64 Linux: 64-bit words held in [Z]. *)
Definition SIZE_MAX : Z := 2 ^ 64 - 1.
Definition SSIZE_MAX : Z := 2 ^ 63 - 1.

(** The cast [(ssize_t)len] of a [size_t]: two's-complement reinterpretation. *)
Definition to_ssize (z : Z) : Z := (z + 2 ^ 63) mod 2 ^ 64 - 2 ^ 63.

(** Values of <errno.h>, <unistd.h> and <fcntl.h> on Linux (the headers are
    not part of the repository). *)
Definition ECHILD : Z := 10.
Definition EAGAIN : Z := 11.
Definition EACCES : Z := 13.
Definition EINVAL : Z := 22.
Definition EMFILE : Z := 24.
Definition EPIPE : Z := 32.
Definition STDIN_FILENO : Z := 0.
Definition STDOUT_FILENO : Z := 1.
Definition STDERR_FILENO : Z := 2.
Definition O_WRONLY : Z := 1.

(** Addresses index the caller's memory; address [0] is [NULL]. *)
Abbreviation addr := nat (only parsing).
Definition NULL : addr := 0%nat.

(** ** Wait statuses

    What [waitpid] stores in [status].  <sys/wait.h> is not part of the
    repository; its two macros are the projections of this type.  An exit
    code is reported modulo 256. *)
Inductive wstatus :=
| WExited (code : Z)
| WSignaled (sig : Z).

Definition WIFEXITED (st : wstatus) : bool :=
  match st with WExited _ => true | WSignaled _ => false end.

Definition WEXITSTATUS (st : wstatus) : Z :=
  match st with WExited c => Z.land c 255 | WSignaled _ => 0 end.

(** ** System calls and traces *)

Inductive syscall :=
| SysPipe (r : option (Z * Z))
| SysFork (r : option positive)
| SysClose (fd : Z)
| SysDup2 (oldfd newfd : Z)
| SysOpen (path : string) (flags : Z) (r : Z)
| SysWrite (fd : Z) (buf : list byte) (r : Z)
| SysWaitpid (pid : positive) (ok : bool)
| SysMkdir (path : string) (mode : Z) (r : Z)
| SysExecvp (file : string) (argv : list string) (ok : bool)
| SysExit (code : Z).

Inductive proc :=
| Parent
| Child (pid : positive).

Definition event : Type := proc * syscall.

(** ** The environment

    One [proc_env] holds the operating system's answers during one run of a
    process runner: what [pipe] and [fork] return in the parent, what [dup2],
    [open] and [execvp] return in the child, how many bytes [write] accepts
    and whether [waitpid] succeeds.  [pe_execvp = None] means that [execvp]
    returned (tool not found, not executable, ...); [Some st] means the image
    was replaced and the program later ended with wait status [st].  The
    parent never sees [fork] return [0], hence [option positive].  Children
    are assumed to terminate: [waitpid] does not block for ever.

    A call of the parent that fails stores a code in [errno]: the four
    [_errno] fields give the code for [pipe], [fork], [write] and [waitpid]
    (read only when that call fails).  A call that succeeds leaves [errno]
    alone.  The child has its own copy of [errno]. *)
Record proc_env := mk_proc_env {
  pe_pipe : option (Z * Z);
  pe_fork : option positive;
  pe_dup2 : Z;
  pe_devnull : Z;
  pe_execvp : option wstatus;
  pe_write : Z;
  pe_wait_ok : bool;
  pe_pipe_errno : Z;
  pe_fork_errno : Z;
  pe_write_errno : Z;
  pe_wait_errno : Z
}.

(** The answers once the script is used up: nothing can be spawned. *)
Definition env_exhausted : proc_env :=
  mk_proc_env None None (-1) (-1) None (-1) false EMFILE EAGAIN EPIPE ECHILD.

Record world := mk_world {
  w_mem : list byte;
  w_errno : Z;
  w_trace : list event;
  w_procs : list proc_env;
  w_dirs : list Z
}.

Definition set_mem (m : list byte) (w : world) : world :=
  mk_world m (w_errno w) (w_trace w) (w_procs w) (w_dirs w).
Definition set_errno (e : Z) (w : world) : world :=
  mk_world (w_mem w) e (w_trace w) (w_procs w) (w_dirs w).
Definition add_events (evs : list event) (w : world) : world :=
  mk_world (w_mem w) (w_errno w) (w_trace w ++ evs) (w_procs w) (w_dirs w).
Definition set_procs (ps : list proc_env) (w : world) : world :=
  mk_world (w_mem w) (w_errno w) (w_trace w) ps (w_dirs w).
Definition set_dirs (ds : list Z) (w : world) : world :=
  mk_world (w_mem w) (w_errno w) (w_trace w) (w_procs w) ds.

(** ** The state monad *)

Definition M (A : Type) : Type := world -> A * world.

Definition ret {A} (a : A) : M A := fun w => (a, w).
Definition bind {A B} (m : M A) (k : A -> M B) : M B :=
  fun w => let (a, w') := m w in k a w'.

Declare Scope luks_scope.
Delimit Scope luks_scope with luks.
Notation "x <- m ;; k" := (bind m (fun x => k))
  (at level 100, m at next level, right associativity) : luks_scope.
Notation "m ;;; k" := (bind m (fun _ => k))
  (at level 100, right associativity) : luks_scope.
Local Open Scope luks_scope.

Definition emit (p : proc) (c : syscall) : M unit :=
  fun w => (tt, add_events [(p, c)] w).

Definition emit_all (p : proc) (cs : list syscall) : M unit :=
  fun w => (tt, add_events (map (pair p) cs) w).

(** Takes the answers for the next runner invocation off the script. *)
Definition next_env : M proc_env :=
  fun w => (hd env_exhausted (w_procs w), set_procs (tl (w_procs w)) w).

(** ** System calls as seen by the parent *)

(** A failing call stores its code in [errno]. *)
Definition fail_with (code : Z) : M unit :=
  fun w => (tt, set_errno code w).

Definition sys_pipe (e : proc_env) : M (option (Z * Z)) :=
  emit Parent (SysPipe (pe_pipe e)) ;;;
  match pe_pipe e with
  | None => fail_with (pe_pipe_errno e) ;;; ret None
  | Some fds => ret (Some fds)
  end.

(** [fork]: on success the child runs [child] (its calls are logged under
    its pid) while the parent gets the pid. *)
Definition sys_fork (e : proc_env) (child : list syscall) : M (option positive) :=
  emit Parent (SysFork (pe_fork e)) ;;;
  match pe_fork e with
  | None => fail_with (pe_fork_errno e) ;;; ret None
  | Some pid => emit_all (Child pid) child ;;; ret (Some pid)
  end.

(** [close] of a descriptor that [pipe] has just returned: it cannot fail
    with [EBADF], and its result is not looked at. *)
Definition sys_close (fd : Z) : M unit := emit Parent (SysClose fd).

(** [write(fd, input, len)]: the kernel is offered the [len] bytes at
    [input]; the environment says how many it took (or [-1]). *)
Definition sys_write (e : proc_env) (fd : Z) (input : addr) (len : Z) : M Z :=
  fun w =>
    let buf := take (Z.to_nat len) (drop input (w_mem w)) in
    let w1 := add_events [(Parent, SysWrite fd buf (pe_write e))] w in
    (pe_write e,
     if pe_write e =? -1 then set_errno (pe_write_errno e) w1 else w1).

(** [waitpid(pid, &status, 0)]: [None] when it returns [-1], otherwise the
    status of the child. *)
Definition sys_waitpid (e : proc_env) (pid : positive) (st : wstatus) : M (option wstatus) :=
  emit Parent (SysWaitpid pid (pe_wait_ok e)) ;;;
  if pe_wait_ok e then ret (Some st)
  else fail_with (pe_wait_errno e) ;;; ret None.

(** [mkdir(path, mode)]: the script gives [0] for success or the errno of
    the failure. *)
Definition sys_mkdir (path : string) (mode : Z) : M Z :=
  fun w =>
    let code := hd EACCES (w_dirs w) in
    let r := if code =? 0 then 0 else -1 in
    let w1 := set_dirs (tl (w_dirs w)) w in
    let w2 := if code =? 0 then w1 else set_errno code w1 in
    (r, add_events [(Parent, SysMkdir path mode r)] w2).

(** ** [secure_zero]

    [while (len--) *p++ = 0;] over the caller's memory.  A store outside the
    modelled memory is dropped (in C it is undefined); the theorems about
    wiping ask for the buffer to lie inside the memory. *)
Fixpoint zero_loop (n : nat) (p : addr) (m : list byte) : list byte :=
  match n with
  | O => m
  | S n' => zero_loop n' (S p) (<[p := x00]> m)
  end.

Definition secure_zero (ptr : addr) (len : Z) : M unit :=
  fun w => (tt, set_mem (zero_loop (Z.to_nat len) ptr (w_mem w)) w).

(** ** The forked children

    What the child branch ([pid == 0]) of each runner does, as the list of its
    calls and the wait status the parent can later collect. *)
Definition child_exec (argv : list string) (e : proc_env) : list syscall * wstatus :=
  match pe_execvp e with
  | Some st => ([SysExecvp (hd "" argv) argv true], st)
  | None => ([SysExecvp (hd "" argv) argv false; SysExit 127], WExited 127)
  end.

Definition child_execute_command (argv : list string) (e : proc_env)
  : list syscall * wstatus :=
  child_exec argv e.

Definition child_execute_with_stdin (argv : list string) (rfd wfd : Z) (e : proc_env)
  : list syscall * wstatus :=
  if pe_dup2 e =? -1 then
    ([SysClose wfd; SysDup2 rfd STDIN_FILENO; SysExit 127], WExited 127)
  else
    let devnull := pe_devnull e in
    let silence :=
      if negb (devnull =? -1) then
        [SysDup2 devnull STDOUT_FILENO; SysDup2 devnull STDERR_FILENO; SysClose devnull]
      else [] in
    ([SysClose wfd; SysDup2 rfd STDIN_FILENO; SysClose rfd;
      SysOpen "/dev/null" O_WRONLY devnull] ++ silence ++ fst (child_exec argv e),
     snd (child_exec argv e)).

(** ** The process runners *)

Definition exit_code (st : wstatus) : Z :=
  if WIFEXITED st then WEXITSTATUS st else -1.

Definition execute_command (argv : list string) : M Z :=
  e <- next_env ;;
  let child := child_execute_command argv e in
  pid <- sys_fork e (fst child) ;;
  match pid with
  | None => ret (-1)
  | Some pid =>
      status <- sys_waitpid e pid (snd child) ;;
      match status with
      | None => ret (-1)
      | Some st => ret (exit_code st)
      end
  end.

Definition execute_with_stdin (argv : list string) (input : addr) (len : Z) : M Z :=
  e <- next_env ;;
  fds <- sys_pipe e ;;
  match fds with
  | None => ret (-1)
  | Some (rfd, wfd) =>
      let child := child_execute_with_stdin argv rfd wfd e in
      pid <- sys_fork e (fst child) ;;
      match pid with
      | None => sys_close rfd ;;; sys_close wfd ;;; ret (-1)
      | Some pid =>
          sys_close rfd ;;;
          written <- sys_write e wfd input len ;;
          sys_close wfd ;;;
          if negb (written =? to_ssize len) then
            sys_waitpid e pid (snd child) ;;; ret (-1)
          else
            status <- sys_waitpid e pid (snd child) ;;
            match status with
            | None => ret (-1)
            | Some st => ret (exit_code st)
            end
      end
  end.

(** ** The lifecycle verbs *)

(** A [const char *] argument: [None] is the null pointer. *)
Definition is_null (s : option string) : bool :=
  match s with None => true | Some _ => false end.

Definition cstr (s : option string) : string :=
  match s with None => "" | Some x => x end.

Definition invalid_argument : M Z :=
  fun w => (-1, set_errno EINVAL w).

Definition create_argv (device_path : string) : list string :=
  ["cryptsetup"; "luksFormat"; "--type"; "luks2";
   "--cipher"; "aes-xts-plain64"; "--key-size"; "512";
   "--hash"; "sha256"; "--key-file"; "-"; "--batch-mode";
   device_path].

Definition luks_create_volume (device_path : option string) (key : addr) (key_len : Z)
  : M Z :=
  if is_null device_path || (key =? NULL)%nat || (key_len =? 0) then
    invalid_argument
  else
    result <- execute_with_stdin (create_argv (cstr device_path)) key key_len ;;
    secure_zero key key_len ;;;
    ret (if result =? 0 then 0 else -1).

Definition open_argv (device_path mapper_name : string) : list string :=
  ["cryptsetup"; "luksOpen"; "--key-file"; "-"; device_path; mapper_name].

(** [snprintf(mapper_path, 256, "/dev/mapper/%s", mapper_name)]: at most 255
    characters are kept. *)
Definition mapper_path (mapper_name : string) : string :=
  substring 0 255 (append "/dev/mapper/" mapper_name).

Definition mkfs_argv (mapper_name : string) : list string :=
  ["mkfs.ext4"; "-F"; "-q"; mapper_path mapper_name].

Definition mount_argv (mapper_name mount_point : string) : list string :=
  ["mount"; "-t"; "ext4"; mapper_path mapper_name; mount_point].

Definition close_argv (mapper_name : string) : list string :=
  ["cryptsetup"; "luksClose"; mapper_name].

Definition luks_open_volume (device_path mapper_name mount_point : option string)
    (key : addr) (key_len : Z) : M Z :=
  if is_null device_path || is_null mapper_name || is_null mount_point
     || (key =? NULL)%nat || (key_len =? 0) then
    invalid_argument
  else
    result <- execute_with_stdin
                (open_argv (cstr device_path) (cstr mapper_name)) key key_len ;;
    secure_zero key key_len ;;;
    if negb (result =? 0) then ret (-1)
    else
      execute_command (mkfs_argv (cstr mapper_name)) ;;;
      sys_mkdir (cstr mount_point) 448 ;;;
      result <- execute_command
                  (mount_argv (cstr mapper_name) (cstr mount_point)) ;;
      if negb (result =? 0) then
        execute_command (close_argv (cstr mapper_name)) ;;;
        ret (-1)
      else ret 0.

Definition umount_argv (mount_point : string) : list string :=
  ["umount"; "-f"; mount_point].

Definition luks_close_volume (mount_point mapper_name : option string) : M Z :=
  if is_null mount_point || is_null mapper_name then
    invalid_argument
  else
    execute_command (umount_argv (cstr mount_point)) ;;;
    result <- execute_command (close_argv (cstr mapper_name)) ;;
    ret (if result =? 0 then 0 else -1).

Definition status_argv (mapper_name : string) : list string :=
  ["cryptsetup"; "status"; mapper_name].

Definition luks_is_open (mapper_name : option string) : M Z :=
  if is_null mapper_name then ret 0
  else
    result <- execute_command (status_argv (cstr mapper_name)) ;;
    ret (if result =? 0 then 1 else 0).

(** ** Observations on a run *)

(** The events a computation adds to the trace. *)
Definition events_of {A} (m : M A) (w : world) : list event :=
  drop (length (w_trace w)) (w_trace (snd (m w))).

(** The answers the [k]-th coming runner invocation will get. *)
Definition env_at (k : nat) (w : world) : proc_env :=
  nth k (w_procs w) env_exhausted.

(** The bytes of the buffer [len] bytes long at [p]. *)
Definition buffer (p : addr) (len : Z) (m : list byte) : list byte :=
  take (Z.to_nat len) (drop p m).

(** The argument vectors handed to [execvp], in order. *)
Fixpoint argvs (t : list event) : list (list string) :=
  match t with
  | [] => []
  | (_, SysExecvp _ argv _) :: t' => argv :: argvs t'
  | _ :: t' => argvs t'
  end.

(** The buffers handed to [write], in order. *)
Fixpoint payloads (t : list event) : list (list byte) :=
  match t with
  | [] => []
  | (_, SysWrite _ buf _) :: t' => buf :: payloads t'
  | _ :: t' => payloads t'
  end.

(** The paths handed to [mkdir], in order. *)
Fixpoint mkdirs (t : list event) : list string :=
  match t with
  | [] => []
  | (_, SysMkdir path _ _) :: t' => path :: mkdirs t'
  | _ :: t' => mkdirs t'
  end.

(** The argument that follows [--key-file] in an argument vector. *)
Fixpoint key_file_arg (argv : list string) : option string :=
  match argv with
  | [] => None
  | a :: rest =>
      if String.eqb a "--key-file" then hd_error rest else key_file_arg rest
  end.

(** ** What one runner invocation amounts to

    The result and the events of [execute_command] and [execute_with_stdin]
    written out as functions of the environment's answers; the lemmas
    [execute_command_run] and [execute_with_stdin_run] below show that the
    runners compute exactly these. *)
Definition cmd_result (e : proc_env) : Z :=
  match pe_fork e with
  | None => -1
  | Some _ =>
      if pe_wait_ok e then
        match pe_execvp e with
        | Some st => exit_code st
        | None => 127
        end
      else -1
  end.

(** The calls of a child from [execvp] on: the image is replaced, or
    [execvp] returns and the child leaves with [_exit(127)]. *)
Definition exec_calls (argv : list string) (e : proc_env) : list syscall :=
  match pe_execvp e with
  | Some _ => [SysExecvp (hd "" argv) argv true]
  | None => [SysExecvp (hd "" argv) argv false; SysExit 127]
  end.

Definition cmd_events (argv : list string) (e : proc_env) : list event :=
  (Parent, SysFork (pe_fork e)) ::
  match pe_fork e with
  | None => []
  | Some pid =>
      map (pair (Child pid)) (exec_calls argv e)
      ++ [(Parent, SysWaitpid pid (pe_wait_ok e))]
  end.

(** [errno] after [execute_command], given its value before. *)
Definition cmd_errno (e : proc_env) (old : Z) : Z :=
  match pe_fork e with
  | None => pe_fork_errno e
  | Some _ => if pe_wait_ok e then old else pe_wait_errno e
  end.

Definition stdin_result (len : Z) (e : proc_env) : Z :=
  match pe_pipe e, pe_fork e with
  | Some _, Some _ =>
      if pe_write e =? to_ssize len then
        if pe_wait_ok e then
          if pe_dup2 e =? -1 then 127
          else match pe_execvp e with
               | Some st => exit_code st
               | None => 127
               end
        else -1
      else -1
  | _, _ => -1
  end.

(** The calls of the child of [execute_with_stdin]. *)
Definition stdin_child_calls (argv : list string) (rfd wfd : Z) (e : proc_env)
  : list syscall :=
  if pe_dup2 e =? -1 then [SysClose wfd; SysDup2 rfd 0; SysExit 127]
  else
    [SysClose wfd; SysDup2 rfd 0; SysClose rfd;
     SysOpen "/dev/null" 1 (pe_devnull e)]
    ++ (if pe_devnull e =? -1 then []
        else [SysDup2 (pe_devnull e) 1; SysDup2 (pe_devnull e) 2;
              SysClose (pe_devnull e)])
    ++ exec_calls argv e.

Definition stdin_events (argv : list string) (payload : list byte) (e : proc_env)
  : list event :=
  (Parent, SysPipe (pe_pipe e)) ::
  match pe_pipe e with
  | None => []
  | Some (rfd, wfd) =>
      (Parent, SysFork (pe_fork e)) ::
      match pe_fork e with
      | None => [(Parent, SysClose rfd); (Parent, SysClose wfd)]
      | Some pid =>
          map (pair (Child pid)) (stdin_child_calls argv rfd wfd e)
          ++ [(Parent, SysClose rfd);
              (Parent, SysWrite wfd payload (pe_write e));
              (Parent, SysClose wfd);
              (Parent, SysWaitpid pid (pe_wait_ok e))]
      end
  end.

(** [errno] after [execute_with_stdin], given its value before. *)
Definition stdin_errno (e : proc_env) (old : Z) : Z :=
  match pe_pipe e, pe_fork e with
  | None, _ => pe_pipe_errno e
  | Some _, None => pe_fork_errno e
  | Some _, Some _ =>
      if pe_wait_ok e then
        if pe_write e =? -1 then pe_write_errno e else old
      else pe_wait_errno e
  end.

(** The invocation ran the tool and the tool exited with status zero. *)
Definition exited_zero (e : proc_env) : Prop :=
  exists pid code,
    pe_fork e = Some pid /\ pe_wait_ok e = true /\
    pe_execvp e = Some (WExited code) /\ Z.land code 255 = 0.

(** The world after a runner invocation that logged [evs] and left
    [errno] at [err]. *)
Definition after_run (evs : list event) (err : Z) (w : world) : world :=
  set_errno err (add_events evs (set_procs (tl (w_procs w)) w)).

(** ** The calls of open, written out *)

Definition valid_ptrs (key : addr) (key_len : Z) : bool :=
  negb ((key =? NULL)%nat || (key_len =? 0)).

(** The events of a call to [luks_open_volume] with every argument present:
    the unlock invocation and, when it returned zero, the filesystem build,
    [mkdir], the mount invocation and, when that did not return zero, the
    lock invocation. *)
Definition open_events (dp mn mp : string) (payload : list byte) (len : Z)
    (w : world) : list event :=
  stdin_events (open_argv dp mn) payload (env_at 0 w) ++
  if stdin_result len (env_at 0 w) =? 0 then
    cmd_events (mkfs_argv mn) (env_at 1 w) ++
    [(Parent, SysMkdir mp 448 (if hd EACCES (w_dirs w) =? 0 then 0 else -1))] ++
    cmd_events (mount_argv mn mp) (env_at 2 w) ++
    (if cmd_result (env_at 2 w) =? 0 then []
     else cmd_events (close_argv mn) (env_at 3 w))
  else [].

Definition open_result (len : Z) (w : world) : Z :=
  if stdin_result len (env_at 0 w) =? 0 then
    if cmd_result (env_at 2 w) =? 0 then 0 else -1
  else -1.

(** The world [luks_open_volume] leaves behind, step by step. *)
Definition open_world (dp mn mp : string) (key : addr) (len : Z) (w : world)
  : world :=
  let w1 := set_mem (zero_loop (Z.to_nat len) key (w_mem w))
              (after_run (stdin_events (open_argv dp mn)
                            (buffer key len (w_mem w)) (env_at 0 w))
                 (stdin_errno (env_at 0 w) (w_errno w)) w) in
  if stdin_result len (env_at 0 w) =? 0 then
    let w2 := after_run (cmd_events (mkfs_argv mn) (env_at 1 w))
                (cmd_errno (env_at 1 w) (w_errno w1)) w1 in
    let w3 := snd (sys_mkdir mp 448 w2) in
    let w4 := after_run (cmd_events (mount_argv mn mp) (env_at 2 w))
                (cmd_errno (env_at 2 w) (w_errno w3)) w3 in
    if cmd_result (env_at 2 w) =? 0 then w4
    else after_run (cmd_events (close_argv mn) (env_at 3 w))
           (cmd_errno (env_at 3 w) (w_errno w4)) w4
  else w1.

(** What the caller can read back from a world: memory and [errno]. *)
Definition caller_view (w : world) : list byte * Z := (w_mem w, w_errno w).

(** ** Sample worlds *)

(** The key [secret_key] sits at address [1] of [demo_mem]. *)
Definition secret_key : list byte := [x73; x65; x63; x72; x65; x74].
Definition demo_mem : list byte := x00 :: secret_key ++ [x2a].

(** A tool that is spawned, takes [written] bytes on its standard input and
    ends with exit code [code]. *)
Definition tool (written code : Z) : proc_env :=
  mk_proc_env (Some (3, 4)) (Some 100%positive) 0 5 (Some (WExited code))
    written true EMFILE EAGAIN EPIPE ECHILD.

(** No process can be created: [fork] fails with [EAGAIN]. *)
Definition out_of_processes : proc_env :=
  mk_proc_env (Some (3, 4)) None 0 5 None (-1) false EMFILE EAGAIN EPIPE ECHILD.

Definition demo_world (procs : list proc_env) (dirs : list Z) : world :=
  mk_world demo_mem 0 [] procs dirs.

Definition world_open_ok : world :=
  demo_world [tool 6 0; tool 0 1; tool 0 0; tool 0 0] [0].


Definition world_wrong_key : world :=
  demo_world [tool 6 2; tool 0 0; tool 0 0; tool 0 0] [0].

(** The child reads three of six key bytes and still exits with zero. *)
Definition world_short_write : world := demo_world [tool 3 0] [].



(** The key is right and the [fork] for [mkfs.ext4] fails. *)
Definition world_mkfs_fork_fails : world :=
  demo_world [tool 6 0; out_of_processes; tool 0 0; tool 0 0] [0].

(** ** Resources held by a run *)

(** The children the parent forked, the children it waited for, the pipe
    ends it was given and the descriptors it closed. *)
Definition fork_of (ev : event) : list positive :=
  match ev with (Parent, SysFork (Some pid)) => [pid] | _ => [] end.

Definition wait_of (ev : event) : list positive :=
  match ev with (Parent, SysWaitpid pid _) => [pid] | _ => [] end.

Definition pipe_of (ev : event) : list Z :=
  match ev with (Parent, SysPipe (Some (r, w))) => [r; w] | _ => [] end.

Definition close_of (ev : event) : list Z :=
  match ev with (Parent, SysClose fd) => [fd] | _ => [] end.

Definition forked (t : list event) : list positive := List.flat_map fork_of t.
Definition waited (t : list event) : list positive := List.flat_map wait_of t.
Definition pipe_fds (t : list event) : list Z := List.flat_map pipe_of t.
Definition parent_closes (t : list event) : list Z := List.flat_map close_of t.

(** The answers with which [execute_with_stdin] returns zero: [pipe] and
    [fork] succeed, [write] returns the value of [(ssize_t)len], the child's
    [dup2] does not fail, [waitpid] succeeds and the tool exits with status
    zero.  This speaks of what [write] returned, not of what the tool
    read. *)
Definition piped_zero (len : Z) (e : proc_env) : Prop :=
  exists fds pid code,
    pe_pipe e = Some fds /\ pe_fork e = Some pid /\
    pe_write e = to_ssize len /\ pe_wait_ok e = true /\
    pe_dup2 e <> -1 /\
    pe_execvp e = Some (WExited code) /\ Z.land code 255 = 0.

(** ** Descriptor tables of a child

    What a child's calls do to its descriptor table, to read off what the
    tool finds open when [execvp] replaces the image.  The child starts with
    the descriptors it inherits and both ends of the pipe. *)
Inductive fobj :=
| Inherited (fd : Z)
| PipeRead
| PipeWrite
| OpenedFile (path : string).

Definition fdtable : Type := Z -> option fobj.

Definition child_table (inherited : Z -> bool) (rfd wfd : Z) : fdtable :=
  fun fd =>
    if fd =? wfd then Some PipeWrite
    else if fd =? rfd then Some PipeRead
    else if inherited fd then Some (Inherited fd)
    else None.

Definition fd_set (fd : Z) (o : option fobj) (t : fdtable) : fdtable :=
  fun x => if x =? fd then o else t x.

(** [close], [dup2] (which fails on a closed [oldfd]) and [open]. *)
Definition apply_call (t : fdtable) (c : syscall) : fdtable :=
  match c with
  | SysClose fd => fd_set fd None t
  | SysDup2 oldfd newfd =>
      match t oldfd with
      | Some o => fd_set newfd (Some o) t
      | None => t
      end
  | SysOpen path _ r =>
      if r =? -1 then t else fd_set r (Some (OpenedFile path)) t
  | _ => t
  end.

(** The table at the first [execvp] of a list of calls, if there is one. *)
Fixpoint table_at_exec (t : fdtable) (calls : list syscall) : option fdtable :=
  match calls with
  | [] => None
  | SysExecvp _ _ _ :: _ => Some t
  | c :: rest => table_at_exec (apply_call t c) rest
  end.

(** * GPU telemetry: a model of [internal/gpu/nvml_linux.c]

    The file loads NVML with [dlopen] on first use, keeps the outcome in
    [nvml_available] and ten function pointers, and wraps every query in an
    [nvmlInit_v2] ... [nvmlShutdown] pair.  The model keeps the globals in a
    [state] together with the machine (which libraries and symbols exist),
    the answers the library is going to give, and the trace of loader and
    library calls. *)
Module Nvml.

Definition NVML_SUCCESS : Z := 0.
Definition NVML_TEMPERATURE_GPU : Z := 0.

(** [(int)x] for a 32-bit [unsigned int] (or any integer) [x]. *)
Definition to_int (z : Z) : Z := (z + 2 ^ 31) mod 2 ^ 32 - 2 ^ 31.

(** A C [double] expression, kept as written: no floating-point
    arithmetic is carried out.  [DInt z] is [(double)z]; a literal such as
    [-1.0] is [DInt (-1)]. *)
Inductive cdouble :=
| DInt (z : Z)
| DAdd (x y : cdouble)
| DDiv (x y : cdouble).

(** The ten static function pointers [p_Init] ... [p_GetSerial]. *)
Inductive fn :=
| Init | Shutdown | GetCount | GetHandle | GetName
| GetMemInfo | GetCudaVer | GetTemp | GetUtil | GetSerial.

Definition fn_index (k : fn) : nat :=
  match k with
  | Init => 0 | Shutdown => 1 | GetCount => 2 | GetHandle => 3 | GetName => 4
  | GetMemInfo => 5 | GetCudaVer => 6 | GetTemp => 7 | GetUtil => 8
  | GetSerial => 9
  end.

Definition fn_eqb (k k' : fn) : bool := Nat.eqb (fn_index k) (fn_index k').

(** The symbol [nvml_load] resolves each pointer to. *)
Definition symbol_of (k : fn) : string :=
  match k with
  | Init => "nvmlInit_v2"
  | Shutdown => "nvmlShutdown"
  | GetCount => "nvmlDeviceGetCount_v2"
  | GetHandle => "nvmlDeviceGetHandleByIndex_v2"
  | GetName => "nvmlDeviceGetName"
  | GetMemInfo => "nvmlDeviceGetMemoryInfo"
  | GetCudaVer => "nvmlSystemGetCudaDriverVersion"
  | GetTemp => "nvmlDeviceGetTemperature"
  | GetUtil => "nvmlDeviceGetUtilizationRates"
  | GetSerial => "nvmlDeviceGetSerial"
  end.

(** A function pointer: [None] is NULL, [Some sym] the address of [sym]. *)
Abbreviation fnptr := (option string) (only parsing).

Inductive ev :=
| DlOpen (soname : string) (ok : bool)
| DlSym (soname symbol : string) (found : bool)
| DlClose (soname : string)
| Call (symbol : string) (args : list Z) (ret : Z).

(** One answer of the library: the [nvmlReturn_t] it returns, the numbers
    it stores through its output pointers and the text it writes into a
    character buffer ([None]: the buffer is left alone). *)
Record answer := mk_answer {
  a_ret : Z;
  a_val : Z;
  a_val2 : Z;
  a_text : option string
}.

(** The answer once the script is used up: [NVML_ERROR_UNKNOWN]. *)
Definition no_answer : answer := mk_answer 999 0 0 None.

(** Which shared objects the machine has and which symbols they export. *)
Record machine := mk_machine {
  has_lib : string -> bool;
  has_symbol : string -> string -> bool
}.

Record state := mk_state {
  nvml_handle : option string;
  nvml_available : Z;
  ptrs : fn -> option string;
  serial : string;
  caller_name : string;
  host : machine;
  answers : list answer;
  trace : list ev
}.

(** The program as it starts: the statics are zero, [nvml_available] is
    [-1]. *)
Definition start (m : machine) (script : list answer) : state :=
  mk_state None (-1) (fun _ => None) "" "" m script [].

Definition set_handle (h : option string) (s : state) : state :=
  mk_state h (nvml_available s) (ptrs s) (serial s) (caller_name s) (host s)
    (answers s) (trace s).
Definition set_available (v : Z) (s : state) : state :=
  mk_state (nvml_handle s) v (ptrs s) (serial s) (caller_name s) (host s)
    (answers s) (trace s).
Definition set_ptr (k : fn) (p : option string) (s : state) : state :=
  mk_state (nvml_handle s) (nvml_available s)
    (fun k' => if fn_eqb k' k then p else ptrs s k')
    (serial s) (caller_name s) (host s) (answers s) (trace s).
Definition set_serial (t : string) (s : state) : state :=
  mk_state (nvml_handle s) (nvml_available s) (ptrs s) t (caller_name s)
    (host s) (answers s) (trace s).
Definition set_caller_name (t : string) (s : state) : state :=
  mk_state (nvml_handle s) (nvml_available s) (ptrs s) (serial s) t
    (host s) (answers s) (trace s).
Definition set_answers (l : list answer) (s : state) : state :=
  mk_state (nvml_handle s) (nvml_available s) (ptrs s) (serial s)
    (caller_name s) (host s) l (trace s).
Definition add_ev (e : ev) (s : state) : state :=
  mk_state (nvml_handle s) (nvml_available s) (ptrs s) (serial s)
    (caller_name s) (host s) (answers s) (trace s ++ [e]).

(** State monad with a crash: [None] as result means the process died on a
    call through a NULL function pointer. *)
Definition N (A : Type) : Type := state -> option A * state.

Definition nret {A} (a : A) : N A := fun s => (Some a, s).
Definition nbind {A B} (m : N A) (k : A -> N B) : N B :=
  fun s => match m s with
           | (Some a, s') => k a s'
           | (None, s') => (None, s')
           end.

Declare Scope nvml_scope.
Delimit Scope nvml_scope with nvml.
Notation "x <- m ;; k" := (nbind m (fun x => k))
  (at level 100, m at next level, right associativity) : nvml_scope.
Notation "m ;;; k" := (nbind m (fun _ => k))
  (at level 100, right associativity) : nvml_scope.
Local Open Scope nvml_scope.

Definition get {A} (f : state -> A) : N A := fun s => (Some (f s), s).
Definition update (f : state -> state) : N unit := fun s => (Some tt, f s).

(** ** The dynamic loader *)

Definition dlopen (soname : string) : N (option string) :=
  fun s =>
    let ok := has_lib (host s) soname in
    (Some (if ok then Some soname else None), add_ev (DlOpen soname ok) s).

Definition dlsym (lib symbol : string) : N (option string) :=
  fun s =>
    let found := has_symbol (host s) lib symbol in
    (Some (if found then Some symbol else None),
     add_ev (DlSym lib symbol found) s).

Definition dlclose (lib : string) : N unit := update (add_ev (DlClose lib)).

(** [p_X = (fn_X)dlsym(nvml_handle, name)] *)
Definition resolve (k : fn) (lib name : string) : N unit :=
  p <- dlsym lib name ;; update (set_ptr k p).

Definition is_null (p : option string) : bool :=
  match p with None => true | Some _ => false end.

(** A call through a function pointer.  The library's answer is the next
    one of the script; a NULL pointer kills the process. *)
Definition call_symbol (sym : string) (args : list Z) : N answer :=
  fun s =>
    let a := hd no_answer (answers s) in
    (Some a, add_ev (Call sym args (a_ret a)) (set_answers (tl (answers s)) s)).

Definition call (k : fn) (args : list Z) : N answer :=
  fun s =>
    match ptrs s k with
    | None => (None, s)
    | Some sym => call_symbol sym args s
    end.

Definition nvml_load : N Z :=
  avail <- get nvml_available ;;
  if 0 <=? avail then nret avail
  else
    h <- dlopen "libnvidia-ml.so.1" ;;
    update (set_handle h) ;;;
    h <- get nvml_handle ;;
    (if is_null h then
       h' <- dlopen "libnvidia-ml.so" ;; update (set_handle h')
     else nret tt) ;;;
    h <- get nvml_handle ;;
    match h with
    | None => update (set_available 0) ;;; nret 0
    | Some lib =>
        resolve Init lib "nvmlInit_v2" ;;;
        resolve Shutdown lib "nvmlShutdown" ;;;
        resolve GetCount lib "nvmlDeviceGetCount_v2" ;;;
        resolve GetHandle lib "nvmlDeviceGetHandleByIndex_v2" ;;;
        resolve GetName lib "nvmlDeviceGetName" ;;;
        resolve GetMemInfo lib "nvmlDeviceGetMemoryInfo" ;;;
        resolve GetCudaVer lib "nvmlSystemGetCudaDriverVersion" ;;;
        resolve GetTemp lib "nvmlDeviceGetTemperature" ;;;
        resolve GetUtil lib "nvmlDeviceGetUtilizationRates" ;;;
        resolve GetSerial lib "nvmlDeviceGetSerial" ;;;
        p <- get ptrs ;;
        if is_null (p Init) || is_null (p Shutdown) || is_null (p GetCount)
           || is_null (p GetHandle) then
          dlclose lib ;;;
          update (set_handle None) ;;;
          update (set_available 0) ;;;
          nret 0
        else
          update (set_available 1) ;;; nret 1
    end.

(** ** The public API *)

Definition gpu_is_available : N Z := nvml_load.

Definition gpu_get_count : N Z :=
  ok <- nvml_load ;;
  if ok =? 0 then nret (-1)
  else
    i <- call Init [] ;;
    if negb (a_ret i =? NVML_SUCCESS) then nret (-1)
    else
      r <- call GetCount [] ;;
      call Shutdown [] ;;;
      nret (if a_ret r =? NVML_SUCCESS then to_int (a_val r) else -1).

(** [name] is the caller's buffer, [caller_name] in the state; the library
    writes into it. *)
Definition gpu_get_name (length : Z) : N Z :=
  ok <- nvml_load ;;
  if ok =? 0 then nret 0
  else
    i <- call Init [] ;;
    if negb (a_ret i =? NVML_SUCCESS) then nret 0
    else
      h <- call GetHandle [0] ;;
      if negb (a_ret h =? NVML_SUCCESS) then call Shutdown [] ;;; nret 0
      else
        r <- call GetName [a_val h; length] ;;
        (match a_text r with
         | Some t => update (set_caller_name t)
         | None => nret tt
         end) ;;;
        call Shutdown [] ;;;
        nret (if a_ret r =? NVML_SUCCESS then 1 else 0).

Definition gpu_get_vram : N cdouble :=
  ok <- nvml_load ;;
  p <- get ptrs ;;
  if (ok =? 0) || is_null (p GetMemInfo) then nret (DInt (-1))
  else
    i <- call Init [] ;;
    if negb (a_ret i =? NVML_SUCCESS) then nret (DInt (-1))
    else
      h <- call GetHandle [0] ;;
      if negb (a_ret h =? NVML_SUCCESS) then
        call Shutdown [] ;;; nret (DInt (-1))
      else
        r <- call GetMemInfo [a_val h] ;;
        call Shutdown [] ;;;
        nret (if a_ret r =? NVML_SUCCESS
              then DDiv (DInt (a_val r)) (DInt (1024 * 1024 * 1024))
              else DInt (-1)).

Definition gpu_get_max_cuda_version : N cdouble :=
  ok <- nvml_load ;;
  p <- get ptrs ;;
  if (ok =? 0) || is_null (p GetCudaVer) then nret (DInt 0)
  else
    i <- call Init [] ;;
    if negb (a_ret i =? NVML_SUCCESS) then nret (DInt 0)
    else
      r <- call GetCudaVer [] ;;
      call Shutdown [] ;;;
      if negb (a_ret r =? NVML_SUCCESS) then nret (DInt 0)
      else
        let ver := to_int (a_val r) in
        nret (DAdd (DInt (Z.quot ver 1000))
                   (DDiv (DInt (Z.quot (Z.rem ver 1000) 10)) (DInt 10))).

Definition gpu_get_temperature : N Z :=
  ok <- nvml_load ;;
  p <- get ptrs ;;
  if (ok =? 0) || is_null (p GetTemp) then nret (-1)
  else
    i <- call Init [] ;;
    if negb (a_ret i =? NVML_SUCCESS) then nret (-1)
    else
      h <- call GetHandle [0] ;;
      if negb (a_ret h =? NVML_SUCCESS) then call Shutdown [] ;;; nret (-1)
      else
        r <- call GetTemp [a_val h; NVML_TEMPERATURE_GPU] ;;
        call Shutdown [] ;;;
        nret (if a_ret r =? NVML_SUCCESS then to_int (a_val r) else -1).

Definition gpu_get_utilization : N Z :=
  ok <- nvml_load ;;
  p <- get ptrs ;;
  if (ok =? 0) || is_null (p GetUtil) then nret (-1)
  else
    i <- call Init [] ;;
    if negb (a_ret i =? NVML_SUCCESS) then nret (-1)
    else
      h <- call GetHandle [0] ;;
      if negb (a_ret h =? NVML_SUCCESS) then call Shutdown [] ;;; nret (-1)
      else
        r <- call GetUtil [a_val h] ;;
        call Shutdown [] ;;;
        nret (if a_ret r =? NVML_SUCCESS then to_int (a_val r) else -1).

Definition gpu_get_memory_utilization : N Z :=
  ok <- nvml_load ;;
  p <- get ptrs ;;
  if (ok =? 0) || is_null (p GetUtil) then nret (-1)
  else
    i <- call Init [] ;;
    if negb (a_ret i =? NVML_SUCCESS) then nret (-1)
    else
      h <- call GetHandle [0] ;;
      if negb (a_ret h =? NVML_SUCCESS) then call Shutdown [] ;;; nret (-1)
      else
        r <- call GetUtil [a_val h] ;;
        call Shutdown [] ;;;
        nret (if a_ret r =? NVML_SUCCESS then to_int (a_val2 r) else -1).

(** The pointer [gpu_get_serial] returns: NULL or the address of the one
    static buffer [serial]. *)
Inductive serial_ptr := SerialNull | SerialBuffer.

Definition read_serial (p : serial_ptr) (s : state) : option string :=
  match p with SerialNull => None | SerialBuffer => Some (serial s) end.

Definition gpu_get_serial : N serial_ptr :=
  ok <- nvml_load ;;
  p <- get ptrs ;;
  if (ok =? 0) || is_null (p GetSerial) then nret SerialNull
  else
    i <- call Init [] ;;
    if negb (a_ret i =? NVML_SUCCESS) then nret SerialNull
    else
      h <- call GetHandle [0] ;;
      if negb (a_ret h =? NVML_SUCCESS) then
        call Shutdown [] ;;; nret SerialNull
      else
        r <- call GetSerial [a_val h; 128] ;;
        (match a_text r with
         | Some t => update (set_serial t)
         | None => nret tt
         end) ;;;
        call Shutdown [] ;;;
        nret (if a_ret r =? NVML_SUCCESS then SerialBuffer else SerialNull).

(** ** Observations *)

Definition events_of {A} (m : N A) (s : state) : list ev :=
  drop (length (trace s)) (trace (snd (m s))).

(** Reads a trace as NVML sessions: [nvmlInit_v2] may only be called while
    the library is shut down, every other library call only while it is
    initialised, and the trace must end shut down.  [inited] says whether
    the library is initialised when the trace starts. *)
Fixpoint sessions (inited : bool) (t : list ev) : bool :=
  match t with
  | [] => negb inited
  | Call sym _ ret :: t' =>
      if String.eqb sym "nvmlInit_v2" then
        negb inited && sessions (ret =? NVML_SUCCESS) t'
      else if String.eqb sym "nvmlShutdown" then
        inited && sessions false t'
      else inited && sessions true t'
  | _ :: t' => sessions inited t'
  end.

(** The library calls of a trace, the libraries opened and closed. *)
Fixpoint calls (t : list ev) : list string :=
  match t with
  | [] => []
  | Call sym _ _ :: t' => sym :: calls t'
  | _ :: t' => calls t'
  end.

Fixpoint opened (t : list ev) : list string :=
  match t with
  | [] => []
  | DlOpen lib true :: t' => lib :: opened t'
  | _ :: t' => opened t'
  end.

Fixpoint closed (t : list ev) : list string :=
  match t with
  | [] => []
  | DlClose lib :: t' => lib :: closed t'
  | _ :: t' => closed t'
  end.

Fixpoint tried (t : list ev) : list string :=
  match t with
  | [] => []
  | DlOpen lib _ :: t' => lib :: tried t'
  | _ :: t' => tried t'
  end.

(** The library exports the four symbols [nvml_load] insists on. *)
Definition critical (m : machine) (lib : string) : bool :=
  has_symbol m lib "nvmlInit_v2" && has_symbol m lib "nvmlShutdown"
  && has_symbol m lib "nvmlDeviceGetCount_v2"
  && has_symbol m lib "nvmlDeviceGetHandleByIndex_v2".

(** The library [nvml_load] ends up using, if any. *)
Definition usable (m : machine) : option string :=
  if has_lib m "libnvidia-ml.so.1" then
    if critical m "libnvidia-ml.so.1" then Some "libnvidia-ml.so.1" else None
  else if has_lib m "libnvidia-ml.so" then
    if critical m "libnvidia-ml.so" then Some "libnvidia-ml.so" else None
  else None.

(** The pointer table after the ten [dlsym] steps on library [lib]. *)
Definition resolved (m : machine) (lib : string) (k : fn) : option string :=
  if has_symbol m lib (symbol_of k) then Some (symbol_of k) else None.

(** [1] when a usable library exists, else [0]. *)
Definition availability (m : machine) : Z :=
  match usable m with Some _ => 1 | None => 0 end.

(** The globals are in one of the three shapes [nvml_load] leaves or
    finds: not checked, unavailable, or available with a handle and the
    four critical pointers; a pointer that is set is set to its own
    symbol. *)
Definition consistent (s : state) : Prop :=
  (nvml_available s = -1 \/ nvml_available s = 0 \/ nvml_available s = 1)
  /\ (nvml_available s = 1 ->
      nvml_handle s <> None /\ ptrs s Init <> None /\ ptrs s Shutdown <> None
      /\ ptrs s GetCount <> None /\ ptrs s GetHandle <> None)
  /\ (nvml_available s <> 1 -> nvml_handle s = None)
  /\ (forall k sym, ptrs s k = Some sym -> sym = symbol_of k).

(** A run that ends normally, reads as complete NVML sessions and leaves
    the loader's globals alone. *)
Definition well_behaved {A} (f : N A) (s : state) : Prop :=
  exists r s2 evs,
    f s = (Some r, s2)
    /\ trace s2 = trace s ++ evs
    /\ sessions false evs = true
    /\ nvml_handle s2 = nvml_handle s
    /\ nvml_available s2 = nvml_available s
    /\ ptrs s2 = ptrs s
    /\ host s2 = host s.

(** The library calls of a trace, with their arguments. *)
Fixpoint call_events (t : list ev) : list ev :=
  match t with
  | [] => []
  | Call sym args ret :: t' => Call sym args ret :: call_events t'
  | _ :: t' => call_events t'
  end.

(** A run that ends normally, reads as complete NVML sessions and leaves
    the globals consistent. *)
Definition completes {A} (f : N A) (s : state) : Prop :=
  exists r s2 evs,
    f s = (Some r, s2)
    /\ trace s2 = trace s ++ evs
    /\ sessions false evs = true
    /\ consistent s2.

(** A run that returns [err] without any library call and without using
    any of the library's answers. *)
Definition quiet {A} (f : N A) (err : A) (s : state) : Prop :=
  fst (f s) = Some err
  /\ calls (events_of f s) = []
  /\ answers (snd (f s)) = answers s.

End Nvml.

(** * The clients linked against NVML

    [internal/utils/gpu_linux.c], [pkg/utils/gpu_linux.c],
    [internal/infra/system/fingerprint_linux.c] and
    [internal/utils/fingerprint_linux.c] include <nvml.h> and call the
    library directly.  They share the library model of [Nvml] (answers and
    [Call] events); their state is the script of answers, the trace, the
    caller's buffer and the file's own static buffer. *)
Module Linked.
Import Nvml.

Record lstate := mk_lstate {
  static_buf : string;
  out_buf : string;
  l_answers : list answer;
  l_trace : list ev
}.

Definition L (A : Type) : Type := lstate -> A * lstate.

Definition lret {A} (a : A) : L A := fun s => (a, s).
Definition lbind {A B} (m : L A) (k : A -> L B) : L B :=
  fun s => let (a, s') := m s in k a s'.

Declare Scope linked_scope.
Delimit Scope linked_scope with linked.
Notation "x <- m ;; k" := (lbind m (fun x => k))
  (at level 100, m at next level, right associativity) : linked_scope.
Notation "m ;;; k" := (lbind m (fun _ => k))
  (at level 100, right associativity) : linked_scope.

(** A direct call of the library function [sym]. *)
Definition nvml (sym : string) (args : list Z) : L answer :=
  fun s =>
    let a := hd no_answer (l_answers s) in
    (a, mk_lstate (static_buf s) (out_buf s) (tl (l_answers s))
          (l_trace s ++ [Call sym args (a_ret a)])).

(** The library writing the text of answer [a] into a buffer. *)
Definition write_static (a : answer) : L unit :=
  fun s =>
    (tt, match a_text a with
         | Some t => mk_lstate t (out_buf s) (l_answers s) (l_trace s)
         | None => s
         end).

Definition write_out (a : answer) : L unit :=
  fun s =>
    (tt, match a_text a with
         | Some t => mk_lstate (static_buf s) t (l_answers s) (l_trace s)
         | None => s
         end).

Definition l_events_of {A} (m : L A) (s : lstate) : list ev :=
  drop (length (l_trace s)) (l_trace (snd (m s))).

(** The pointer a function returns into its static buffer, or NULL. *)
Inductive buf_ptr := BufNull | BufStatic.

End Linked.

(** [internal/utils/gpu_linux.c] *)
Module UtilsGpu.
Import Nvml Linked.
Local Open Scope linked_scope.

Definition get_gpu_count : L Z :=
  result <- nvml "nvmlInit_v2" [] ;;
  if negb (a_ret result =? NVML_SUCCESS) then lret (-1)
  else
    result <- nvml "nvmlDeviceGetCount_v2" [] ;;
    nvml "nvmlShutdown" [] ;;;
    if negb (a_ret result =? NVML_SUCCESS) then lret (-1)
    else lret (to_int (a_val result)).

Definition get_gpu_name (length : Z) : L Z :=
  result <- nvml "nvmlInit_v2" [] ;;
  if negb (a_ret result =? NVML_SUCCESS) then lret 0
  else
    device <- nvml "nvmlDeviceGetHandleByIndex_v2" [0] ;;
    if negb (a_ret device =? NVML_SUCCESS) then
      nvml "nvmlShutdown" [] ;;; lret 0
    else
      result <- nvml "nvmlDeviceGetName" [a_val device; length] ;;
      write_out result ;;;
      nvml "nvmlShutdown" [] ;;;
      lret (if a_ret result =? NVML_SUCCESS then 1 else 0).

Definition get_gpu_vram : L cdouble :=
  result <- nvml "nvmlInit_v2" [] ;;
  if negb (a_ret result =? NVML_SUCCESS) then lret (DInt (-1))
  else
    device <- nvml "nvmlDeviceGetHandleByIndex_v2" [0] ;;
    if negb (a_ret device =? NVML_SUCCESS) then
      nvml "nvmlShutdown" [] ;;; lret (DInt (-1))
    else
      memory <- nvml "nvmlDeviceGetMemoryInfo" [a_val device] ;;
      nvml "nvmlShutdown" [] ;;;
      if negb (a_ret memory =? NVML_SUCCESS) then lret (DInt (-1))
      else lret (DDiv (DInt (a_val memory)) (DInt (1024 * 1024 * 1024))).

Definition get_max_cuda_version : L cdouble :=
  result <- nvml "nvmlInit_v2" [] ;;
  if negb (a_ret result =? NVML_SUCCESS) then lret (DInt 0)
  else
    result <- nvml "nvmlSystemGetCudaDriverVersion" [] ;;
    nvml "nvmlShutdown" [] ;;;
    if negb (a_ret result =? NVML_SUCCESS) then lret (DInt 0)
    else
      let cudaVersion := to_int (a_val result) in
      let major := Z.quot cudaVersion 1000 in
      let minor := Z.quot (Z.rem cudaVersion 1000) 10 in
      lret (DAdd (DInt major) (DDiv (DInt minor) (DInt 10))).

End UtilsGpu.

(** [pkg/utils/gpu_linux.c]: as above, except that the CUDA version is read
    from the compute capability of device 0. *)
Module PkgGpu.
Import Nvml Linked.
Local Open Scope linked_scope.

Definition get_gpu_count : L Z := UtilsGpu.get_gpu_count.
Definition get_gpu_name : Z -> L Z := UtilsGpu.get_gpu_name.
Definition get_gpu_vram : L cdouble := UtilsGpu.get_gpu_vram.

Definition get_max_cuda_version : L cdouble :=
  result <- nvml "nvmlInit_v2" [] ;;
  if negb (a_ret result =? NVML_SUCCESS) then lret (DInt 0)
  else
    device <- nvml "nvmlDeviceGetHandleByIndex_v2" [0] ;;
    if negb (a_ret device =? NVML_SUCCESS) then
      nvml "nvmlShutdown" [] ;;; lret (DInt 0)
    else
      result <- nvml "nvmlDeviceGetCudaComputeCapability" [a_val device] ;;
      nvml "nvmlShutdown" [] ;;;
      if negb (a_ret result =? NVML_SUCCESS) then lret (DInt 0)
      else
        let cudaMajor := to_int (a_val result) in
        let cudaMinor := to_int (a_val2 result) in
        lret (DAdd (DInt cudaMajor) (DDiv (DInt cudaMinor) (DInt 10))).

End PkgGpu.

(** [internal/infra/system/fingerprint_linux.c] *)
Module Fingerprint.
Import Nvml Linked.
Local Open Scope linked_scope.

Definition getGpuSerial : L buf_ptr :=
  i <- nvml "nvmlInit_v2" [] ;;
  if negb (a_ret i =? NVML_SUCCESS) then lret BufNull
  else
    device <- nvml "nvmlDeviceGetHandleByIndex_v2" [0] ;;
    if negb (a_ret device =? NVML_SUCCESS) then
      nvml "nvmlShutdown" [] ;;; lret BufNull
    else
      r <- nvml "nvmlDeviceGetSerial" [a_val device; 128] ;;
      write_static r ;;;
      if negb (a_ret r =? NVML_SUCCESS) then
        nvml "nvmlShutdown" [] ;;; lret BufNull
      else
        nvml "nvmlShutdown" [] ;;; lret BufStatic.

End Fingerprint.

(** [internal/utils/fingerprint_linux.c] *)
Module UtilsFingerprint.
Import Nvml Linked.
Local Open Scope linked_scope.

Definition getGpuName : L buf_ptr :=
  i <- nvml "nvmlInit_v2" [] ;;
  if negb (a_ret i =? NVML_SUCCESS) then lret BufNull
  else
    device <- nvml "nvmlDeviceGetHandleByIndex_v2" [0] ;;
    if negb (a_ret device =? NVML_SUCCESS) then
      nvml "nvmlShutdown" [] ;;; lret BufNull
    else
      r <- nvml "nvmlDeviceGetName" [a_val device; 128] ;;
      write_static r ;;;
      if negb (a_ret r =? NVML_SUCCESS) then
        nvml "nvmlShutdown" [] ;;; lret BufNull
      else
        nvml "nvmlShutdown" [] ;;; lret BufStatic.

End UtilsFingerprint.

(** ** Sample machines for the GPU queries *)

(** A driver whose library exports every symbol. *)
Definition full_driver : Nvml.machine :=
  Nvml.mk_machine (fun lib => String.eqb lib "libnvidia-ml.so.1")
    (fun _ _ => true).

(** A library with the four critical symbols and nothing else. *)
Definition bare_driver : Nvml.machine :=
  Nvml.mk_machine (fun lib => String.eqb lib "libnvidia-ml.so.1")
    (fun _ sym =>
       String.eqb sym "nvmlInit_v2" || String.eqb sym "nvmlShutdown"
       || String.eqb sym "nvmlDeviceGetCount_v2"
       || String.eqb sym "nvmlDeviceGetHandleByIndex_v2").

(** A successful answer storing [v] and [v2] and writing [t]. *)
Definition ok_answer (v v2 : Z) (t : option string) : Nvml.answer :=
  Nvml.mk_answer 0 v v2 t.

(** Answers for one device query and for two serial queries. *)
Definition gpu_script : list Nvml.answer :=
  [ok_answer 0 0 None; ok_answer 7 0 None; ok_answer 61 35 None;
   ok_answer 0 0 None].

(** Answers for a memory query on a device with 24 GiB. *)
Definition vram_script : list Nvml.answer :=
  [ok_answer 0 0 None; ok_answer 7 0 None; ok_answer 25769803776 0 None;
   ok_answer 0 0 None].

Definition serial_script : list Nvml.answer :=
  [ok_answer 0 0 None; ok_answer 7 0 None; ok_answer 0 0 (Some "GPU-A");
   ok_answer 0 0 None;
   ok_answer 0 0 None; ok_answer 8 0 None; ok_answer 0 0 (Some "GPU-B");
   ok_answer 0 0 None].

(** A linked client before its first call. *)
Definition linked_start (script : list Nvml.answer) : Linked.lstate :=
  Linked.mk_lstate "" "" script [].

(** A mapper name of 243 characters. *)
Definition long_name : string :=
  string_of_list_ascii (repeat (Ascii.ascii_of_nat 97) 243).

(** ** Basic facts *)

Lemma add_events_add_events evs1 evs2 w :
  add_events evs2 (add_events evs1 w) = add_events (evs1 ++ evs2) w.
Proof. unfold add_events; simpl. now rewrite <- app_assoc. Qed.

Ltac run_monad :=
  unfold bind, ret, sys_pipe, sys_fork, sys_close, sys_write, sys_waitpid,
    fail_with, emit, emit_all, next_env; simpl.

Lemma env_at_0 w : env_at 0 w = hd env_exhausted (w_procs w).
Proof. unfold env_at. now destruct (w_procs w). Qed.

Lemma env_at_S k evs err w : env_at (S k) w = env_at k (after_run evs err w).
Proof. unfold env_at, after_run; simpl. now destruct (w_procs w), k. Qed.

Lemma execute_command_run argv w :
  execute_command argv w
  = (cmd_result (env_at 0 w),
     after_run (cmd_events argv (env_at 0 w))
       (cmd_errno (env_at 0 w) (w_errno w)) w).
Proof.
  rewrite env_at_0.
  unfold execute_command, cmd_result, cmd_events, cmd_errno, exec_calls,
    after_run.
  set (e := hd env_exhausted (w_procs w)).
  run_monad. fold e.
  destruct (pe_fork e) as [pid|]; simpl; [|reflexivity].
  unfold child_execute_command, child_exec.
  destruct (pe_wait_ok e), (pe_execvp e); simpl;
    unfold add_events, set_errno; simpl; rewrite <- ?app_assoc; reflexivity.
Qed.

Lemma execute_with_stdin_run argv input len w :
  execute_with_stdin argv input len w
  = (stdin_result len (env_at 0 w),
     after_run (stdin_events argv (buffer input len (w_mem w)) (env_at 0 w))
       (stdin_errno (env_at 0 w) (w_errno w)) w).
Proof.
  rewrite env_at_0.
  unfold execute_with_stdin, stdin_result, stdin_events, stdin_errno,
    stdin_child_calls, exec_calls, after_run, buffer.
  set (e := hd env_exhausted (w_procs w)).
  set (sl := to_ssize len).
  unfold bind, ret, sys_pipe, sys_fork, sys_close, sys_write, sys_waitpid,
    fail_with, emit, emit_all, next_env.
  cbn [fst snd]. fold e.
  destruct (pe_pipe e) as [[rfd wfd]|]; cbn [fst snd];
    [|unfold add_events, set_errno, set_procs; cbn; reflexivity].
  destruct (pe_fork e) as [pid|]; cbn [fst snd];
    [|unfold add_events, set_errno, set_procs; cbn; rewrite <- ?app_assoc; reflexivity].
  unfold child_execute_with_stdin, child_exec, STDIN_FILENO, STDOUT_FILENO,
    STDERR_FILENO, O_WRONLY.
  destruct (pe_write e =? sl);
    destruct (pe_write e =? -1);
    destruct (pe_wait_ok e);
    destruct (pe_dup2 e =? -1);
    destruct (pe_devnull e =? -1);
    destruct (pe_execvp e).
  all: cbv [bind ret sys_close sys_waitpid fail_with emit emit_all add_events
         set_errno set_procs set_mem negb fst snd
         w_mem w_errno w_trace w_procs w_dirs].
  all: rewrite <- ?app_assoc.
  all: cbn [app map].
  all: reflexivity.
Qed.

(** ** [secure_zero] wipes exactly the buffer *)

Lemma zero_loop_inside n : forall (p : addr) (m : list byte),
  (p + n <= length m)%nat ->
  zero_loop n p m = take p m ++ replicate n x00 ++ drop (p + n) m.
Proof.
  induction n as [|n IH]; intros p m Hlen; simpl.
  - rewrite Nat.add_0_r. now rewrite take_drop.
  - rewrite IH by (rewrite length_insert; lia).
    rewrite (take_S_r _ p x00) by (apply list_lookup_insert_eq; lia).
    rewrite take_insert_ge by lia.
    rewrite drop_insert_lt by lia.
    rewrite <- app_assoc. simpl.
    now rewrite Nat.add_succ_r.
Qed.

Lemma zero_loop_length n : forall (p : addr) (m : list byte),
  length (zero_loop n p m) = length m.
Proof.
  induction n as [|n IH]; intros p m; simpl; [reflexivity|].
  now rewrite IH, length_insert.
Qed.

Lemma buffer_zero_loop (p : addr) (len : Z) (m : list byte) :
  (p + Z.to_nat len <= length m)%nat ->
  buffer p len (zero_loop (Z.to_nat len) p m) = replicate (Z.to_nat len) x00.
Proof.
  intros Hlen. unfold buffer.
  rewrite zero_loop_inside by exact Hlen.
  rewrite drop_app_length' by (rewrite length_take; lia).
  rewrite take_app_length' by (now rewrite length_replicate).
  reflexivity.
Qed.

(** ** What [luks_open_volume] amounts to *)

Lemma env_at_set_mem k m w : env_at k (set_mem m w) = env_at k w.
Proof. reflexivity. Qed.

Lemma events_of_eq {A} (m : M A) w evs :
  w_trace (snd (m w)) = w_trace w ++ evs -> events_of m w = evs.
Proof.
  intros H. unfold events_of. rewrite H.
  now rewrite drop_app_length.
Qed.

Lemma env_at_after_run k evs err w :
  env_at k (after_run evs err w) = env_at (S k) w.
Proof. symmetry. apply env_at_S. Qed.

Lemma env_at_mkdir k path mode w :
  env_at k (snd (sys_mkdir path mode w)) = env_at k w.
Proof. unfold sys_mkdir, env_at; simpl. now destruct (hd EACCES (w_dirs w) =? 0). Qed.

Ltac norm_env :=
  repeat first
    [ rewrite env_at_after_run | rewrite env_at_set_mem | rewrite env_at_mkdir ].

Lemma luks_open_volume_run dp mn mp key len w :
  valid_ptrs key len = true ->
  luks_open_volume (Some dp) (Some mn) (Some mp) key len w
  = (open_result len w, open_world dp mn mp key len w).
Proof.
  intros Hv. unfold valid_ptrs in Hv. apply negb_true_iff in Hv.
  unfold luks_open_volume, open_result, open_world.
  cbn [is_null cstr orb]. rewrite Hv.
  unfold bind at 1. rewrite execute_with_stdin_run.
  unfold bind at 1. unfold secure_zero at 1.
  destruct (stdin_result len (env_at 0 w) =? 0) eqn:Hr; cbn [negb];
    [|reflexivity].
  unfold bind at 1. rewrite execute_command_run.
  unfold bind at 1.
  match goal with |- context [sys_mkdir mp 448 ?w2] =>
    rewrite (surjective_pairing (sys_mkdir mp 448 w2)) end.
  unfold bind at 1. rewrite execute_command_run.
  norm_env.
  destruct (cmd_result (env_at 2 w) =? 0); cbn [negb]; [reflexivity|].
  unfold bind at 1. rewrite execute_command_run.
  norm_env. reflexivity.
Qed.

Lemma open_world_trace dp mn mp key len w :
  w_trace (open_world dp mn mp key len w)
  = w_trace w ++ open_events dp mn mp (buffer key len (w_mem w)) len w.
Proof.
  unfold open_world, open_events, after_run, sys_mkdir.
  destruct (stdin_result len (env_at 0 w) =? 0); [|simpl; now rewrite app_nil_r].
  destruct (cmd_result (env_at 2 w) =? 0);
    destruct (hd EACCES (w_dirs w) =? 0) eqn:Hd; simpl; rewrite ?Hd; simpl;
    rewrite ?app_nil_r, <- ?app_assoc; simpl; reflexivity.
Qed.

Lemma open_world_mem dp mn mp key len w :
  w_mem (open_world dp mn mp key len w) = zero_loop (Z.to_nat len) key (w_mem w).
Proof.
  unfold open_world, after_run, sys_mkdir.
  destruct (stdin_result len (env_at 0 w) =? 0); [|reflexivity].
  destruct (cmd_result (env_at 2 w) =? 0);
    destruct (hd EACCES (w_dirs w) =? 0) eqn:Hd; simpl; rewrite ?Hd; reflexivity.
Qed.

Lemma open_world_errno dp mn mp key len w :
  w_errno (open_world dp mn mp key len w)
  = let err1 := stdin_errno (env_at 0 w) (w_errno w) in
    if stdin_result len (env_at 0 w) =? 0 then
      let err2 := cmd_errno (env_at 1 w) err1 in
      let err3 := if hd EACCES (w_dirs w) =? 0 then err2
                  else hd EACCES (w_dirs w) in
      let err4 := cmd_errno (env_at 2 w) err3 in
      if cmd_result (env_at 2 w) =? 0 then err4
      else cmd_errno (env_at 3 w) err4
    else err1.
Proof.
  unfold open_world, after_run, sys_mkdir. cbv zeta.
  destruct (stdin_result len (env_at 0 w) =? 0); [|reflexivity].
  destruct (cmd_result (env_at 2 w) =? 0);
    destruct (hd EACCES (w_dirs w) =? 0) eqn:Hd; simpl; rewrite ?Hd;
    reflexivity.
Qed.

Lemma luks_open_volume_events dp mn mp key len w :
  valid_ptrs key len = true ->
  events_of (luks_open_volume (Some dp) (Some mn) (Some mp) key len) w
  = open_events dp mn mp (buffer key len (w_mem w)) len w.
Proof.
  intros Hv. apply events_of_eq.
  rewrite luks_open_volume_run by exact Hv. apply open_world_trace.
Qed.

(** ** What the other verbs amount to *)

Lemma luks_create_volume_run dp key len w :
  valid_ptrs key len = true ->
  luks_create_volume (Some dp) key len w
  = (if stdin_result len (env_at 0 w) =? 0 then 0 else -1,
     set_mem (zero_loop (Z.to_nat len) key (w_mem w))
       (after_run (stdin_events (create_argv dp) (buffer key len (w_mem w))
                     (env_at 0 w))
          (stdin_errno (env_at 0 w) (w_errno w)) w)).
Proof.
  intros Hv. unfold valid_ptrs in Hv. apply negb_true_iff in Hv.
  unfold luks_create_volume. cbn [is_null cstr orb]. rewrite Hv.
  unfold bind at 1. rewrite execute_with_stdin_run.
  reflexivity.
Qed.

Lemma luks_create_volume_events dp key len w :
  valid_ptrs key len = true ->
  events_of (luks_create_volume (Some dp) key len) w
  = stdin_events (create_argv dp) (buffer key len (w_mem w)) (env_at 0 w).
Proof.
  intros Hv. apply events_of_eq.
  now rewrite luks_create_volume_run by exact Hv.
Qed.

Lemma luks_close_volume_run mp mn w :
  luks_close_volume (Some mp) (Some mn) w
  = (if cmd_result (env_at 1 w) =? 0 then 0 else -1,
     after_run (cmd_events (close_argv mn) (env_at 1 w))
       (cmd_errno (env_at 1 w) (cmd_errno (env_at 0 w) (w_errno w)))
       (after_run (cmd_events (umount_argv mp) (env_at 0 w))
          (cmd_errno (env_at 0 w) (w_errno w)) w)).
Proof.
  unfold luks_close_volume. cbn [is_null cstr orb].
  unfold bind at 1. rewrite execute_command_run.
  unfold bind at 1. rewrite execute_command_run.
  norm_env. reflexivity.
Qed.

Lemma luks_is_open_run mn w :
  luks_is_open (Some mn) w
  = (if cmd_result (env_at 0 w) =? 0 then 1 else 0,
     after_run (cmd_events (status_argv mn) (env_at 0 w))
       (cmd_errno (env_at 0 w) (w_errno w)) w).
Proof.
  unfold luks_is_open. cbn [is_null cstr].
  unfold bind at 1. now rewrite execute_command_run.
Qed.

Lemma invalid_argument_events w : events_of invalid_argument w = [].
Proof.
  apply events_of_eq. simpl. now rewrite app_nil_r.
Qed.

(** [cmd_result] is zero exactly when the tool ran and exited with zero. *)
Lemma cmd_result_zero e : cmd_result e = 0 <-> exited_zero e.
Proof.
  unfold cmd_result, exited_zero. split.
  - destruct (pe_fork e) as [pid|]; [|discriminate].
    destruct (pe_wait_ok e); [|discriminate].
    destruct (pe_execvp e) as [[c|s]|]; try discriminate.
    unfold exit_code; simpl. intros H. now exists pid, c.
  - intros (pid & c & -> & -> & -> & H). exact H.
Qed.

(** ** The verbs on the sample worlds *)

Example create_succeeds :
  luks_create_volume (Some "/dev/sdb1") 1 6 (demo_world [tool 6 0] [])
  = (0,
     mk_world (x00 :: replicate 6 x00 ++ [x2a]) 0
       [(Parent, SysPipe (Some (3, 4)));
        (Parent, SysFork (Some 100%positive));
        (Child 100, SysClose 4);
        (Child 100, SysDup2 3 0);
        (Child 100, SysClose 3);
        (Child 100, SysOpen "/dev/null" 1 5);
        (Child 100, SysDup2 5 1);
        (Child 100, SysDup2 5 2);
        (Child 100, SysClose 5);
        (Child 100, SysExecvp "cryptsetup" (create_argv "/dev/sdb1") true);
        (Parent, SysClose 3);
        (Parent, SysWrite 4 secret_key 6);
        (Parent, SysClose 4);
        (Parent, SysWaitpid 100 true)]
       [] []).
Proof. reflexivity. Qed.

Example open_succeeds :
  let r := luks_open_volume (Some "/dev/sdb1") (Some "vault")
             (Some "/mnt/vault") 1 6 world_open_ok in
  fst r = 0
  /\ argvs (w_trace (snd r))
     = [["cryptsetup"; "luksOpen"; "--key-file"; "-"; "/dev/sdb1"; "vault"];
        ["mkfs.ext4"; "-F"; "-q"; "/dev/mapper/vault"];
        ["mount"; "-t"; "ext4"; "/dev/mapper/vault"; "/mnt/vault"]]
  /\ mkdirs (w_trace (snd r)) = ["/mnt/vault"]
  /\ payloads (w_trace (snd r)) = [secret_key]
  /\ buffer 1 6 (w_mem (snd r)) = replicate 6 x00.
Proof. repeat split; reflexivity. Qed.

Example open_with_wrong_key :
  let r := luks_open_volume (Some "/dev/sdb1") (Some "vault")
             (Some "/mnt/vault") 1 6 world_wrong_key in
  fst r = -1
  /\ argvs (w_trace (snd r)) = [open_argv "/dev/sdb1" "vault"]
  /\ buffer 1 6 (w_mem (snd r)) = replicate 6 x00.
Proof. repeat split; reflexivity. Qed.

Example close_then_status :
  let w := demo_world [tool 0 32; tool 0 0; tool 0 4] [] in
  let r1 := luks_close_volume (Some "/mnt/vault") (Some "vault") w in
  let r2 := luks_is_open (Some "vault") (snd r1) in
  fst r1 = 0 /\ fst r2 = 0
  /\ argvs (w_trace (snd r2))
     = [["umount"; "-f"; "/mnt/vault"];
        ["cryptsetup"; "luksClose"; "vault"];
        ["cryptsetup"; "status"; "vault"]].
Proof. repeat split; reflexivity. Qed.

(** A mapper name too long for the 256-byte [mapper_path] is cut. *)
Example mapper_path_is_truncated :
  String.length
    (mapper_path (string_of_list_ascii (repeat (Ascii.ascii_of_nat 97) 300)))
  = 255%nat.
Proof. reflexivity. Qed.

(** ** Argument vectors and payloads of the runners *)

Lemma argvs_app t1 t2 : argvs (t1 ++ t2) = argvs t1 ++ argvs t2.
Proof.
  induction t1 as [|[p c] t1 IH]; simpl; [reflexivity|].
  destruct c; simpl; now rewrite ?IH.
Qed.

Lemma payloads_app t1 t2 : payloads (t1 ++ t2) = payloads t1 ++ payloads t2.
Proof.
  induction t1 as [|[p c] t1 IH]; simpl; [reflexivity|].
  destruct c; simpl; now rewrite ?IH.
Qed.

Lemma mkdirs_app t1 t2 : mkdirs (t1 ++ t2) = mkdirs t1 ++ mkdirs t2.
Proof.
  induction t1 as [|[p c] t1 IH]; simpl; [reflexivity|].
  destruct c; simpl; now rewrite ?IH.
Qed.

Lemma argvs_cmd_events argv e :
  argvs (cmd_events argv e)
  = match pe_fork e with Some _ => [argv] | None => [] end.
Proof.
  unfold cmd_events, exec_calls.
  destruct (pe_fork e), (pe_execvp e); reflexivity.
Qed.

Lemma argvs_stdin_events argv payload e :
  argvs (stdin_events argv payload e)
  = match pe_pipe e, pe_fork e with
    | Some _, Some _ => if pe_dup2 e =? -1 then [] else [argv]
    | _, _ => []
    end.
Proof.
  unfold stdin_events, stdin_child_calls, exec_calls.
  destruct (pe_pipe e) as [[rfd wfd]|]; [|reflexivity].
  destruct (pe_fork e); [|reflexivity].
  destruct (pe_dup2 e =? -1); [reflexivity|].
  destruct (pe_devnull e =? -1), (pe_execvp e); reflexivity.
Qed.

Lemma payloads_cmd_events argv e : payloads (cmd_events argv e) = [].
Proof.
  unfold cmd_events, exec_calls.
  destruct (pe_fork e), (pe_execvp e); reflexivity.
Qed.

Lemma payloads_stdin_events argv payload e :
  payloads (stdin_events argv payload e)
  = match pe_pipe e, pe_fork e with
    | Some _, Some _ => [payload]
    | _, _ => []
    end.
Proof.
  unfold stdin_events, stdin_child_calls, exec_calls.
  destruct (pe_pipe e) as [[rfd wfd]|]; [|reflexivity].
  destruct (pe_fork e); [|reflexivity].
  destruct (pe_dup2 e =? -1); [reflexivity|].
  destruct (pe_devnull e =? -1), (pe_execvp e); reflexivity.
Qed.

Lemma mkdirs_cmd_events argv e : mkdirs (cmd_events argv e) = [].
Proof.
  unfold cmd_events, exec_calls.
  destruct (pe_fork e), (pe_execvp e); reflexivity.
Qed.

Lemma mkdirs_stdin_events argv payload e :
  mkdirs (stdin_events argv payload e) = [].
Proof.
  unfold stdin_events, stdin_child_calls, exec_calls.
  destruct (pe_pipe e) as [[rfd wfd]|]; [|reflexivity].
  destruct (pe_fork e); [|reflexivity].
  destruct (pe_dup2 e =? -1); [reflexivity|].
  destruct (pe_devnull e =? -1), (pe_execvp e); reflexivity.
Qed.

(** The verbs on a missing argument. *)
Lemma luks_create_volume_invalid device_path key key_len :
  is_null device_path || (key =? NULL)%nat || (key_len =? 0) = true ->
  luks_create_volume device_path key key_len = invalid_argument.
Proof. intros H. unfold luks_create_volume. now rewrite H. Qed.

Lemma luks_open_volume_invalid device_path mapper_name mount_point key key_len :
  is_null device_path || is_null mapper_name || is_null mount_point
    || (key =? NULL)%nat || (key_len =? 0) = true ->
  luks_open_volume device_path mapper_name mount_point key key_len
  = invalid_argument.
Proof. intros H. unfold luks_open_volume. now rewrite H. Qed.

(** Every call is either rejected or made with all arguments present. *)
Lemma create_cases device_path key key_len :
  luks_create_volume device_path key key_len = invalid_argument
  \/ exists dp, device_path = Some dp /\ valid_ptrs key key_len = true.
Proof.
  destruct (is_null device_path || (key =? NULL)%nat || (key_len =? 0)) eqn:H.
  - left. now apply luks_create_volume_invalid.
  - right. destruct device_path as [dp|]; [|discriminate].
    exists dp. split; [reflexivity|]. unfold valid_ptrs.
    simpl in H. now rewrite H.
Qed.

Lemma open_cases device_path mapper_name mount_point key key_len :
  luks_open_volume device_path mapper_name mount_point key key_len
  = invalid_argument
  \/ exists dp mn mp,
       device_path = Some dp /\ mapper_name = Some mn /\ mount_point = Some mp
       /\ valid_ptrs key key_len = true.
Proof.
  destruct (is_null device_path || is_null mapper_name || is_null mount_point
            || (key =? NULL)%nat || (key_len =? 0)) eqn:H.
  - left. now apply luks_open_volume_invalid.
  - right.
    destruct device_path as [dp|]; [|discriminate].
    destruct mapper_name as [mn|]; [|discriminate].
    destruct mount_point as [mp|]; [|discriminate].
    exists dp, mn, mp. repeat split. unfold valid_ptrs.
    simpl in H. now rewrite H.
Qed.

(** ** The key buffer after create and open *)

(** X1: on the paths that reach the runner (no NULL argument, key length
    not zero) the key buffer reads all zero after create and after open,
    whatever the runner returned, and nothing else in memory is touched. *)
Lemma key_wiped_after_runner dp mn mp (key : addr) (len : Z) (w : world) :
  valid_ptrs key len = true ->
  (key + Z.to_nat len <= length (w_mem w))%nat ->
  let w1 := snd (luks_create_volume (Some dp) key len w) in
  let w2 := snd (luks_open_volume (Some dp) (Some mn) (Some mp) key len w) in
  buffer key len (w_mem w1) = replicate (Z.to_nat len) x00
  /\ buffer key len (w_mem w2) = replicate (Z.to_nat len) x00
  /\ take key (w_mem w1) = take key (w_mem w)
  /\ drop (key + Z.to_nat len) (w_mem w1) = drop (key + Z.to_nat len) (w_mem w)
  /\ take key (w_mem w2) = take key (w_mem w)
  /\ drop (key + Z.to_nat len) (w_mem w2) = drop (key + Z.to_nat len) (w_mem w).
Proof.
  intros Hv Hlen w1 w2. subst w1 w2.
  rewrite luks_create_volume_run, luks_open_volume_run by exact Hv.
  cbn [snd]. rewrite open_world_mem. cbn [w_mem set_mem].
  rewrite buffer_zero_loop by exact Hlen.
  rewrite zero_loop_inside by exact Hlen.
  rewrite take_app_length' by (rewrite length_take; lia).
  rewrite app_assoc.
  rewrite drop_app_length'
    by (rewrite length_app, length_take, length_replicate; lia).
  repeat split; reflexivity.
Qed.

(** C1 (defect): with a NULL device path (create) or a NULL mapper name
    (open) and a good key buffer, the call returns [-1] with [EINVAL] through
    the early return, and the six key bytes are still in the buffer: they are
    not all zero after the call. *)
Theorem early_return_leaves_key_in_buffer :
  let w := demo_world [tool 6 0; tool 0 0; tool 0 0] [0] in
  luks_create_volume None 1 6 w = (-1, set_errno EINVAL w)
  /\ buffer 1 6 (w_mem (snd (luks_create_volume None 1 6 w))) = secret_key
  /\ luks_open_volume (Some "/dev/sdb1") None (Some "/mnt/vault") 1 6 w
     = (-1, set_errno EINVAL w)
  /\ buffer 1 6
       (w_mem (snd (luks_open_volume (Some "/dev/sdb1") None (Some "/mnt/vault")
                      1 6 w)))
     = secret_key
  /\ secret_key <> replicate 6 x00.
Proof.
  repeat split; try reflexivity. discriminate.
Qed.

(** ** The key and the argument vectors *)

Lemma argvs_open_events dp mn mp payload len w :
  argvs (open_events dp mn mp payload len w)
  = argvs (open_events dp mn mp [] len w).
Proof.
  unfold open_events. now rewrite !argvs_app, !argvs_stdin_events.
Qed.

Lemma argvs_open_events_incl dp mn mp payload len w :
  incl (argvs (open_events dp mn mp payload len w))
       [open_argv dp mn; mkfs_argv mn; mount_argv mn mp; close_argv mn].
Proof.
  unfold open_events.
  rewrite argvs_app, argvs_stdin_events.
  destruct (stdin_result len (env_at 0 w) =? 0).
  - rewrite !argvs_app, !argvs_cmd_events.
    destruct (cmd_result (env_at 2 w) =? 0); rewrite ?argvs_cmd_events;
      destruct (pe_pipe (env_at 0 w)), (pe_fork (env_at 0 w)),
        (pe_dup2 (env_at 0 w) =? -1), (pe_fork (env_at 1 w)),
        (pe_fork (env_at 2 w)), (pe_fork (env_at 3 w));
      intros a Ha; simpl in Ha |- *; intuition.
  - destruct (pe_pipe (env_at 0 w)), (pe_fork (env_at 0 w)),
      (pe_dup2 (env_at 0 w) =? -1);
      intros a Ha; simpl in Ha |- *; intuition.
Qed.

Lemma payloads_open_events_incl dp mn mp payload len w :
  incl (payloads (open_events dp mn mp payload len w)) [payload].
Proof.
  unfold open_events.
  rewrite payloads_app, payloads_stdin_events.
  destruct (stdin_result len (env_at 0 w) =? 0).
  - rewrite !payloads_app, !payloads_cmd_events.
    destruct (cmd_result (env_at 2 w) =? 0); rewrite ?payloads_cmd_events;
      destruct (pe_pipe (env_at 0 w)), (pe_fork (env_at 0 w));
      intros a Ha; simpl in Ha |- *; intuition.
  - destruct (pe_pipe (env_at 0 w)), (pe_fork (env_at 0 w));
      intros a Ha; simpl in Ha |- *; intuition.
Qed.

(** C2: the argument vectors that create and open hand to [execvp] are the
    same for any two contents of memory (any two keys); they are drawn from
    vectors built from the paths alone, in which the argument after
    [--key-file] is [-]; the key is seen only as the buffer given to [write]
    on the pipe. *)
Theorem key_never_in_argv
    (device_path mapper_name mount_point : option string)
    (key : addr) (key_len : Z) (w : world) (m1 m2 : list byte) :
  argvs (events_of (luks_create_volume device_path key key_len) (set_mem m1 w))
  = argvs (events_of (luks_create_volume device_path key key_len) (set_mem m2 w))
  /\ argvs (events_of
              (luks_open_volume device_path mapper_name mount_point key key_len)
              (set_mem m1 w))
     = argvs (events_of
                (luks_open_volume device_path mapper_name mount_point key key_len)
                (set_mem m2 w))
  /\ incl (argvs (events_of (luks_create_volume device_path key key_len) w))
          [create_argv (cstr device_path)]
  /\ incl (argvs (events_of
                    (luks_open_volume device_path mapper_name mount_point
                       key key_len) w))
          [open_argv (cstr device_path) (cstr mapper_name);
           mkfs_argv (cstr mapper_name);
           mount_argv (cstr mapper_name) (cstr mount_point);
           close_argv (cstr mapper_name)]
  /\ key_file_arg (create_argv (cstr device_path)) = Some "-"
  /\ key_file_arg (open_argv (cstr device_path) (cstr mapper_name)) = Some "-"
  /\ incl (payloads (events_of (luks_create_volume device_path key key_len) w))
          [buffer key key_len (w_mem w)]
  /\ incl (payloads (events_of
                       (luks_open_volume device_path mapper_name mount_point
                          key key_len) w))
          [buffer key key_len (w_mem w)].
Proof.
  assert (Hnil : forall A (l : list A), incl [] l) by (intros A l a []).
  split; [|split; [|split; [|split; [|split; [|split; [|split]]]]]].
  - destruct (create_cases device_path key key_len) as [E|(dp & -> & Hv)].
    + now rewrite E, !invalid_argument_events.
    + rewrite !luks_create_volume_events by exact Hv.
      now rewrite !argvs_stdin_events.
  - destruct (open_cases device_path mapper_name mount_point key key_len)
      as [E|(dp & mn & mp & -> & -> & -> & Hv)].
    + now rewrite E, !invalid_argument_events.
    + rewrite !luks_open_volume_events by exact Hv.
      rewrite argvs_open_events. symmetry. rewrite argvs_open_events.
      reflexivity.
  - destruct (create_cases device_path key key_len) as [E|(dp & -> & Hv)].
    + rewrite E, invalid_argument_events. apply Hnil.
    + rewrite luks_create_volume_events by exact Hv.
      rewrite argvs_stdin_events.
      destruct (pe_pipe (env_at 0 w)), (pe_fork (env_at 0 w)),
        (pe_dup2 (env_at 0 w) =? -1);
        intros a Ha; simpl in Ha |- *; intuition.
  - destruct (open_cases device_path mapper_name mount_point key key_len)
      as [E|(dp & mn & mp & -> & -> & -> & Hv)].
    + rewrite E, invalid_argument_events. apply Hnil.
    + rewrite luks_open_volume_events by exact Hv.
      apply argvs_open_events_incl.
  - reflexivity.
  - reflexivity.
  - destruct (create_cases device_path key key_len) as [E|(dp & -> & Hv)].
    + rewrite E, invalid_argument_events. apply Hnil.
    + rewrite luks_create_volume_events by exact Hv.
      rewrite payloads_stdin_events.
      destruct (pe_pipe (env_at 0 w)), (pe_fork (env_at 0 w));
        intros a Ha; simpl in Ha |- *; intuition.
  - destruct (open_cases device_path mapper_name mount_point key key_len)
      as [E|(dp & mn & mp & -> & -> & -> & Hv)].
    + rewrite E, invalid_argument_events. apply Hnil.
    + rewrite luks_open_volume_events by exact Hv.
      apply payloads_open_events_incl.
Qed.

(** ** Rollback and early exit in open *)





(** C5: when the unlock invocation did not return zero, open returns [-1]
    and its events are those of the unlock invocation alone: no other
    program is executed, no directory is made, and only one set of answers
    was taken from the environment. *)
Theorem open_stops_when_unlock_fails
    (dp mn mp : string) (key : addr) (key_len : Z) (w : world) :
  valid_ptrs key key_len = true ->
  stdin_result key_len (env_at 0 w) <> 0 ->
  let run := luks_open_volume (Some dp) (Some mn) (Some mp) key key_len in
  fst (run w) = -1
  /\ events_of run w
     = stdin_events (open_argv dp mn) (buffer key key_len (w_mem w)) (env_at 0 w)
  /\ incl (argvs (events_of run w)) [open_argv dp mn]
  /\ mkdirs (events_of run w) = []
  /\ w_procs (snd (run w)) = tl (w_procs w)
  /\ w_dirs (snd (run w)) = w_dirs w.
Proof.
  intros Hv Hopen run. subst run.
  apply Z.eqb_neq in Hopen.
  rewrite luks_open_volume_events by exact Hv.
  rewrite luks_open_volume_run by exact Hv.
  unfold open_result, open_events, open_world. cbn [fst snd].
  rewrite Hopen, app_nil_r.
  repeat split.
  - rewrite argvs_stdin_events.
    destruct (pe_pipe (env_at 0 w)), (pe_fork (env_at 0 w)),
      (pe_dup2 (env_at 0 w) =? -1);
      intros a Ha; simpl in Ha |- *; intuition.
  - apply mkdirs_stdin_events.
Qed.

Lemma open_stops_when_unlock_fails_witness :
  let run := luks_open_volume (Some "/dev/sdb1") (Some "vault")
               (Some "/mnt/vault") 1 6 in
  fst (run world_wrong_key) = -1
  /\ events_of run world_wrong_key
     = stdin_events (open_argv "/dev/sdb1" "vault")
         (buffer 1 6 (w_mem world_wrong_key)) (env_at 0 world_wrong_key)
  /\ incl (argvs (events_of run world_wrong_key)) [open_argv "/dev/sdb1" "vault"]
  /\ mkdirs (events_of run world_wrong_key) = []
  /\ w_procs (snd (run world_wrong_key)) = tl (w_procs world_wrong_key)
  /\ w_dirs (snd (run world_wrong_key)) = w_dirs world_wrong_key.
Proof.
  apply (open_stops_when_unlock_fails
           "/dev/sdb1" "vault" "/mnt/vault" 1 6 world_wrong_key).
  - reflexivity.
  - discriminate.
Defined.

(** ** Partial writes *)

Lemma to_ssize_small len : 0 <= len <= SSIZE_MAX -> to_ssize len = len.
Proof.
  unfold to_ssize, SSIZE_MAX. intros H.
  rewrite Z.mod_small by lia. lia.
Qed.

Lemma to_ssize_large len :
  SSIZE_MAX < len <= SIZE_MAX -> to_ssize len = len - 2 ^ 64.
Proof.
  unfold to_ssize, SSIZE_MAX, SIZE_MAX. intros H.
  replace (len + 2 ^ 63) with ((len - 2 ^ 63) + 1 * 2 ^ 64) by lia.
  rewrite Z.mod_add by lia.
  rewrite Z.mod_small by lia. lia.
Qed.

Lemma execute_with_stdin_events argv input len w :
  events_of (execute_with_stdin argv input len) w
  = stdin_events argv (buffer input len (w_mem w)) (env_at 0 w).
Proof.
  apply events_of_eq. now rewrite execute_with_stdin_run.
Qed.

(** C4: when [write] took fewer bytes than the payload has (or failed with
    [-1]), [execute_with_stdin] returns [-1] whatever the child does and
    however it ends, and after the write it closes the pipe and calls
    [waitpid] on the child before returning.  [len = SIZE_MAX] is left out
    for the [-1] answer because [(ssize_t)len] is then [-1] as well. *)
Theorem short_write_is_failure
    (argv : list string) (input : addr) (len : Z) (w : world) :
  0 <= len <= SIZE_MAX ->
  (0 <= pe_write (env_at 0 w) < len
   \/ (pe_write (env_at 0 w) = -1 /\ len <> SIZE_MAX)) ->
  fst (execute_with_stdin argv input len w) = -1
  /\ (forall rfd wfd pid,
        pe_pipe (env_at 0 w) = Some (rfd, wfd) ->
        pe_fork (env_at 0 w) = Some pid ->
        exists earlier,
          events_of (execute_with_stdin argv input len) w
          = earlier ++
            [(Parent, SysWrite wfd (buffer input len (w_mem w))
                        (pe_write (env_at 0 w)));
             (Parent, SysClose wfd);
             (Parent, SysWaitpid pid (pe_wait_ok (env_at 0 w)))]).
Proof.
  intros Hlen Hshort.
  assert (Hneq : (pe_write (env_at 0 w) =? to_ssize len) = false).
  { apply Z.eqb_neq.
    destruct (Z_le_gt_dec len SSIZE_MAX) as [Hs|Hl].
    - rewrite to_ssize_small by lia. lia.
    - rewrite to_ssize_large by lia. unfold SIZE_MAX in *. lia. }
  rewrite execute_with_stdin_events, execute_with_stdin_run. cbn [fst].
  split.
  - unfold stdin_result. rewrite Hneq.
    now destruct (pe_pipe (env_at 0 w)), (pe_fork (env_at 0 w)).
  - intros rfd wfd pid Hpipe Hfork.
    unfold stdin_events. rewrite Hpipe, Hfork.
    eexists ((Parent, SysPipe (Some (rfd, wfd)))
             :: (Parent, SysFork (Some pid))
             :: map (pair (Child pid)) _ ++ [(Parent, SysClose rfd)]).
    simpl. rewrite <- app_assoc. reflexivity.
Qed.

Lemma short_write_is_failure_witness :
  fst (execute_with_stdin (create_argv "/dev/sdb1") 1 6 world_short_write) = -1
  /\ (forall rfd wfd pid,
        pe_pipe (env_at 0 world_short_write) = Some (rfd, wfd) ->
        pe_fork (env_at 0 world_short_write) = Some pid ->
        exists earlier,
          events_of (execute_with_stdin (create_argv "/dev/sdb1") 1 6)
            world_short_write
          = earlier ++
            [(Parent, SysWrite wfd (buffer 1 6 (w_mem world_short_write))
                        (pe_write (env_at 0 world_short_write)));
             (Parent, SysClose wfd);
             (Parent, SysWaitpid pid (pe_wait_ok (env_at 0 world_short_write)))]).
Proof.
  apply (short_write_is_failure (create_argv "/dev/sdb1") 1 6 world_short_write).
  - unfold SIZE_MAX. lia.
  - left. simpl. lia.
Defined.

(** The one length the comparison [written != (ssize_t)len] cannot tell from
    a failed [write]: [(ssize_t)SIZE_MAX] is [-1].  No buffer is that long. *)
Lemma write_error_at_size_max :
  to_ssize SIZE_MAX = -1
  /\ stdin_result SIZE_MAX (tool (-1) 0) = 0.
Proof. split; reflexivity. Qed.


(** ** Close and status *)

Lemma cmd_result_not_zero (e : proc_env) (a b : Z) :
  (if cmd_result e =? 0 then a else b) = a <-> (a = b \/ exited_zero e).
Proof.
  rewrite <- cmd_result_zero.
  destruct (cmd_result e =? 0) eqn:H.
  - apply Z.eqb_eq in H. tauto.
  - apply Z.eqb_neq in H. split; [auto|]. intros [->|?]; [reflexivity|tauto].
Qed.

(** C6: with both arguments present, close runs [umount -f <mount point>]
    and then, whatever that gave, [cryptsetup luksClose <mapper>]: the
    second [fork] is always made and, when it succeeds, the child calls
    [execvp] on that vector.  Close returns [0] exactly when the lock
    invocation ran and exited with zero and [-1] otherwise, and the answers
    given to the unmount invocation change neither the result nor the lock
    invocation. *)
Theorem close_result_is_lock_result
    (mp mn : string) (w : world) (e0 e0' e1 : proc_env) (rest : list proc_env) :
  let run := luks_close_volume (Some mp) (Some mn) in
  events_of run w
  = cmd_events ["umount"; "-f"; mp] (env_at 0 w)
    ++ cmd_events ["cryptsetup"; "luksClose"; mn] (env_at 1 w)
  /\ argvs (events_of run w)
     = match pe_fork (env_at 0 w) with
       | Some _ => [["umount"; "-f"; mp]]
       | None => []
       end
       ++ match pe_fork (env_at 1 w) with
          | Some _ => [["cryptsetup"; "luksClose"; mn]]
          | None => []
          end
  /\ (forall pid, pe_fork (env_at 1 w) = Some pid ->
        In (Child pid,
            SysExecvp "cryptsetup" ["cryptsetup"; "luksClose"; mn]
              (match pe_execvp (env_at 1 w) with
               | Some _ => true
               | None => false
               end))
           (events_of run w))
  /\ fst (run w) = (if cmd_result (env_at 1 w) =? 0 then 0 else -1)
  /\ (fst (run w) = 0 <-> exited_zero (env_at 1 w))
  /\ (fst (run w) = -1 <-> ~ exited_zero (env_at 1 w))
  /\ fst (run (set_procs (e0 :: e1 :: rest) w))
     = fst (run (set_procs (e0' :: e1 :: rest) w))
  /\ (exists before,
        events_of run (set_procs (e0 :: e1 :: rest) w)
        = before ++ cmd_events ["cryptsetup"; "luksClose"; mn] e1).
Proof.
  intros run. subst run.
  assert (Hev : forall w',
             events_of (luks_close_volume (Some mp) (Some mn)) w'
             = cmd_events ["umount"; "-f"; mp] (env_at 0 w')
               ++ cmd_events ["cryptsetup"; "luksClose"; mn] (env_at 1 w')).
  { intros w'. apply events_of_eq. rewrite luks_close_volume_run.
    unfold after_run; simpl. now rewrite <- app_assoc. }
  rewrite !Hev.
  rewrite !luks_close_volume_run. cbn [fst snd].
  split; [reflexivity|]. split.
  { rewrite argvs_app, !argvs_cmd_events.
    now destruct (pe_fork (env_at 0 w)), (pe_fork (env_at 1 w)). }
  split.
  { intros pid Hpid. apply in_app_iff. right.
    unfold cmd_events, exec_calls. rewrite Hpid.
    destruct (pe_execvp (env_at 1 w)); simpl; auto. }
  split; [reflexivity|]. split; [|split; [|split]].
  - rewrite cmd_result_not_zero. split; [intros [?|?]; [discriminate|easy]|auto].
  - rewrite <- cmd_result_zero.
    destruct (cmd_result (env_at 1 w) =? 0) eqn:H.
    + apply Z.eqb_eq in H. split; [discriminate|tauto].
    + apply Z.eqb_neq in H. tauto.
  - reflexivity.
  - eexists. reflexivity.
Qed.

(** C10: for a NULL mapper name [luks_is_open] returns [0] and touches
    nothing.  Otherwise it runs [cryptsetup status <mapper>] (one [fork];
    the child calls [execvp] on that vector) and returns [1] exactly when
    that invocation ran and exited with zero; a failed [fork], a failed
    [waitpid], a tool that cannot be executed (exit 127), a non-zero exit
    and a death by signal all give [0]. *)
Theorem is_open_iff_status_exits_zero
    (mn : string) (w : world) (e : proc_env) (code sig : Z) :
  let run := luks_is_open (Some mn) in
  let with_answers fork execvp wait_ok :=
    mk_proc_env (pe_pipe e) fork (pe_dup2 e) (pe_devnull e) execvp (pe_write e)
      wait_ok (pe_pipe_errno e) (pe_fork_errno e) (pe_write_errno e)
      (pe_wait_errno e) in
  luks_is_open None w = (0, w)
  /\ events_of run w = cmd_events ["cryptsetup"; "status"; mn] (env_at 0 w)
  /\ argvs (events_of run w)
     = match pe_fork (env_at 0 w) with
       | Some _ => [["cryptsetup"; "status"; mn]]
       | None => []
       end
  /\ (forall pid, pe_fork (env_at 0 w) = Some pid ->
        In (Child pid,
            SysExecvp "cryptsetup" ["cryptsetup"; "status"; mn]
              (match pe_execvp (env_at 0 w) with
               | Some _ => true
               | None => false
               end))
           (events_of run w))
  /\ (fst (run w) = 1 <-> exited_zero (env_at 0 w))
  /\ (fst (run w) = 0 <-> ~ exited_zero (env_at 0 w))
  /\ (let fork_fails := with_answers None (pe_execvp e) (pe_wait_ok e) in
      fst (run (set_procs [fork_fails] w)) = 0)
  /\ (let wait_fails := with_answers (pe_fork e) (pe_execvp e) false in
      fst (run (set_procs [wait_fails] w)) = 0)
  /\ (let not_found := with_answers (pe_fork e) None (pe_wait_ok e) in
      fst (run (set_procs [not_found] w)) = 0)
  /\ (let killed :=
        with_answers (pe_fork e) (Some (WSignaled sig)) (pe_wait_ok e) in
      fst (run (set_procs [killed] w)) = 0)
  /\ (let exits :=
        with_answers (pe_fork e) (Some (WExited code)) (pe_wait_ok e) in
      fst (run (set_procs [exits] w))
      = if Z.land code 255 =? 0 then
          match pe_fork e with
          | Some _ => if pe_wait_ok e then 1 else 0
          | None => 0
          end
        else 0).
Proof.
  intros run with_answers. subst run with_answers. cbv zeta.
  assert (Hev : events_of (luks_is_open (Some mn)) w
                = cmd_events ["cryptsetup"; "status"; mn] (env_at 0 w)).
  { apply events_of_eq. now rewrite luks_is_open_run. }
  rewrite !Hev.
  rewrite !luks_is_open_run. cbn [fst snd].
  split; [reflexivity|]. split; [reflexivity|].
  split.
  { rewrite argvs_cmd_events. now destruct (pe_fork (env_at 0 w)). }
  split.
  { intros pid Hpid. unfold cmd_events, exec_calls. rewrite Hpid.
    destruct (pe_execvp (env_at 0 w)); simpl; auto. }
  split.
  { rewrite cmd_result_not_zero.
    split; [intros [?|?]; [discriminate|easy]|auto]. }
  split.
  { rewrite <- cmd_result_zero.
    destruct (cmd_result (env_at 0 w) =? 0) eqn:H.
    - apply Z.eqb_eq in H. split; [discriminate|tauto].
    - apply Z.eqb_neq in H. tauto. }
  unfold env_at, cmd_result, exit_code; simpl.
  repeat split.
  - now destruct (pe_fork e).
  - now destruct (pe_fork e), (pe_wait_ok e).
  - now destruct (pe_fork e), (pe_wait_ok e).
  - destruct (pe_fork e), (pe_wait_ok e);
      now destruct (Z.land code 255 =? 0).
Qed.

(** ** The steps of open whose outcome is not looked at *)

(** C9: whatever answers the filesystem-build invocation gets, open returns
    the same value, leaves the same memory, and logs the same events before
    and after those of [mkfs.ext4]; after a successful unlock the events
    that follow are [mkdir] on the mount point and then the mount
    invocation.  [errno] is the same as well for all answers in which
    [mkfs.ext4] was forked and waited for, that is whenever it has an exit
    status; a failed [fork] or [waitpid] leaves its own code there. *)
Theorem mkfs_outcome_is_ignored
    (dp mn mp : string) (key : addr) (key_len : Z) (w : world)
    (e0 : proc_env) (rest : list proc_env) :
  valid_ptrs key key_len = true ->
  let run := luks_open_volume (Some dp) (Some mn) (Some mp) key key_len in
  let script e := set_procs (e0 :: e :: rest) w in
  let unlocked := stdin_result key_len e0 =? 0 in
  exists (result : Z) (pre post : list event) (mem : list byte) (err : Z),
    (forall e,
        fst (run (script e)) = result
        /\ w_mem (snd (run (script e))) = mem
        /\ events_of run (script e)
           = pre
             ++ (if unlocked
                 then cmd_events ["mkfs.ext4"; "-F"; "-q"; mapper_path mn] e
                 else [])
             ++ post
        /\ (pe_fork e <> None -> pe_wait_ok e = true ->
            w_errno (snd (run (script e))) = err))
    /\ (unlocked = true ->
        exists r tail,
          post = (Parent, SysMkdir mp 448 r)
                 :: cmd_events ["mount"; "-t"; "ext4"; mapper_path mn; mp]
                      (hd env_exhausted rest)
                 ++ tail).
Proof.
  intros Hv run script unlocked.
  exists (open_result key_len (script env_exhausted)).
  exists (stdin_events (open_argv dp mn) (buffer key key_len (w_mem w)) e0).
  exists (if unlocked then
            (Parent, SysMkdir mp 448 (if hd EACCES (w_dirs w) =? 0 then 0 else -1))
            :: cmd_events (mount_argv mn mp) (hd env_exhausted rest)
            ++ (if cmd_result (hd env_exhausted rest) =? 0 then []
                else cmd_events (close_argv mn) (nth 1 rest env_exhausted))
          else []).
  exists (zero_loop (Z.to_nat key_len) key (w_mem w)).
  exists (w_errno (snd (run (script (tool 0 0))))).
  assert (H2 : forall e, env_at 2 (script e) = hd env_exhausted rest).
  { intros e. unfold env_at, script; simpl. now destruct rest. }
  split.
  - intros e. subst run.
    rewrite luks_open_volume_events by exact Hv.
    rewrite !luks_open_volume_run by exact Hv. cbn [fst snd].
    split; [|split; [|split]].
    + unfold open_result. rewrite !H2. reflexivity.
    + now rewrite open_world_mem.
    + unfold open_events. rewrite !H2.
      change (env_at 0 (script e)) with e0.
      change (env_at 1 (script e)) with e.
      change (env_at 3 (script e)) with (nth 1 rest env_exhausted).
      fold unlocked. destruct unlocked; reflexivity.
    + intros Hf Hw. rewrite !open_world_errno. cbv zeta. rewrite !H2.
      change (env_at 0 (script e)) with e0.
      change (env_at 0 (script (tool 0 0))) with e0.
      change (env_at 1 (script e)) with e.
      change (env_at 1 (script (tool 0 0))) with (tool 0 0).
      change (env_at 3 (script e)) with (nth 1 rest env_exhausted).
      change (env_at 3 (script (tool 0 0))) with (nth 1 rest env_exhausted).
      change (w_errno (script e)) with (w_errno w).
      change (w_errno (script (tool 0 0))) with (w_errno w).
      change (w_dirs (script e)) with (w_dirs w).
      change (w_dirs (script (tool 0 0))) with (w_dirs w).
      assert (He : forall x, cmd_errno e x = x).
      { intros x. unfold cmd_errno. rewrite Hw.
        now destruct (pe_fork e). }
      rewrite He. reflexivity.
  - intros ->. eauto.
Qed.

Lemma mkfs_outcome_is_ignored_witness :
  let run := luks_open_volume (Some "/dev/sdb1") (Some "vault")
               (Some "/mnt/vault") 1 6 in
  let script e := set_procs (tool 6 0 :: e :: [tool 0 0]) world_open_ok in
  let unlocked := stdin_result 6 (tool 6 0) =? 0 in
  exists (result : Z) (pre post : list event) (mem : list byte) (err : Z),
    (forall e,
        fst (run (script e)) = result
        /\ w_mem (snd (run (script e))) = mem
        /\ events_of run (script e)
           = pre
             ++ (if unlocked
                 then cmd_events
                        ["mkfs.ext4"; "-F"; "-q"; mapper_path "vault"] e
                 else [])
             ++ post
        /\ (pe_fork e <> None -> pe_wait_ok e = true ->
            w_errno (snd (run (script e))) = err))
    /\ (unlocked = true ->
        exists r tail,
          post = (Parent, SysMkdir "/mnt/vault" 448 r)
                 :: cmd_events
                      ["mount"; "-t"; "ext4"; mapper_path "vault"; "/mnt/vault"]
                      (hd env_exhausted [tool 0 0])
                 ++ tail).
Proof.
  apply (mkfs_outcome_is_ignored "/dev/sdb1" "vault" "/mnt/vault" 1 6
           world_open_ok (tool 6 0) [tool 0 0]).
  reflexivity.
Defined.

(** A failed [fork] for [mkfs.ext4] changes neither the result nor the
    steps of open, but its [EAGAIN] is what the caller finds in [errno]
    afterwards. *)
Example mkfs_fork_failure_shows_in_errno :
  let run := luks_open_volume (Some "/dev/sdb1") (Some "vault")
               (Some "/mnt/vault") 1 6 in
  fst (run world_mkfs_fork_fails) = 0
  /\ fst (run world_open_ok) = 0
  /\ w_errno (snd (run world_mkfs_fork_fails)) = EAGAIN
  /\ w_errno (snd (run world_open_ok)) = 0
  /\ argvs (events_of run world_mkfs_fork_fails)
     = [["cryptsetup"; "luksOpen"; "--key-file"; "-"; "/dev/sdb1"; "vault"];
        ["mount"; "-t"; "ext4"; "/dev/mapper/vault"; "/mnt/vault"]].
Proof. repeat split; reflexivity. Qed.




(** ** Argument validation *)

(** C8 (as stated, refuted): an empty device path, or an empty mapper name
    and mount point, is not rejected: the tool is spawned with the empty
    string in its argument vector and [errno] is not set. *)
Lemma empty_path_is_not_rejected :
  let create := luks_create_volume (Some "") 1 6 in
  let open := luks_open_volume (Some "/dev/sdb1") (Some "") (Some "") 1 6 in
  fst (create world_open_ok) = 0
  /\ w_errno (snd (create world_open_ok)) = 0
  /\ argvs (events_of create world_open_ok) = [create_argv ""]
  /\ fst (open world_open_ok) = 0
  /\ hd [] (argvs (events_of open world_open_ok)) = open_argv "/dev/sdb1" ""
  /\ ~ (create world_open_ok = (-1, set_errno EINVAL world_open_ok))
  /\ ~ (open world_open_ok = (-1, set_errno EINVAL world_open_ok)).
Proof.
  cbv zeta.
  split; [|split; [|split; [|split; [|split; [|split]]]]];
    try (vm_compute; reflexivity).
  - intros H. apply (f_equal fst) in H. vm_compute in H. discriminate.
  - intros H. apply (f_equal fst) in H. vm_compute in H. discriminate.
Qed.

(** C8 (amended): what is validated is that no pointer is NULL and that
    the key length is not zero.  A call with a NULL pointer or a zero length
    returns [-1] with [errno = EINVAL] and leaves memory, trace and
    environment as they were (no system call is made); any other call, an
    empty string included, starts the runner: its first event is [pipe]. *)
Theorem null_or_zero_length_is_rejected
    (device_path mapper_name mount_point : option string)
    (dp mn mp : string) (key : addr) (key_len : Z) (w : world) :
  luks_create_volume None key key_len w = (-1, set_errno EINVAL w)
  /\ luks_create_volume device_path NULL key_len w = (-1, set_errno EINVAL w)
  /\ luks_create_volume device_path key 0 w = (-1, set_errno EINVAL w)
  /\ luks_open_volume None mapper_name mount_point key key_len w
     = (-1, set_errno EINVAL w)
  /\ luks_open_volume device_path None mount_point key key_len w
     = (-1, set_errno EINVAL w)
  /\ luks_open_volume device_path mapper_name None key key_len w
     = (-1, set_errno EINVAL w)
  /\ luks_open_volume device_path mapper_name mount_point NULL key_len w
     = (-1, set_errno EINVAL w)
  /\ luks_open_volume device_path mapper_name mount_point key 0 w
     = (-1, set_errno EINVAL w)
  /\ hd_error (events_of (luks_create_volume (Some dp) key key_len) w)
     = (if valid_ptrs key key_len
        then Some (Parent, SysPipe (pe_pipe (env_at 0 w)))
        else None)
  /\ hd_error (events_of
                 (luks_open_volume (Some dp) (Some mn) (Some mp) key key_len) w)
     = (if valid_ptrs key key_len
        then Some (Parent, SysPipe (pe_pipe (env_at 0 w)))
        else None).
Proof.
  assert (Hc : forall d k l, is_null d || (k =? NULL)%nat || (l =? 0) = true ->
                 luks_create_volume d k l w = (-1, set_errno EINVAL w)).
  { intros d k l H. now rewrite luks_create_volume_invalid. }
  assert (Ho : forall d m p k l,
                 is_null d || is_null m || is_null p
                   || (k =? NULL)%nat || (l =? 0) = true ->
                 luks_open_volume d m p k l w = (-1, set_errno EINVAL w)).
  { intros d m p k l H. now rewrite luks_open_volume_invalid. }
  split; [now apply Hc|].
  split; [apply Hc; now destruct device_path|].
  split; [apply Hc; simpl; now rewrite !orb_true_r|].
  split; [now apply Ho|].
  split; [apply Ho; now destruct device_path|].
  split; [apply Ho; now destruct device_path, mapper_name|].
  split; [apply Ho; now destruct device_path, mapper_name, mount_point|].
  split; [apply Ho; simpl; now rewrite !orb_true_r|].
  destruct (valid_ptrs key key_len) eqn:Hv.
  - rewrite luks_create_volume_events, luks_open_volume_events by exact Hv.
    split; reflexivity.
  - unfold valid_ptrs in Hv. apply negb_false_iff in Hv.
    rewrite luks_create_volume_invalid, luks_open_volume_invalid
      by (simpl; exact Hv).
    rewrite invalid_argument_events. split; reflexivity.
Qed.

(** ** Further properties of the volume operations *)

Lemma key_wiped_after_runner_witness :
  buffer 1 6
    (w_mem (snd (luks_create_volume (Some "/dev/sdb1") 1 6 world_wrong_key)))
  = replicate 6 x00
  /\ buffer 1 6
       (w_mem (snd (luks_open_volume (Some "/dev/sdb1") (Some "vault")
                      (Some "/mnt/vault") 1 6 world_wrong_key)))
     = replicate 6 x00.
Proof.
  pose proof (key_wiped_after_runner "/dev/sdb1" "vault" "/mnt/vault" 1 6
                world_wrong_key eq_refl) as H.
  assert (Hin : (1 + Z.to_nat 6 <= length (w_mem world_wrong_key))%nat)
    by (simpl; lia).
  destruct (H Hin) as (H1 & H2 & _).
  split; [exact H1|exact H2].
Defined.

Lemma execute_command_events argv w :
  events_of (execute_command argv) w = cmd_events argv (env_at 0 w).
Proof.
  apply events_of_eq. now rewrite execute_command_run.
Qed.

Lemma luks_close_volume_events mp mn w :
  events_of (luks_close_volume (Some mp) (Some mn)) w
  = cmd_events (umount_argv mp) (env_at 0 w)
    ++ cmd_events (close_argv mn) (env_at 1 w).
Proof.
  apply events_of_eq. rewrite luks_close_volume_run.
  unfold after_run; simpl. now rewrite <- app_assoc.
Qed.

Lemma luks_is_open_events mn w :
  events_of (luks_is_open (Some mn)) w = cmd_events (status_argv mn) (env_at 0 w).
Proof.
  apply events_of_eq. now rewrite luks_is_open_run.
Qed.

Lemma luks_close_volume_invalid mount_point mapper_name :
  is_null mount_point || is_null mapper_name = true ->
  luks_close_volume mount_point mapper_name = invalid_argument.
Proof. intros H. unfold luks_close_volume. now rewrite H. Qed.

Lemma close_cases mount_point mapper_name :
  luks_close_volume mount_point mapper_name = invalid_argument
  \/ exists mp mn, mount_point = Some mp /\ mapper_name = Some mn.
Proof.
  destruct mount_point as [mp|]; [|now left].
  destruct mapper_name as [mn|]; [|now left].
  right. now exists mp, mn.
Qed.

Lemma is_open_cases mapper_name w :
  events_of (luks_is_open mapper_name) w = []
  \/ exists mn, mapper_name = Some mn.
Proof.
  destruct mapper_name as [mn|]; [right; now exists mn|left].
  apply events_of_eq. simpl. now rewrite app_nil_r.
Qed.

(** What a filter over events sees in the events of the runners. *)
Section Filters.
Context {A : Type} (f : event -> list A).
Hypothesis f_child : forall pid c, f (Child pid, c) = [].

Lemma filter_children pid cs :
  List.flat_map f (map (pair (Child pid)) cs) = [].
Proof.
  induction cs as [|c cs IH]; simpl; [reflexivity|].
  now rewrite f_child, IH.
Qed.

Lemma filter_cmd_events argv e :
  List.flat_map f (cmd_events argv e)
  = f (Parent, SysFork (pe_fork e))
    ++ match pe_fork e with
       | Some pid => f (Parent, SysWaitpid pid (pe_wait_ok e))
       | None => []
       end.
Proof.
  unfold cmd_events. simpl. destruct (pe_fork e) as [pid|]; [|reflexivity].
  rewrite flat_map_app, filter_children. simpl. now rewrite app_nil_r.
Qed.

Lemma filter_stdin_events argv payload e :
  List.flat_map f (stdin_events argv payload e)
  = f (Parent, SysPipe (pe_pipe e))
    ++ match pe_pipe e with
       | None => []
       | Some (rfd, wfd) =>
           f (Parent, SysFork (pe_fork e))
           ++ match pe_fork e with
              | None => f (Parent, SysClose rfd) ++ f (Parent, SysClose wfd)
              | Some pid =>
                  f (Parent, SysClose rfd)
                  ++ f (Parent, SysWrite wfd payload (pe_write e))
                  ++ f (Parent, SysClose wfd)
                  ++ f (Parent, SysWaitpid pid (pe_wait_ok e))
              end
       end.
Proof.
  unfold stdin_events. simpl.
  destruct (pe_pipe e) as [[rfd wfd]|]; [|reflexivity].
  simpl. destruct (pe_fork e) as [pid|]; simpl.
  - rewrite flat_map_app, filter_children. simpl. now rewrite app_nil_r.
  - now rewrite app_nil_r.
Qed.
End Filters.

Lemma forked_waited_cmd argv e :
  forked (cmd_events argv e) = waited (cmd_events argv e).
Proof.
  unfold forked, waited. rewrite !filter_cmd_events by reflexivity.
  now destruct (pe_fork e).
Qed.

Lemma forked_waited_stdin argv payload e :
  forked (stdin_events argv payload e) = waited (stdin_events argv payload e).
Proof.
  unfold forked, waited. rewrite !filter_stdin_events by reflexivity.
  now destruct (pe_pipe e) as [[rfd wfd]|], (pe_fork e).
Qed.

Lemma forked_waited_open dp mn mp payload len w :
  forked (open_events dp mn mp payload len w)
  = waited (open_events dp mn mp payload len w).
Proof.
  unfold open_events.
  assert (Hf : forall t1 t2, forked (t1 ++ t2) = forked t1 ++ forked t2)
    by (intros; apply flat_map_app).
  assert (Hw : forall t1 t2, waited (t1 ++ t2) = waited t1 ++ waited t2)
    by (intros; apply flat_map_app).
  rewrite Hf, Hw, forked_waited_stdin. f_equal.
  destruct (stdin_result len (env_at 0 w) =? 0); [|reflexivity].
  rewrite !Hf, !Hw, !forked_waited_cmd. simpl.
  now destruct (cmd_result (env_at 2 w) =? 0); rewrite ?forked_waited_cmd.
Qed.

(** X2: in every run of a runner or of a verb, the children the parent
    forked are the children it called [waitpid] on, one call each and in the
    same order: no child is left without a wait. *)
Theorem every_child_is_waited_for
    (device_path mapper_name mount_point : option string)
    (argv : list string) (key : addr) (key_len : Z) (w : world) :
  let same_children {A} (m : M A) :=
    forked (events_of m w) = waited (events_of m w) in
  same_children (execute_command argv)
  /\ same_children (execute_with_stdin argv key key_len)
  /\ same_children (luks_create_volume device_path key key_len)
  /\ same_children (luks_open_volume device_path mapper_name mount_point
                      key key_len)
  /\ same_children (luks_close_volume mount_point mapper_name)
  /\ same_children (luks_is_open mapper_name).
Proof.
  cbv zeta.
  split; [|split; [|split; [|split; [|split]]]].
  - rewrite execute_command_events. apply forked_waited_cmd.
  - rewrite execute_with_stdin_events. apply forked_waited_stdin.
  - destruct (create_cases device_path key key_len) as [E|(dp & -> & Hv)].
    + now rewrite E, invalid_argument_events.
    + rewrite luks_create_volume_events by exact Hv. apply forked_waited_stdin.
  - destruct (open_cases device_path mapper_name mount_point key key_len)
      as [E|(dp & mn & mp & -> & -> & -> & Hv)].
    + now rewrite E, invalid_argument_events.
    + rewrite luks_open_volume_events by exact Hv. apply forked_waited_open.
  - destruct (close_cases mount_point mapper_name) as [E|(mp & mn & -> & ->)].
    + now rewrite E, invalid_argument_events.
    + rewrite luks_close_volume_events.
      unfold forked, waited. rewrite !flat_map_app.
      fold (forked (cmd_events (umount_argv mp) (env_at 0 w))).
      fold (forked (cmd_events (close_argv mn) (env_at 1 w))).
      now rewrite !forked_waited_cmd.
  - destruct (is_open_cases mapper_name w) as [E|(mn & ->)].
    + now rewrite E.
    + rewrite luks_is_open_events. apply forked_waited_cmd.
Qed.

(** Two filters that agree on the events of both runners and on [mkdir]
    agree on the events of every verb. *)
Section Agreement.
Context {A : Type} (f g : event -> list A).
Hypothesis agree_cmd : forall argv e,
  List.flat_map f (cmd_events argv e) = List.flat_map g (cmd_events argv e).
Hypothesis agree_stdin : forall argv payload e,
  List.flat_map f (stdin_events argv payload e)
  = List.flat_map g (stdin_events argv payload e).
Hypothesis agree_mkdir : forall path mode r,
  f (Parent, SysMkdir path mode r) = g (Parent, SysMkdir path mode r).

Lemma agree_open_events dp mn mp payload len w :
  List.flat_map f (open_events dp mn mp payload len w)
  = List.flat_map g (open_events dp mn mp payload len w).
Proof.
  unfold open_events.
  rewrite !flat_map_app, agree_stdin. f_equal.
  destruct (stdin_result len (env_at 0 w) =? 0); [|reflexivity].
  rewrite !flat_map_app, !agree_cmd. simpl. rewrite agree_mkdir.
  now destruct (cmd_result (env_at 2 w) =? 0); rewrite ?agree_cmd.
Qed.

Lemma agree_on_every_verb
    (device_path mapper_name mount_point : option string)
    (argv : list string) (key : addr) (key_len : Z) (w : world) :
  let agree {B} (m : M B) :=
    List.flat_map f (events_of m w) = List.flat_map g (events_of m w) in
  agree (execute_command argv)
  /\ agree (execute_with_stdin argv key key_len)
  /\ agree (luks_create_volume device_path key key_len)
  /\ agree (luks_open_volume device_path mapper_name mount_point key key_len)
  /\ agree (luks_close_volume mount_point mapper_name)
  /\ agree (luks_is_open mapper_name).
Proof.
  cbv zeta.
  split; [|split; [|split; [|split; [|split]]]].
  - rewrite execute_command_events. apply agree_cmd.
  - rewrite execute_with_stdin_events. apply agree_stdin.
  - destruct (create_cases device_path key key_len) as [E|(dp & -> & Hv)].
    + now rewrite E, invalid_argument_events.
    + rewrite luks_create_volume_events by exact Hv. apply agree_stdin.
  - destruct (open_cases device_path mapper_name mount_point key key_len)
      as [E|(dp & mn & mp & -> & -> & -> & Hv)].
    + now rewrite E, invalid_argument_events.
    + rewrite luks_open_volume_events by exact Hv. apply agree_open_events.
  - destruct (close_cases mount_point mapper_name) as [E|(mp & mn & -> & ->)].
    + now rewrite E, invalid_argument_events.
    + rewrite luks_close_volume_events, !flat_map_app.
      now rewrite !agree_cmd.
  - destruct (is_open_cases mapper_name w) as [E|(mn & ->)].
    + now rewrite E.
    + rewrite luks_is_open_events. apply agree_cmd.
Qed.
End Agreement.

(** X3: in every run of a runner or of a verb, the descriptors the parent
    closes are the pipe ends [pipe] gave it, each closed once (read end
    first): no pipe end stays open in the caller, whether [fork] failed, the
    write was short or the tool ran. *)
Theorem every_pipe_end_is_closed
    (device_path mapper_name mount_point : option string)
    (argv : list string) (key : addr) (key_len : Z) (w : world) :
  let all_closed {A} (m : M A) :=
    pipe_fds (events_of m w) = parent_closes (events_of m w) in
  all_closed (execute_command argv)
  /\ all_closed (execute_with_stdin argv key key_len)
  /\ all_closed (luks_create_volume device_path key key_len)
  /\ all_closed (luks_open_volume device_path mapper_name mount_point
                   key key_len)
  /\ all_closed (luks_close_volume mount_point mapper_name)
  /\ all_closed (luks_is_open mapper_name).
Proof.
  apply (agree_on_every_verb pipe_of close_of).
  - intros argv' e. rewrite !filter_cmd_events by reflexivity.
    now destruct (pe_fork e).
  - intros argv' payload e. rewrite !filter_stdin_events by reflexivity.
    now destruct (pe_pipe e) as [[rfd wfd]|], (pe_fork e).
  - reflexivity.
Qed.

(** ** What the tool finds open *)

Ltac split_eqb :=
  repeat match goal with
         | |- context [?a =? ?b] =>
             let E := fresh "E" in
             destruct (Z.eqb_spec a b) as [E|E]; try lia; subst
         | H : context [?a =? ?b] |- _ =>
             let E := fresh "E" in
             destruct (Z.eqb_spec a b) as [E|E]; try lia; subst
         end.

(** X4: with pipe ends above the standard descriptors and [dup2] succeeding,
    the child of [execute_with_stdin] reaches [execvp] with standard input
    being the read end of the pipe and no other copy of either pipe end
    open (so the tool sees end of file once the parent closes its write
    end), and with standard output and error on [/dev/null] when that could
    be opened above descriptor 2 and left as inherited when it could not. *)
Theorem tool_stdin_is_the_pipe
    (inherited : Z -> bool) (argv : list string) (rfd wfd : Z) (e : proc_env) :
  rfd <> wfd -> 2 < rfd -> 2 < wfd ->
  pe_devnull e = -1 \/ 2 < pe_devnull e ->
  pe_dup2 e <> -1 ->
  exists T : fdtable,
    table_at_exec (child_table inherited rfd wfd)
      (fst (child_execute_with_stdin argv rfd wfd e)) = Some T
    /\ T STDIN_FILENO = Some PipeRead
    /\ (forall fd, fd <> STDIN_FILENO -> T fd <> Some PipeRead)
    /\ (forall fd, T fd <> Some PipeWrite)
    /\ T STDOUT_FILENO
       = (if pe_devnull e =? -1 then child_table inherited rfd wfd STDOUT_FILENO
          else Some (OpenedFile "/dev/null"))
    /\ T STDERR_FILENO
       = (if pe_devnull e =? -1 then child_table inherited rfd wfd STDERR_FILENO
          else Some (OpenedFile "/dev/null")).
Proof.
  intros Hrw Hr Hw Hd Hdup.
  unfold child_execute_with_stdin, child_exec.
  destruct (Z.eqb_spec (pe_dup2 e) (-1)) as [?|_]; [contradiction|].
  set (d := pe_devnull e) in *.
  assert (Hrfd : fd_set wfd None (child_table inherited rfd wfd) rfd
                 = Some PipeRead).
  { unfold fd_set, child_table. split_eqb. reflexivity. }
  destruct (Z.eqb_spec d (-1)) as [Ed|Ed]; cbn [negb].
  - destruct (pe_execvp e); cbn [fst app table_at_exec apply_call];
      rewrite Hrfd; rewrite Ed; cbn [Z.eqb Pos.eqb];
      (eexists; split; [reflexivity|]);
      unfold fd_set, child_table, STDIN_FILENO, STDOUT_FILENO, STDERR_FILENO;
      repeat split; try intros fd; try intros Hfd; split_eqb;
      try reflexivity; try congruence; destruct (inherited _); congruence.
  - assert (Hdev : forall t, fd_set d (Some (OpenedFile "/dev/null")) t d
                             = Some (OpenedFile "/dev/null")).
    { intros t. unfold fd_set. split_eqb. reflexivity. }
    assert (Hdev1 : forall o t, fd_set STDOUT_FILENO o t d = t d).
    { intros o t. unfold fd_set, STDOUT_FILENO. split_eqb. reflexivity. }
    assert (Hdev2 : forall o t, fd_set STDERR_FILENO o t d = t d).
    { intros o t. unfold fd_set, STDERR_FILENO. split_eqb. reflexivity. }
    destruct (pe_execvp e); cbn [fst app table_at_exec apply_call];
      rewrite Hrfd; destruct (Z.eqb_spec d (-1)) as [?|_]; try contradiction;
      rewrite ?Hdev; rewrite ?Hdev1, ?Hdev; rewrite ?Hdev2, ?Hdev1, ?Hdev;
      (eexists; split; [reflexivity|]);
      unfold fd_set, child_table, STDIN_FILENO, STDOUT_FILENO, STDERR_FILENO;
      repeat split; try intros fd; try intros Hfd; split_eqb;
      try reflexivity; try congruence; destruct (inherited _); congruence.
Qed.

Lemma tool_stdin_is_the_pipe_witness :
  exists T : fdtable,
    table_at_exec (child_table (fun fd => fd <? 3) 3 4)
      (fst (child_execute_with_stdin (create_argv "/dev/sdb1") 3 4 (tool 6 0)))
    = Some T
    /\ T STDIN_FILENO = Some PipeRead
    /\ (forall fd, fd <> STDIN_FILENO -> T fd <> Some PipeRead)
    /\ (forall fd, T fd <> Some PipeWrite)
    /\ T STDOUT_FILENO
       = (if pe_devnull (tool 6 0) =? -1
          then child_table (fun fd => fd <? 3) 3 4 STDOUT_FILENO
          else Some (OpenedFile "/dev/null"))
    /\ T STDERR_FILENO
       = (if pe_devnull (tool 6 0) =? -1
          then child_table (fun fd => fd <? 3) 3 4 STDERR_FILENO
          else Some (OpenedFile "/dev/null")).
Proof.
  apply (tool_stdin_is_the_pipe (fun fd => fd <? 3) (create_argv "/dev/sdb1")
           3 4 (tool 6 0)).
  - discriminate.
  - lia.
  - lia.
  - right. simpl. lia.
  - discriminate.
Defined.

(** X5: when [pipe] hands out descriptor 0 as the read end (the caller had
    its standard input closed), the child's [dup2(pipefd[0], STDIN_FILENO)]
    changes nothing and the [close(pipefd[0])] that follows closes standard
    input: the tool is executed with descriptor 0 closed, whatever [open]
    returns for [/dev/null]. *)
Theorem tool_has_no_stdin_when_pipe_is_descriptor_0
    (inherited : Z -> bool) (argv : list string) (wfd : Z) (e : proc_env) :
  pe_dup2 e <> -1 ->
  exists T : fdtable,
    table_at_exec (child_table inherited STDIN_FILENO wfd)
      (fst (child_execute_with_stdin argv STDIN_FILENO wfd e)) = Some T
    /\ T STDIN_FILENO = None.
Proof.
  intros Hdup.
  unfold child_execute_with_stdin, child_exec, STDIN_FILENO.
  destruct (Z.eqb_spec (pe_dup2 e) (-1)) as [?|_]; [contradiction|].
  set (d := pe_devnull e) in *.
  set (t1 := fd_set wfd None (child_table inherited 0 wfd)).
  assert (Ht2 : forall t : fdtable,
            fd_set 0 None (match t 0 with
                           | Some o => fd_set 0 (Some o) t
                           | None => t
                           end) 0 = None) by reflexivity.
  destruct (Z.eqb_spec d (-1)) as [Ed|Ed]; cbn [negb].
  - destruct (pe_execvp e); cbn [fst app table_at_exec apply_call];
      fold t1; rewrite Ed; cbn [Z.eqb];
      (eexists; split; [reflexivity|]); apply Ht2.
  - destruct (pe_execvp e); cbn [fst app table_at_exec apply_call];
      fold t1; destruct (Z.eqb_spec d (-1)) as [?|_]; try contradiction;
      (eexists; split; [reflexivity|]);
      unfold fd_set, STDOUT_FILENO, STDERR_FILENO;
      repeat match goal with
             | |- context [if ?a =? ?b then _ else _] =>
                 destruct (Z.eqb_spec a b); try lia; subst
             | |- context [match ?x with Some _ => _ | None => _ end] =>
                 destruct x
             end; reflexivity.
Qed.

Lemma tool_has_no_stdin_when_pipe_is_descriptor_0_witness :
  exists T : fdtable,
    table_at_exec (child_table (fun fd => (0 <? fd) && (fd <? 3)) STDIN_FILENO 3)
      (fst (child_execute_with_stdin (create_argv "/dev/sdb1") STDIN_FILENO 3
              (mk_proc_env (Some (0, 3)) (Some 100%positive) 0 0
                 (Some (WExited 0)) 6 true EMFILE EAGAIN EPIPE
                 ECHILD)))
    = Some T
    /\ T STDIN_FILENO = None.
Proof.
  apply (tool_has_no_stdin_when_pipe_is_descriptor_0
           (fun fd => (0 <? fd) && (fd <? 3)) (create_argv "/dev/sdb1") 3
           (mk_proc_env (Some (0, 3)) (Some 100%positive) 0 0
              (Some (WExited 0)) 6 true EMFILE EAGAIN EPIPE
                 ECHILD)).
  discriminate.
Defined.

(** ** When the verbs succeed *)

Lemma stdin_result_zero len e : stdin_result len e = 0 <-> piped_zero len e.
Proof.
  unfold stdin_result, piped_zero. split.
  - destruct (pe_pipe e) as [fds|]; [|discriminate].
    destruct (pe_fork e) as [pid|]; [|discriminate].
    destruct (Z.eqb_spec (pe_write e) (to_ssize len)) as [Hw|]; [|discriminate].
    destruct (pe_wait_ok e); [|discriminate].
    destruct (Z.eqb_spec (pe_dup2 e) (-1)) as [|Hd]; [discriminate|].
    destruct (pe_execvp e) as [[c|s]|]; try discriminate.
    unfold exit_code; simpl. intros H. now exists fds, pid, c.
  - intros (fds & pid & c & -> & -> & -> & -> & Hd & -> & H).
    rewrite Z.eqb_refl.
    destruct (Z.eqb_spec (pe_dup2 e) (-1)); [contradiction|exact H].
Qed.

Lemma valid_ptrs_true key len :
  valid_ptrs key len = true <-> key <> NULL /\ len <> 0.
Proof.
  unfold valid_ptrs, NULL.
  destruct (Nat.eqb_spec key 0), (Z.eqb_spec len 0); simpl;
    split; intros H; try discriminate; try tauto.
Qed.

(** X6: [luks_open_volume] returns [0] exactly when no argument is NULL,
    the key length is not zero, the unlock invocation returned zero (its
    [pipe] and [fork] succeeded, [write] returned the value of
    [(ssize_t)key_len], the child's [dup2] did not fail, [waitpid] succeeded
    and the tool exited with status zero) and the mount invocation was
    forked, waited for and exited with status zero.  Neither the filesystem
    build nor [mkdir] takes part.  The condition on the key is on the value
    [write] returned: it does not say that the tool read the key. *)
Theorem open_succeeds_iff
    (device_path mapper_name mount_point : option string)
    (key : addr) (key_len : Z) (w : world) :
  fst (luks_open_volume device_path mapper_name mount_point key key_len w) = 0
  <-> (device_path <> None /\ mapper_name <> None /\ mount_point <> None
       /\ key <> NULL /\ key_len <> 0
       /\ piped_zero key_len (env_at 0 w)
       /\ exited_zero (env_at 2 w)).
Proof.
  rewrite <- stdin_result_zero, <- cmd_result_zero.
  destruct (is_null device_path || is_null mapper_name || is_null mount_point
            || (key =? NULL)%nat || (key_len =? 0)) eqn:Hb.
  - rewrite luks_open_volume_invalid by exact Hb. simpl.
    split; [discriminate|].
    intros (H1 & H2 & H3 & H4 & H5 & _).
    assert (Hv : valid_ptrs key key_len = true) by now apply valid_ptrs_true.
    destruct device_path as [dp|]; [|congruence].
    destruct mapper_name as [mn|]; [|congruence].
    destruct mount_point as [mp|]; [|congruence].
    unfold valid_ptrs in Hv. simpl in Hb. rewrite Hb in Hv. discriminate.
  - destruct device_path as [dp|]; [|discriminate].
    destruct mapper_name as [mn|]; [|discriminate].
    destruct mount_point as [mp|]; [|discriminate].
    assert (Hv : valid_ptrs key key_len = true).
    { unfold valid_ptrs. simpl in Hb. now rewrite Hb. }
    rewrite luks_open_volume_run by exact Hv. cbn [fst]. unfold open_result.
    apply valid_ptrs_true in Hv.
    destruct (Z.eqb_spec (stdin_result key_len (env_at 0 w)) 0) as [H0|H0];
      destruct (Z.eqb_spec (cmd_result (env_at 2 w)) 0) as [H2|H2];
      split; try discriminate; try tauto.
    intros _. repeat split; try discriminate; tauto.
Qed.

(** X7: [luks_create_volume] returns [0] exactly when the device path and
    the key are not NULL, the key length is not zero and the format
    invocation returned zero (its [pipe] and [fork] succeeded, [write]
    returned the value of [(ssize_t)key_len], the child's [dup2] did not
    fail, [waitpid] succeeded and the tool exited with status zero); it
    executes at most one program, makes no directory and forks at most
    once.  The condition on the key is on the value [write] returned: it
    does not say that the tool read the key. *)
Theorem create_succeeds_iff
    (device_path : option string) (key : addr) (key_len : Z) (w : world) :
  (fst (luks_create_volume device_path key key_len w) = 0
   <-> (device_path <> None /\ key <> NULL /\ key_len <> 0
        /\ piped_zero key_len (env_at 0 w)))
  /\ (length (argvs (events_of (luks_create_volume device_path key key_len) w))
      <= 1)%nat
  /\ mkdirs (events_of (luks_create_volume device_path key key_len) w) = []
  /\ (length (forked (events_of (luks_create_volume device_path key key_len) w))
      <= 1)%nat.
Proof.
  rewrite <- stdin_result_zero.
  destruct (is_null device_path || (key =? NULL)%nat || (key_len =? 0)) eqn:Hb.
  - rewrite luks_create_volume_invalid by exact Hb.
    rewrite invalid_argument_events. simpl.
    split; [|repeat split; lia].
    split; [discriminate|]. intros (H1 & H2 & H3 & _).
    assert (Hv : valid_ptrs key key_len = true) by now apply valid_ptrs_true.
    destruct device_path as [dp|]; [|congruence].
    unfold valid_ptrs in Hv. simpl in Hb. rewrite Hb in Hv. discriminate.
  - assert (Hv : valid_ptrs key key_len = true).
    { unfold valid_ptrs. destruct device_path; [|discriminate].
      simpl in Hb. now rewrite Hb. }
    destruct device_path as [dp|]; [|discriminate].
    rewrite luks_create_volume_events by exact Hv.
    rewrite luks_create_volume_run by exact Hv. cbn [fst].
    rewrite argvs_stdin_events, mkdirs_stdin_events.
    unfold forked. rewrite filter_stdin_events by reflexivity.
    apply valid_ptrs_true in Hv.
    split; [|split; [|split; [reflexivity|]]].
    + destruct (Z.eqb_spec (stdin_result key_len (env_at 0 w)) 0);
        split; try discriminate; try tauto.
      intros _. repeat split; try discriminate; tauto.
    + destruct (pe_pipe (env_at 0 w)), (pe_fork (env_at 0 w)),
        (pe_dup2 (env_at 0 w) =? -1); simpl; lia.
    + destruct (pe_pipe (env_at 0 w)) as [[rfd wfd]|], (pe_fork (env_at 0 w));
        simpl; lia.
Qed.




(** X9: [luks_close_volume] with a NULL mount point or a NULL mapper name
    returns [-1] with [errno = EINVAL] and runs nothing.  In every case
    close and status leave the caller's memory as it was, write nothing to
    any descriptor, make no directory, and execute nothing but [umount -f
    <mount point>] and [cryptsetup luksClose <mapper>] (close) or
    [cryptsetup status <mapper>] (status). *)
Theorem close_and_status_are_frugal
    (mount_point mapper_name : option string) (w : world) :
  let close := luks_close_volume mount_point mapper_name in
  let status := luks_is_open mapper_name in
  luks_close_volume None mapper_name w = (-1, set_errno EINVAL w)
  /\ luks_close_volume mount_point None w = (-1, set_errno EINVAL w)
  /\ w_mem (snd (close w)) = w_mem w
  /\ w_mem (snd (status w)) = w_mem w
  /\ payloads (events_of close w) = []
  /\ payloads (events_of status w) = []
  /\ mkdirs (events_of close w) = []
  /\ mkdirs (events_of status w) = []
  /\ incl (argvs (events_of close w))
          [umount_argv (cstr mount_point); close_argv (cstr mapper_name)]
  /\ incl (argvs (events_of status w)) [status_argv (cstr mapper_name)].
Proof.
  cbv zeta.
  assert (Hnil : forall A (l : list A), incl [] l) by (intros A l a []).
  split; [reflexivity|].
  split; [now destruct mount_point|].
  destruct (is_open_cases mapper_name w) as [Es|(mn & ->)].
  - assert (mapper_name = None) as ->.
    { destruct mapper_name as [mn|]; [|reflexivity].
      rewrite luks_is_open_events in Es. discriminate Es. }
    rewrite (luks_close_volume_invalid mount_point None)
      by (now destruct mount_point).
    rewrite invalid_argument_events, Es. simpl.
    repeat split; try reflexivity; apply Hnil.
  - rewrite luks_is_open_events, luks_is_open_run. cbn [snd].
    rewrite payloads_cmd_events, mkdirs_cmd_events, argvs_cmd_events.
    destruct mount_point as [mp|].
    + rewrite luks_close_volume_events, luks_close_volume_run. cbn [snd].
      rewrite payloads_app, mkdirs_app, argvs_app.
      rewrite !payloads_cmd_events, !mkdirs_cmd_events, !argvs_cmd_events.
      repeat split; try reflexivity;
        destruct (pe_fork (env_at 0 w)), (pe_fork (env_at 1 w));
        intros a Ha; simpl in Ha |- *; intuition.
    + rewrite (luks_close_volume_invalid None (Some mn)) by reflexivity.
      rewrite invalid_argument_events. simpl.
      repeat split; try reflexivity; try apply Hnil;
        destruct (pe_fork (env_at 0 w));
        intros a Ha; simpl in Ha |- *; intuition.
Qed.

(** ** The mapper device path *)

Lemma substring_0_length n : forall s,
  String.length (substring 0 n s) = Nat.min n (String.length s).
Proof.
  induction n as [|n IH]; intros [|c s]; simpl; try reflexivity.
  now rewrite IH.
Qed.

Lemma substring_0_all n : forall s,
  (String.length s <= n)%nat -> substring 0 n s = s.
Proof.
  induction n as [|n IH]; intros [|c s] H; simpl in *; try reflexivity;
    try lia.
  rewrite IH by lia. reflexivity.
Qed.

Lemma substring_0_append n : forall s t,
  String.length s = n -> substring 0 n (append s t) = s.
Proof.
  induction n as [|n IH]; intros [|c s] t H; simpl in *; try discriminate.
  - now destruct t.
  - rewrite IH by lia. reflexivity.
Qed.

Lemma append_length s t :
  String.length (append s t) = (String.length s + String.length t)%nat.
Proof. induction s as [|c s IH]; simpl; [reflexivity|now rewrite IH]. Qed.

Lemma mapper_path_unfold mapper_name :
  mapper_path mapper_name = append "/dev/mapper/" (substring 0 243 mapper_name).
Proof. reflexivity. Qed.

(** X10: [mapper_path] is [/dev/mapper/] followed by the first 243
    characters of the mapper name, so it is never longer than 255
    characters, and it is [/dev/mapper/<name>] exactly for names of at most
    243 characters. *)
Theorem mapper_path_keeps_243_characters (mapper_name : string) :
  mapper_path mapper_name = append "/dev/mapper/" (substring 0 243 mapper_name)
  /\ String.length (mapper_path mapper_name)
     = Nat.min 255 (12 + String.length mapper_name)
  /\ (mapper_path mapper_name = append "/dev/mapper/" mapper_name
      <-> (String.length mapper_name <= 243)%nat).
Proof.
  assert (E : mapper_path mapper_name
              = append "/dev/mapper/" (substring 0 243 mapper_name))
    by reflexivity.
  split; [exact E|]. split.
  - rewrite E, append_length, substring_0_length. simpl String.length. lia.
  - split.
    + intros H. apply (f_equal String.length) in H.
      rewrite E, !append_length, substring_0_length in H. lia.
    + intros H. rewrite E, substring_0_all by exact H. reflexivity.
Qed.

(** X11: two mapper names that share their first 243 characters get the
    same mapper path, hence the same [mkfs.ext4] and [mount] argument
    vectors, while [luksOpen] is given the full names. *)
Theorem long_mapper_names_collide (s t1 t2 dp mp : string) :
  String.length s = 243%nat ->
  mapper_path (append s t1) = mapper_path (append s t2)
  /\ mkfs_argv (append s t1) = mkfs_argv (append s t2)
  /\ mount_argv (append s t1) mp = mount_argv (append s t2) mp
  /\ (t1 <> t2 -> open_argv dp (append s t1) <> open_argv dp (append s t2)).
Proof.
  intros Hs.
  assert (E : mapper_path (append s t1) = mapper_path (append s t2)).
  { rewrite !mapper_path_unfold.
    now rewrite !substring_0_append by exact Hs. }
  split; [exact E|]. unfold mkfs_argv, mount_argv. rewrite E.
  split; [reflexivity|]. split; [reflexivity|].
  intros Ht H. apply Ht. unfold open_argv in H.
  injection H as H. clear Hs E Ht.
  induction s as [|c s IH]; simpl in H; [exact H|].
  injection H as H. now apply IH.
Qed.

Lemma long_mapper_names_collide_witness :
  mapper_path (append long_name "x") = mapper_path (append long_name "y")
  /\ mkfs_argv (append long_name "x") = mkfs_argv (append long_name "y")
  /\ mount_argv (append long_name "x") "/mnt/vault"
     = mount_argv (append long_name "y") "/mnt/vault"
  /\ ("x" <> "y" ->
      open_argv "/dev/sdb1" (append long_name "x")
      <> open_argv "/dev/sdb1" (append long_name "y")).
Proof.
  apply (long_mapper_names_collide long_name "x" "y" "/dev/sdb1" "/mnt/vault").
  reflexivity.
Defined.

(** ** Wiping twice, and the values returned *)

(** X12: on a buffer that lies inside memory, wiping it a second time
    changes nothing more, the size of memory is kept, and [secure_zero]
    makes no system call. *)
Theorem secure_zero_is_idempotent (ptr : addr) (len : Z) (w : world) :
  (ptr + Z.to_nat len <= length (w_mem w))%nat ->
  snd (secure_zero ptr len (snd (secure_zero ptr len w)))
  = snd (secure_zero ptr len w)
  /\ length (w_mem (snd (secure_zero ptr len w))) = length (w_mem w)
  /\ events_of (secure_zero ptr len) w = [].
Proof.
  intros Hlen. unfold secure_zero. cbn [snd]. split; [|split].
  - unfold set_mem. cbn [w_mem w_errno w_trace w_procs w_dirs]. f_equal.
    rewrite (zero_loop_inside _ _ (zero_loop _ _ _))
      by now rewrite zero_loop_length.
    rewrite !zero_loop_inside by exact Hlen.
    rewrite take_app_length' by (rewrite length_take; lia).
    rewrite drop_app_add' by (rewrite length_take; lia).
    rewrite drop_app_length' by (now rewrite length_replicate).
    reflexivity.
  - cbn [w_mem set_mem]. apply zero_loop_length.
  - apply events_of_eq. simpl. now rewrite app_nil_r.
Qed.

Lemma secure_zero_is_idempotent_witness :
  snd (secure_zero 1 6 (snd (secure_zero 1 6 world_open_ok)))
  = snd (secure_zero 1 6 world_open_ok)
  /\ length (w_mem (snd (secure_zero 1 6 world_open_ok)))
     = length (w_mem world_open_ok)
  /\ events_of (secure_zero 1 6) world_open_ok = [].
Proof.
  apply (secure_zero_is_idempotent 1 6 world_open_ok).
  simpl. lia.
Defined.

Lemma exit_code_range st : -1 <= exit_code st <= 255.
Proof.
  destruct st as [c|s]; unfold exit_code; simpl; [|lia].
  change 255 with (Z.ones 8). rewrite Z.land_ones by lia.
  change (2 ^ 8) with 256.
  change (Z.ones 8) with 255.
  pose proof (Z.mod_pos_bound c 256 eq_refl). lia.
Qed.

Lemma cmd_result_range e : -1 <= cmd_result e <= 255.
Proof.
  unfold cmd_result.
  destruct (pe_fork e); [|lia]. destruct (pe_wait_ok e); [|lia].
  destruct (pe_execvp e); [apply exit_code_range|lia].
Qed.

Lemma stdin_result_range len e : -1 <= stdin_result len e <= 255.
Proof.
  unfold stdin_result.
  destruct (pe_pipe e); [|lia]. destruct (pe_fork e); [|lia].
  destruct (pe_write e =? to_ssize len); [|lia].
  destruct (pe_wait_ok e); [|lia].
  destruct (pe_dup2 e =? -1); [lia|].
  destruct (pe_execvp e); [apply exit_code_range|lia].
Qed.

(** X13: the runners return [-1] or an exit status between 0 and 255;
    create, open and close return [0] or [-1] and nothing else; status
    returns [0] or [1]. *)
Theorem return_values_are_in_range
    (device_path mapper_name mount_point : option string)
    (argv : list string) (key : addr) (key_len : Z) (w : world) :
  -1 <= fst (execute_command argv w) <= 255
  /\ -1 <= fst (execute_with_stdin argv key key_len w) <= 255
  /\ (fst (luks_create_volume device_path key key_len w) = 0
      \/ fst (luks_create_volume device_path key key_len w) = -1)
  /\ (fst (luks_open_volume device_path mapper_name mount_point key key_len w)
      = 0
      \/ fst (luks_open_volume device_path mapper_name mount_point
                key key_len w) = -1)
  /\ (fst (luks_close_volume mount_point mapper_name w) = 0
      \/ fst (luks_close_volume mount_point mapper_name w) = -1)
  /\ (fst (luks_is_open mapper_name w) = 0
      \/ fst (luks_is_open mapper_name w) = 1).
Proof.
  split; [rewrite execute_command_run; apply cmd_result_range|].
  split; [rewrite execute_with_stdin_run; apply stdin_result_range|].
  split; [|split; [|split]].
  - destruct (create_cases device_path key key_len) as [E|(dp & -> & Hv)].
    + rewrite E. now right.
    + rewrite luks_create_volume_run by exact Hv. cbn [fst].
      destruct (_ =? 0); auto.
  - destruct (open_cases device_path mapper_name mount_point key key_len)
      as [E|(dp & mn & mp & -> & -> & -> & Hv)].
    + rewrite E. now right.
    + rewrite luks_open_volume_run by exact Hv. cbn [fst]. unfold open_result.
      destruct (_ =? 0); auto. destruct (_ =? 0); auto.
  - destruct (close_cases mount_point mapper_name) as [E|(mp & mn & -> & ->)].
    + rewrite E. now right.
    + rewrite luks_close_volume_run. cbn [fst]. destruct (_ =? 0); auto.
  - destruct mapper_name as [mn|]; [|now left].
    rewrite luks_is_open_run. cbn [fst]. destruct (_ =? 0); auto.
Qed.

(** * Properties of the NVML loader and queries *)

Module NvmlFacts.
Import Nvml.

Lemma nvml_events_of_eq {A} (m : N A) s evs :
  trace (snd (m s)) = trace s ++ evs -> events_of m s = evs.
Proof.
  intros H. unfold events_of. rewrite H. now rewrite drop_app_length.
Qed.

Lemma nvml_load_cached s :
  0 <= nvml_available s -> nvml_load s = (Some (nvml_available s), s).
Proof.
  intros H. unfold nvml_load, nbind, get. cbn.
  destruct (Z.leb_spec 0 (nvml_available s)); [reflexivity|lia].
Qed.

Ltac nvml_run :=
  unfold nbind, get, update, dlopen, resolve, dlsym, dlclose, nret; cbn.

(** What a first [nvml_load] does. *)
Lemma nvml_load_fresh s :
  nvml_available s < 0 ->
  exists s1 evs,
    nvml_load s = (Some (availability (host s)), s1)
    /\ trace s1 = trace s ++ evs
    /\ calls evs = []
    /\ nvml_handle s1 = usable (host s)
    /\ nvml_available s1 = availability (host s)
    /\ host s1 = host s /\ answers s1 = answers s
    /\ serial s1 = serial s /\ caller_name s1 = caller_name s
    /\ opened evs
       = closed evs ++ match usable (host s) with
                       | Some lib => [lib]
                       | None => []
                       end
    /\ tried evs
       = "libnvidia-ml.so.1"
         :: (if has_lib (host s) "libnvidia-ml.so.1" then []
             else ["libnvidia-ml.so"])
    /\ (forall lib k, usable (host s) = Some lib ->
          ptrs s1 k = resolved (host s) lib k).
Proof.
  intros Hneg. unfold nvml_load, availability, usable, critical.
  nvml_run.
  destruct (Z.leb_spec 0 (nvml_available s)); [lia|].
  destruct (has_lib (host s) "libnvidia-ml.so.1") eqn:H1; cbn.
  - destruct (has_symbol (host s) "libnvidia-ml.so.1" "nvmlInit_v2") eqn:S1;
      destruct (has_symbol (host s) "libnvidia-ml.so.1" "nvmlShutdown") eqn:S2;
      destruct (has_symbol (host s) "libnvidia-ml.so.1" "nvmlDeviceGetCount_v2")
        eqn:S3;
      destruct (has_symbol (host s) "libnvidia-ml.so.1"
                  "nvmlDeviceGetHandleByIndex_v2") eqn:S4;
      cbn; (eexists; eexists; split; [reflexivity|]); cbn;
      (split; [rewrite <- !app_assoc; cbn; reflexivity|]);
      rewrite ?H1; repeat (split; [reflexivity|]);
      intros lib k Hl; try discriminate Hl; injection Hl as <-;
      destruct k; unfold resolved; cbn; rewrite ?S1, ?S2, ?S3, ?S4; reflexivity.
  - destruct (has_lib (host s) "libnvidia-ml.so") eqn:H2; cbn.
    + destruct (has_symbol (host s) "libnvidia-ml.so" "nvmlInit_v2") eqn:S1;
        destruct (has_symbol (host s) "libnvidia-ml.so" "nvmlShutdown") eqn:S2;
        destruct (has_symbol (host s) "libnvidia-ml.so" "nvmlDeviceGetCount_v2")
          eqn:S3;
        destruct (has_symbol (host s) "libnvidia-ml.so"
                    "nvmlDeviceGetHandleByIndex_v2") eqn:S4;
        cbn; (eexists; eexists; split; [reflexivity|]); cbn;
        (split; [rewrite <- !app_assoc; cbn; reflexivity|]);
        rewrite ?H1; repeat (split; [reflexivity|]);
        intros lib k Hl; try discriminate Hl; injection Hl as <-;
        destruct k; unfold resolved; cbn; rewrite ?S1, ?S2, ?S3, ?S4;
        reflexivity.
    + eexists; eexists; split; [reflexivity|]; cbn.
      split; [rewrite <- !app_assoc; cbn; reflexivity|].
      rewrite ?H1. repeat (split; [reflexivity|]).
      intros lib k Hl. discriminate Hl.
Qed.

Lemma nvml_load_twice s :
  nvml_load (snd (nvml_load s)) = nvml_load s.
Proof.
  destruct (Z.leb_spec 0 (nvml_available s)) as [H|H].
  - rewrite (nvml_load_cached s H). cbn [snd]. apply (nvml_load_cached s H).
  - destruct (nvml_load_fresh s H) as (s1 & evs & E & _ & _ & _ & Ha & _).
    rewrite E. cbn [snd]. rewrite nvml_load_cached.
    + now rewrite Ha.
    + rewrite Ha. unfold availability. destruct (usable (host s)); lia.
Qed.

Lemma nvml_load_absorb {A} (k : Z -> N A) s :
  nbind nvml_load k s = nbind nvml_load k (snd (nvml_load s)).
Proof. unfold nbind. now rewrite nvml_load_twice. Qed.

Lemma sessions_skip pre : forall b t,
  calls pre = [] -> sessions b (pre ++ t) = sessions b t.
Proof.
  induction pre as [|e pre IH]; intros b t H; [reflexivity|].
  destruct e; simpl in *; try discriminate; now apply IH.
Qed.

Ltac nvml_body :=
  unfold call, call_symbol, nbind, get, update, nret; cbn.

Lemma consistent_ready s :
  consistent s -> nvml_available s = 1 ->
  ptrs s Init = Some "nvmlInit_v2" /\ ptrs s Shutdown = Some "nvmlShutdown"
  /\ ptrs s GetCount = Some "nvmlDeviceGetCount_v2"
  /\ ptrs s GetHandle = Some "nvmlDeviceGetHandleByIndex_v2".
Proof.
  intros (_ & H1 & _ & Hsym) Ha.
  destruct (H1 Ha) as (_ & HI & HS & HC & HH).
  repeat split.
  - destruct (ptrs s Init) as [x|] eqn:E; [|congruence]. now rewrite (Hsym _ _ E).
  - destruct (ptrs s Shutdown) as [x|] eqn:E; [|congruence]. now rewrite (Hsym _ _ E).
  - destruct (ptrs s GetCount) as [x|] eqn:E; [|congruence]. now rewrite (Hsym _ _ E).
  - destruct (ptrs s GetHandle) as [x|] eqn:E; [|congruence]. now rewrite (Hsym _ _ E).
Qed.

Ltac use_eqns :=
  repeat match goal with
         | H : (_ =? _) = _ |- _ => rewrite H
         end.

Ltac nvml_step HI HS HC HH :=
  repeat first
    [ rewrite HI | rewrite HS | rewrite HC | rewrite HH
    | match goal with
      | |- context [a_ret ?a =? NVML_SUCCESS] =>
          destruct (a_ret a =? NVML_SUCCESS) eqn:?
      | |- context [match a_text ?a with _ => _ end] =>
          destruct (a_text a) eqn:?
      end
    | progress cbn ].

Ltac nvml_done :=
  eexists; eexists; eexists;
  split; [reflexivity|];
  split; [cbn; rewrite <- ?app_assoc; cbn; reflexivity|];
  split; [cbn; use_eqns; reflexivity|];
  repeat split; cbn; try reflexivity; try assumption.

Ltac nvml_unavailable s :=
  cbn; eexists; exists s, []; rewrite app_nil_r; now repeat split.

(** A query whose optional pointer is [k], at a state where the loader has
    decided. *)
Ltac decided_query f k :=
  let Hc := fresh "Hc" in
  let Hd := fresh "Hd" in
  let Ha := fresh "Ha" in
  let Hrest := fresh "Hrest" in
  let HI := fresh "HI" in
  let HS := fresh "HS" in
  let HC := fresh "HC" in
  let HH := fresh "HH" in
  let Hsym := fresh "Hsym" in
  let E := fresh "E" in
  let x := fresh "x" in
  let Hx := fresh "Hx" in
  intros Hc Hd; unfold well_behaved, f;
  unfold nbind at 1;
  match goal with s : state |- _ => rewrite (nvml_load_cached s Hd) end;
  destruct Hc as ([Ha|[Ha|Ha]] & Hrest); [lia| |];
  [ rewrite Ha; nvml_body;
    match goal with s : state |- _ => nvml_unavailable s end
  | match goal with s : state |- _ =>
      destruct (consistent_ready s (conj (or_intror (or_intror Ha)) Hrest) Ha)
        as (HI & HS & HC & HH);
      destruct Hrest as (_ & _ & Hsym);
      rewrite Ha; nvml_body;
      destruct (ptrs s k) as [x|] eqn:E;
      [ pose proof (Hsym _ _ E) as Hx; cbn in Hx; subst x;
        nvml_step HI HS HC HH; try (rewrite E; nvml_step HI HS HC HH);
        nvml_done
      | nvml_unavailable s ]
    end ].

Lemma gpu_get_temperature_decided s :
  consistent s -> 0 <= nvml_available s -> well_behaved gpu_get_temperature s.
Proof. decided_query gpu_get_temperature GetTemp. Qed.

Lemma gpu_get_utilization_decided s :
  consistent s -> 0 <= nvml_available s -> well_behaved gpu_get_utilization s.
Proof. decided_query gpu_get_utilization GetUtil. Qed.

Lemma gpu_get_memory_utilization_decided s :
  consistent s -> 0 <= nvml_available s ->
  well_behaved gpu_get_memory_utilization s.
Proof. decided_query gpu_get_memory_utilization GetUtil. Qed.

Lemma gpu_get_vram_decided s :
  consistent s -> 0 <= nvml_available s -> well_behaved gpu_get_vram s.
Proof. decided_query gpu_get_vram GetMemInfo. Qed.

Lemma gpu_get_max_cuda_version_decided s :
  consistent s -> 0 <= nvml_available s ->
  well_behaved gpu_get_max_cuda_version s.
Proof. decided_query gpu_get_max_cuda_version GetCudaVer. Qed.

Lemma gpu_get_count_decided s :
  consistent s -> 0 <= nvml_available s -> well_behaved gpu_get_count s.
Proof.
  intros Hc Hd. unfold well_behaved, gpu_get_count.
  unfold nbind at 1. rewrite (nvml_load_cached s Hd).
  destruct Hc as ([Ha|[Ha|Ha]] & Hrest); [lia| |].
  - rewrite Ha. nvml_body. nvml_unavailable s.
  - destruct (consistent_ready s (conj (or_intror (or_intror Ha)) Hrest) Ha)
      as (HI & HS & HC & HH).
    rewrite Ha. nvml_body. nvml_step HI HS HC HH; nvml_done.
Qed.

Lemma gpu_get_serial_decided s :
  consistent s -> 0 <= nvml_available s -> well_behaved gpu_get_serial s.
Proof. decided_query gpu_get_serial GetSerial. Qed.

Lemma gpu_get_name_decided s len :
  consistent s -> 0 <= nvml_available s ->
  (nvml_available s = 1 -> ptrs s GetName <> None) ->
  well_behaved (gpu_get_name len) s.
Proof.
  intros Hc Hd Hn. unfold well_behaved, gpu_get_name.
  unfold nbind at 1. rewrite (nvml_load_cached s Hd).
  destruct Hc as ([Ha|[Ha|Ha]] & Hrest); [lia| |].
  - rewrite Ha. nvml_body. nvml_unavailable s.
  - destruct (consistent_ready s (conj (or_intror (or_intror Ha)) Hrest) Ha)
      as (HI & HS & HC & HH).
    destruct Hrest as (_ & _ & Hsym).
    destruct (ptrs s GetName) as [x|] eqn:E; [|now elim (Hn Ha)].
    pose proof (Hsym _ _ E) as Hx; cbn in Hx; subst x.
    rewrite Ha. nvml_body.
    nvml_step HI HS HC HH; try (rewrite E; nvml_step HI HS HC HH); nvml_done.
Qed.

Lemma nvml_load_keeps_symbols s :
  (forall k sym, ptrs s k = Some sym -> sym = symbol_of k) ->
  forall k sym, ptrs (snd (nvml_load s)) k = Some sym -> sym = symbol_of k.
Proof.
  intros Hs. unfold nvml_load. nvml_run.
  destruct (0 <=? nvml_available s); [exact Hs|].
  destruct (has_lib (host s) "libnvidia-ml.so.1"); cbn.
  - match goal with
    | |- context [if ?c then _ else _] => destruct c
    end; cbn; intros k sym; destruct k; cbn;
      match goal with
      | |- context [if ?c then _ else _] => destruct c
      end; congruence.
  - destruct (has_lib (host s) "libnvidia-ml.so"); cbn; [|exact Hs].
    match goal with
    | |- context [if ?c then _ else _] => destruct c
    end; cbn; intros k sym; destruct k; cbn;
      match goal with
      | |- context [if ?c then _ else _] => destruct c
      end; congruence.
Qed.

Lemma usable_critical m lib : usable m = Some lib -> critical m lib = true.
Proof.
  unfold usable.
  destruct (has_lib m "libnvidia-ml.so.1").
  - destruct (critical m "libnvidia-ml.so.1") eqn:E; [|discriminate].
    now intros [= <-].
  - destruct (has_lib m "libnvidia-ml.so"); [|discriminate].
    destruct (critical m "libnvidia-ml.so") eqn:E; [|discriminate].
    now intros [= <-].
Qed.

(** What the loader leaves: a decided, consistent state reached without any
    library call. *)
Lemma nvml_load_decides s :
  consistent s ->
  exists v s1 pre,
    nvml_load s = (Some v, s1)
    /\ consistent s1 /\ 0 <= nvml_available s1 /\ nvml_available s1 = v
    /\ trace s1 = trace s ++ pre /\ calls pre = []
    /\ answers s1 = answers s.
Proof.
  intros Hc.
  destruct (Z.leb_spec 0 (nvml_available s)) as [H|H].
  - exists (nvml_available s), s, []. rewrite (nvml_load_cached s H).
    rewrite app_nil_r.
    split; [reflexivity|]. split; [exact Hc|]. split; [exact H|].
    now repeat split.
  - pose proof (nvml_load_keeps_symbols s (proj2 (proj2 (proj2 Hc)))) as Hsym.
    destruct (nvml_load_fresh s H)
      as (s1 & pre & E & Ht & Hcalls & Hh & Ha & _ & Hans & _ & _ & _ & _ & Hp).
    rewrite E in Hsym. cbn [snd] in Hsym.
    exists (availability (host s)), s1, pre. rewrite E.
    split; [reflexivity|].
    assert (Hv : availability (host s) = 0 \/ availability (host s) = 1).
    { unfold availability. destruct (usable (host s)); auto. }
    split; [|split; [lia|]; repeat split; assumption].
    split; [rewrite Ha; tauto|]. split; [|split; [|exact Hsym]].
    + rewrite Ha, Hh. unfold availability.
      destruct (usable (host s)) as [lib|] eqn:Eu; [|discriminate].
      intros _. pose proof (usable_critical _ _ Eu) as Hcr.
      unfold critical in Hcr.
      apply andb_prop in Hcr as [Hcr H4]. apply andb_prop in Hcr as [Hcr H3].
      apply andb_prop in Hcr as [H1 H2].
      rewrite !(Hp lib) by reflexivity. unfold resolved. cbn.
      rewrite H1, H2, H3, H4. repeat split; discriminate.
    + rewrite Ha, Hh. unfold availability.
      destruct (usable (host s)); [congruence|reflexivity].
Qed.

Lemma nvml_load_state_decided s :
  consistent s ->
  consistent (snd (nvml_load s)) /\ 0 <= nvml_available (snd (nvml_load s)).
Proof.
  intros Hc.
  destruct (nvml_load_decides s Hc) as (v & s1 & pre & E & Hc1 & Hd1 & _).
  rewrite E. now split.
Qed.

Lemma lift_well_behaved {A} (k : Z -> N A) s :
  consistent s ->
  well_behaved (nbind nvml_load k) (snd (nvml_load s)) ->
  completes (nbind nvml_load k) s.
Proof.
  intros Hc Hw.
  destruct (nvml_load_decides s Hc)
    as (v & s1 & pre & E & Hc1 & Hd1 & Hv & Ht & Hcalls & _).
  rewrite E in Hw. cbn [snd] in Hw.
  destruct Hw as (r & s2 & evs & Ef & Ht2 & Hs & Hh & Ha & Hp & _).
  exists r, s2, (pre ++ evs).
  rewrite nvml_load_absorb, E. cbn [snd]. rewrite Ef.
  split; [reflexivity|]. split; [now rewrite Ht2, Ht, app_assoc|].
  split; [now rewrite sessions_skip|].
  destruct Hc1 as (C1 & C2 & C3 & C4).
  unfold consistent. rewrite Hh, Ha, Hp. tauto.
Qed.

(** X14: from any consistent state of the globals (the initial one
    included) every query except [gpu_get_name] returns normally, leaves the
    globals consistent, and its library calls form complete sessions: each
    query is made between a successful [nvmlInit_v2] and one
    [nvmlShutdown], and the library is never left initialised. *)
Theorem queries_complete_their_sessions (s : state) :
  consistent s ->
  completes gpu_is_available s
  /\ completes gpu_get_count s
  /\ completes gpu_get_vram s
  /\ completes gpu_get_max_cuda_version s
  /\ completes gpu_get_temperature s
  /\ completes gpu_get_utilization s
  /\ completes gpu_get_memory_utilization s
  /\ completes gpu_get_serial s.
Proof.
  intros Hc.
  destruct (nvml_load_state_decided s Hc) as (Hc1 & Hd1).
  split.
  { destruct (nvml_load_decides s Hc)
      as (v & s1 & pre & E & Hc1' & _ & _ & Ht & Hcalls & _).
    exists v, s1, pre. unfold gpu_is_available.
    split; [exact E|]. split; [exact Ht|]. split; [|exact Hc1'].
    rewrite <- (app_nil_r pre). now rewrite sessions_skip. }
  repeat split.
  - apply lift_well_behaved; [exact Hc|]. now apply gpu_get_count_decided.
  - apply lift_well_behaved; [exact Hc|]. now apply gpu_get_vram_decided.
  - apply lift_well_behaved; [exact Hc|].
    now apply gpu_get_max_cuda_version_decided.
  - apply lift_well_behaved; [exact Hc|]. now apply gpu_get_temperature_decided.
  - apply lift_well_behaved; [exact Hc|]. now apply gpu_get_utilization_decided.
  - apply lift_well_behaved; [exact Hc|].
    now apply gpu_get_memory_utilization_decided.
  - apply lift_well_behaved; [exact Hc|]. now apply gpu_get_serial_decided.
Qed.

Lemma start_consistent m script : consistent (start m script).
Proof.
  unfold consistent, start; cbn.
  split; [now left|]. split; [discriminate|]. split; [reflexivity|].
  discriminate.
Qed.

(** The loader alone, without any assumption on the state. *)
Lemma nvml_load_is_quiet s :
  exists v s1 pre,
    nvml_load s = (Some v, s1)
    /\ 0 <= nvml_available s1 /\ nvml_available s1 = v
    /\ trace s1 = trace s ++ pre /\ calls pre = []
    /\ answers s1 = answers s.
Proof.
  destruct (Z.leb_spec 0 (nvml_available s)) as [H|H].
  - exists (nvml_available s), s, []. rewrite (nvml_load_cached s H).
    rewrite app_nil_r.
    split; [reflexivity|]. split; [exact H|]. now repeat split.
  - destruct (nvml_load_fresh s H)
      as (s1 & pre & E & Ht & Hcalls & _ & Ha & _ & Hans & _).
    exists (availability (host s)), s1, pre. rewrite E.
    split; [reflexivity|].
    split; [rewrite Ha; unfold availability; destruct (usable (host s)); lia|].
    now repeat split.
Qed.

Lemma lift_quiet {A} (k : Z -> N A) (err : A) s :
  nbind nvml_load k (snd (nvml_load s)) = (Some err, snd (nvml_load s)) ->
  quiet (nbind nvml_load k) err s.
Proof.
  intros Hk.
  destruct (nvml_load_is_quiet s)
    as (v & s1 & pre & E & _ & _ & Ht & Hcalls & Hans).
  rewrite E in Hk. cbn [snd] in Hk.
  unfold quiet. rewrite nvml_load_absorb, E. cbn [snd].
  assert (Hev : events_of (nbind nvml_load k) s = pre).
  { apply nvml_events_of_eq. rewrite nvml_load_absorb, E. cbn [snd].
    now rewrite Hk. }
  rewrite Hev, Hk. now repeat split.
Qed.

(** X16: when the loader has found no usable library, or the symbol a
    query needs is not exported, the query returns its error value ([-1],
    [0], [-1.0], [0.0] or NULL) without a single library call, and the
    library's answers are left untouched. *)
Theorem queries_fail_quietly (s : state) (length : Z) :
  let s1 := snd (nvml_load s) in
  (nvml_available s1 = 0 -> quiet gpu_get_count (-1) s)
  /\ (nvml_available s1 = 0 -> quiet (gpu_get_name length) 0 s)
  /\ (nvml_available s1 = 0 \/ ptrs s1 GetMemInfo = None ->
      quiet gpu_get_vram (DInt (-1)) s)
  /\ (nvml_available s1 = 0 \/ ptrs s1 GetCudaVer = None ->
      quiet gpu_get_max_cuda_version (DInt 0) s)
  /\ (nvml_available s1 = 0 \/ ptrs s1 GetTemp = None ->
      quiet gpu_get_temperature (-1) s)
  /\ (nvml_available s1 = 0 \/ ptrs s1 GetUtil = None ->
      quiet gpu_get_utilization (-1) s)
  /\ (nvml_available s1 = 0 \/ ptrs s1 GetUtil = None ->
      quiet gpu_get_memory_utilization (-1) s)
  /\ (nvml_available s1 = 0 \/ ptrs s1 GetSerial = None ->
      quiet gpu_get_serial SerialNull s).
Proof.
  cbv zeta.
  assert (Hd : 0 <= nvml_available (snd (nvml_load s))).
  { destruct (nvml_load_is_quiet s) as (v & s1 & pre & E & H & _).
    now rewrite E. }
  set (s1 := snd (nvml_load s)) in *.
  assert (Hq : forall A (k : Z -> N A) (err : A),
             nbind nvml_load k s1 = (Some err, s1) ->
             quiet (nbind nvml_load k) err s)
    by (intros A k err; apply lift_quiet).
  split; [|split; [|split; [|split; [|split; [|split; [|split]]]]]];
    intros H; apply Hq;
    unfold nbind at 1; rewrite (nvml_load_cached s1 Hd);
    nvml_body;
    try (destruct H as [H0|H0]); rewrite ?H, ?H0; cbn; try reflexivity;
    destruct (nvml_available s1 =? 0); reflexivity.
Qed.

Lemma calls_app t1 t2 : calls (t1 ++ t2) = calls t1 ++ calls t2.
Proof.
  induction t1 as [|e t1 IH]; [reflexivity|].
  destruct e; simpl; now rewrite ?IH.
Qed.

(** X15: [gpu_get_name] is the one query that calls its optional pointer
    without testing it.  With the library loaded and [nvmlDeviceGetName]
    resolved it completes like the others; with the symbol missing and
    [nvmlInit_v2] and [nvmlDeviceGetHandleByIndex_v2] succeeding, the call
    goes through the NULL pointer: the process dies after those two calls,
    with the library still initialised. *)
Theorem gpu_get_name_calls_unchecked_pointer (s : state) (length : Z) :
  consistent s ->
  nvml_available (snd (nvml_load s)) = 1 ->
  (ptrs (snd (nvml_load s)) GetName <> None ->
   completes (gpu_get_name length) s)
  /\ (ptrs (snd (nvml_load s)) GetName = None ->
      a_ret (hd no_answer (answers s)) = NVML_SUCCESS ->
      a_ret (hd no_answer (tl (answers s))) = NVML_SUCCESS ->
      fst (gpu_get_name length s) = None
      /\ calls (events_of (gpu_get_name length) s)
         = ["nvmlInit_v2"; "nvmlDeviceGetHandleByIndex_v2"]
      /\ sessions false (events_of (gpu_get_name length) s) = false).
Proof.
  intros Hc Ha.
  destruct (nvml_load_decides s Hc)
    as (v & s1 & pre & E & Hc1 & Hd1 & Hv & Ht & Hcalls & Hans).
  rewrite E in *. cbn [snd] in *.
  split.
  - intros Hn. unfold gpu_get_name. apply lift_well_behaved; [exact Hc|].
    rewrite E. cbn [snd]. apply gpu_get_name_decided; auto.
  - intros Hn H0 H1. rewrite <- Hans in H0, H1.
    destruct (consistent_ready s1 Hc1 Ha) as (HI & HS & HC & HH).
    assert (Hrun : exists s2,
               gpu_get_name length s = (None, s2)
               /\ trace s2
                  = trace s ++ pre
                    ++ [Call "nvmlInit_v2" [] (a_ret (hd no_answer (answers s1)));
                        Call "nvmlDeviceGetHandleByIndex_v2" [0]
                          (a_ret (hd no_answer (tl (answers s1))))]).
    { unfold gpu_get_name. rewrite nvml_load_absorb, E. cbn [snd].
      unfold nbind at 1. rewrite (nvml_load_cached s1 Hd1). rewrite Ha.
      nvml_body. rewrite HI. cbn. apply Z.eqb_eq in H0, H1. rewrite H0. cbn.
      rewrite HH. cbn. rewrite H1. cbn. rewrite Hn.
      eexists. split; [reflexivity|]. cbn.
      now rewrite Ht, <- !app_assoc. }
    destruct Hrun as (s2 & Erun & Ht2).
    assert (Hev : events_of (gpu_get_name length) s
                  = pre ++ [Call "nvmlInit_v2" []
                              (a_ret (hd no_answer (answers s1)));
                            Call "nvmlDeviceGetHandleByIndex_v2" [0]
                              (a_ret (hd no_answer (tl (answers s1))))]).
    { apply nvml_events_of_eq. now rewrite Erun. }
    rewrite Hev, Erun. split; [reflexivity|]. split.
    + rewrite calls_app, Hcalls. reflexivity.
    + rewrite sessions_skip by exact Hcalls. cbn.
      apply Z.eqb_eq in H0. now rewrite H0.
Qed.

Lemma queries_fail_quietly_witness :
  quiet gpu_get_temperature (-1) (start bare_driver gpu_script)
  /\ quiet gpu_get_count (-1)
       (start (mk_machine (fun _ => false) (fun _ _ => false)) gpu_script).
Proof.
  split.
  - refine (proj1 (proj2 (proj2 (proj2 (proj2
              (queries_fail_quietly (start bare_driver gpu_script) 64))))) _).
    right. reflexivity.
  - refine (proj1 (queries_fail_quietly
                     (start (mk_machine (fun _ => false) (fun _ _ => false))
                        gpu_script) 64) _).
    reflexivity.
Defined.

(** X17: the loader decides once.  Whatever the state, a second
    [nvml_load] returns what the first returned and changes nothing, makes
    no loader call, and the value returned is the one kept in
    [nvml_available]. *)
Theorem loader_decides_once (s : state) :
  nvml_load (snd (nvml_load s)) = nvml_load s
  /\ events_of nvml_load (snd (nvml_load s)) = []
  /\ fst (nvml_load s) = Some (nvml_available (snd (nvml_load s)))
  /\ 0 <= nvml_available (snd (nvml_load s)).
Proof.
  split; [apply nvml_load_twice|]. split.
  - apply nvml_events_of_eq. rewrite nvml_load_twice. symmetry. apply app_nil_r.
  - destruct (nvml_load_is_quiet s) as (v & s1 & pre & E & Hd & Hv & _).
    rewrite E. cbn [fst snd]. split; [now rewrite Hv|exact Hd].
Qed.

(** X18: in a fresh process [gpu_is_available] returns [1] exactly when a
    usable library exists: [libnvidia-ml.so.1] if it can be opened, else
    [libnvidia-ml.so], with the four critical symbols.  The second name is
    tried only when the first cannot be opened; a library that was opened
    and found lacking is closed again, and the handle kept is that of the
    usable library.  No library function is called. *)
Theorem availability_of_a_fresh_process (m : machine) (script : list answer) :
  let r := gpu_is_available (start m script) in
  fst r = Some (availability m)
  /\ nvml_handle (snd r) = usable m
  /\ nvml_available (snd r) = availability m
  /\ tried (trace (snd r))
     = "libnvidia-ml.so.1"
       :: (if has_lib m "libnvidia-ml.so.1" then [] else ["libnvidia-ml.so"])
  /\ opened (trace (snd r))
     = closed (trace (snd r))
       ++ match usable m with Some lib => [lib] | None => [] end
  /\ calls (trace (snd r)) = []
  /\ answers (snd r) = script.
Proof.
  cbv zeta. unfold gpu_is_available.
  assert (Hneg : nvml_available (start m script) < 0) by (cbn; lia).
  destruct (nvml_load_fresh (start m script) Hneg)
    as (s1 & evs & E & Ht & Hcalls & Hh & Ha & _ & Hans & _ & _ & Ho & Htr & _).
  rewrite E. cbn [fst snd]. cbn in Ht, Hh, Ha, Hans, Ho, Htr.
  rewrite Ht. now repeat split.
Qed.

Lemma to_int_small v : - 2 ^ 31 <= v < 2 ^ 31 -> to_int v = v.
Proof.
  intros H. unfold to_int. rewrite Z.mod_small by lia. lia.
Qed.

Section Success.
Variable s : state.
Hypothesis Hc : consistent s.
Hypothesis Ha : nvml_available (snd (nvml_load s)) = 1.

(** Running a query body at the state the loader leaves. *)
Lemma at_loaded_state {A} (k : Z -> N A) :
  exists s1 pre,
    nbind nvml_load k s = k 1 s1
    /\ s1 = snd (nvml_load s)
    /\ trace s1 = trace s ++ pre /\ calls pre = []
    /\ answers s1 = answers s
    /\ ptrs s1 Init = Some "nvmlInit_v2"
    /\ ptrs s1 Shutdown = Some "nvmlShutdown"
    /\ ptrs s1 GetCount = Some "nvmlDeviceGetCount_v2"
    /\ ptrs s1 GetHandle = Some "nvmlDeviceGetHandleByIndex_v2"
    /\ (forall j sym, ptrs s1 j = Some sym -> sym = symbol_of j).
Proof.
  destruct (nvml_load_decides s Hc)
    as (v & s1 & pre & E & Hc1 & Hd1 & Hv & Ht & Hcalls & Hans).
  rewrite E in Ha. cbn [snd] in Ha.
  destruct (consistent_ready s1 Hc1 Ha) as (HI & HS & HC & HH).
  exists s1, pre. rewrite E. cbn [snd].
  split.
  { unfold nbind. rewrite E. now rewrite <- Hv, Ha. }
  repeat split; try assumption. apply Hc1.
Qed.
End Success.

Ltac run_loaded Hc Ha :=
  match goal with
  | |- context [nbind nvml_load ?k ?s] =>
      let s1 := fresh "s1" in
      let pre := fresh "pre" in
      let E := fresh "E" in
      let Es := fresh "Es" in
      let Ht := fresh "Ht" in
      let Hcalls := fresh "Hcalls" in
      let Hans := fresh "Hans" in
      let HI := fresh "HI" in
      let HS := fresh "HS" in
      let HC := fresh "HC" in
      let HH := fresh "HH" in
      let Hsym := fresh "Hsym" in
      destruct (at_loaded_state s Hc Ha k)
        as (s1 & pre & E & Es & Ht & Hcalls & Hans & HI & HS & HC & HH & Hsym)
  end.

(** X19: when the driver reports CUDA version [ver] (1000 * major + 10 *
    minor), [gpu_get_max_cuda_version] returns [(double)(ver / 1000) +
    (double)((ver % 1000) / 10) / 10.0]: the last digit of [ver] is
    dropped, and the tenths term is a whole number between 0 and 99 divided
    by ten. *)
Theorem cuda_version_drops_the_last_digit
    (s : state) (a0 a1 : answer) (rest : list answer) :
  consistent s ->
  nvml_available (snd (nvml_load s)) = 1 ->
  ptrs (snd (nvml_load s)) GetCudaVer <> None ->
  answers s = a0 :: a1 :: rest ->
  a_ret a0 = NVML_SUCCESS -> a_ret a1 = NVML_SUCCESS ->
  0 <= a_val a1 < 2 ^ 31 ->
  let ver := a_val a1 in
  let major := ver / 1000 in
  let minor := (ver mod 1000) / 10 in
  fst (gpu_get_max_cuda_version s)
  = Some (DAdd (DInt major) (DDiv (DInt minor) (DInt 10)))
  /\ 0 <= minor <= 99
  /\ 1000 * major + 10 * minor <= ver <= 1000 * major + 10 * minor + 9
  /\ calls (events_of gpu_get_max_cuda_version s)
     = ["nvmlInit_v2"; "nvmlSystemGetCudaDriverVersion"; "nvmlShutdown"].
Proof.
  intros Hc Ha Hp Hans0 H0 H1 Hv ver major minor.
  assert (Hrun : exists s2 t,
             gpu_get_max_cuda_version s
             = (Some (DAdd (DInt major) (DDiv (DInt minor) (DInt 10))), s2)
             /\ trace s2 = trace s ++ t
             /\ calls t = ["nvmlInit_v2"; "nvmlSystemGetCudaDriverVersion";
                           "nvmlShutdown"]).
  { unfold gpu_get_max_cuda_version. run_loaded Hc Ha.
    rewrite E. rewrite <- Es in Hp. clear Es E.
    destruct (ptrs s1 GetCudaVer) as [x|] eqn:Ex; [|congruence].
    pose proof (Hsym _ _ Ex) as Hx; cbn in Hx; subst x.
    nvml_body. rewrite Ex. cbn. rewrite HI. cbn.
    rewrite Hans, Hans0. cbn. rewrite H0. cbn. rewrite Ex. cbn.
    rewrite H1. cbn. rewrite HS. cbn.
    rewrite to_int_small by lia.
    rewrite Z.quot_div_nonneg, Z.rem_mod_nonneg by lia.
    rewrite Z.quot_div_nonneg
      by (try lia; apply Z.mod_pos_bound; lia).
    eexists. eexists. split; [reflexivity|]. cbn.
    rewrite Ht, <- !app_assoc. split; [reflexivity|].
    rewrite calls_app, Hcalls. reflexivity. }
  destruct Hrun as (s2 & t & Erun & Ht2 & Hcalls2).
  rewrite (nvml_events_of_eq gpu_get_max_cuda_version s t)
    by now rewrite Erun.
  rewrite Erun. split; [reflexivity|].
  subst major minor. 
  pose proof (Z.mod_pos_bound ver 1000 eq_refl) as Hm.
  pose proof (Z.div_mod ver 1000 ltac:(lia)) as Hdm.
  pose proof (Z.div_mod (ver mod 1000) 10 ltac:(lia)) as Hdm2.
  pose proof (Z.mod_pos_bound (ver mod 1000) 10 eq_refl) as Hm2.
  assert (0 <= ver mod 1000 / 10 <= 99).
  { split; [apply Z.div_pos; lia|].
    assert (ver mod 1000 / 10 < 100)
      by (apply Z.div_lt_upper_bound; lia).
    lia. }
  repeat split; try exact Hcalls2; lia.
Qed.

Lemma call_events_skip pre t : calls pre = [] -> call_events (pre ++ t) = call_events t.
Proof.
  induction pre as [|e pre IH]; intros H; [reflexivity|].
  destruct e; simpl in *; try discriminate; now apply IH.
Qed.

Ltac device_case Hgen Hstep H2 k f sym args argf out val :=
  let Hp := fresh "Hp" in
  intros Hp; unfold f;
  apply (Hgen _ _ val sym args);
  let s1 := fresh "s1" in
  let Ex := fresh "Ex" in
  let x := fresh "x" in
  let Hx := fresh "Hx" in
  let Ek := fresh "Ek" in
  let s2 := fresh "s2" in
  let Ht2 := fresh "Ht2" in
  intros s1 ? ? ? ? ? ? ? Es Hsym; rewrite <- Es in Hp;
  destruct (ptrs s1 k) as [x|] eqn:Ex; [|congruence];
  pose proof (Hsym _ _ Ex) as Hx; cbn in Hx; subst x;
  destruct (Hstep _ k argf out s1) as (s2 & Ek & Ht2); try assumption;
  exists s2; split; [|exact Ht2];
  rewrite H2 in Ek; cbn [Z.eqb NVML_SUCCESS] in Ek;
  rewrite <- Ek; unfold nbind at 1, get; cbn; rewrite Ex; cbn;
  reflexivity.

(** X20: with the library loaded and [nvmlInit_v2],
    [nvmlDeviceGetHandleByIndex_v2] and the query succeeding, the device
    queries ask for device 0, pass the handle they were given to the query,
    return the number the library stored and call [nvmlShutdown]
    afterwards.  Temperature, GPU and memory utilisation are the stored
    [unsigned int] cast to [int] (the number itself below [2^31]); VRAM is
    [(double)total / (1024.0*1024.0*1024.0)] for any [total]. *)
Theorem device_queries_return_library_values
    (s : state) (a0 a1 a2 a3 : answer) (rest : list answer) :
  consistent s ->
  nvml_available (snd (nvml_load s)) = 1 ->
  answers s = a0 :: a1 :: a2 :: a3 :: rest ->
  a_ret a0 = NVML_SUCCESS -> a_ret a1 = NVML_SUCCESS ->
  a_ret a2 = NVML_SUCCESS ->
  let session sym args :=
    [Call "nvmlInit_v2" [] NVML_SUCCESS;
     Call "nvmlDeviceGetHandleByIndex_v2" [0] NVML_SUCCESS;
     Call sym args NVML_SUCCESS;
     Call "nvmlShutdown" [] (a_ret a3)] in
  (ptrs (snd (nvml_load s)) GetTemp <> None ->
   fst (gpu_get_temperature s) = Some (to_int (a_val a2))
   /\ call_events (events_of gpu_get_temperature s)
      = session "nvmlDeviceGetTemperature" [a_val a1; NVML_TEMPERATURE_GPU])
  /\ (ptrs (snd (nvml_load s)) GetUtil <> None ->
      fst (gpu_get_utilization s) = Some (to_int (a_val a2))
      /\ fst (gpu_get_memory_utilization s) = Some (to_int (a_val2 a2))
      /\ call_events (events_of gpu_get_utilization s)
         = session "nvmlDeviceGetUtilizationRates" [a_val a1]
      /\ call_events (events_of gpu_get_memory_utilization s)
         = session "nvmlDeviceGetUtilizationRates" [a_val a1])
  /\ (ptrs (snd (nvml_load s)) GetMemInfo <> None ->
      fst (gpu_get_vram s)
      = Some (DDiv (DInt (a_val a2)) (DInt (1024 * 1024 * 1024)))
      /\ call_events (events_of gpu_get_vram s)
         = session "nvmlDeviceGetMemoryInfo" [a_val a1])
  /\ (forall v, 0 <= v < 2 ^ 31 -> to_int v = v).
Proof.
  intros Hc Ha Hans0 H0 H1 H2 session.
  assert (Hgen : forall A (k : Z -> N A) (r : A) (sym : string) (args : list Z),
             (forall s1 pre,
                 trace s1 = trace s ++ pre -> calls pre = [] ->
                 answers s1 = answers s ->
                 ptrs s1 Init = Some "nvmlInit_v2" ->
                 ptrs s1 Shutdown = Some "nvmlShutdown" ->
                 ptrs s1 GetHandle = Some "nvmlDeviceGetHandleByIndex_v2" ->
                 s1 = snd (nvml_load s) ->
                 (forall j x, ptrs s1 j = Some x -> x = symbol_of j) ->
                 exists s2, k 1 s1 = (Some r, s2)
                            /\ trace s2 = trace s1 ++ session sym args) ->
             fst (nbind nvml_load k s) = Some r
             /\ call_events (events_of (nbind nvml_load k) s)
                = session sym args).
  { intros A k r sym args Hk.
    destruct (at_loaded_state s Hc Ha k)
      as (s1 & pre & E & Es & Ht & Hcalls & Hans & HI & HS & HC & HH & Hsym).
    destruct (Hk s1 pre Ht Hcalls Hans HI HS HH Es Hsym) as (s2 & Ek & Ht2).
    rewrite (nvml_events_of_eq (nbind nvml_load k) s (pre ++ session sym args)).
    - rewrite E, Ek. split; [reflexivity|].
      now rewrite call_events_skip.
    - rewrite E, Ek. cbn [snd]. now rewrite Ht2, Ht, app_assoc. }
  assert (Hstep : forall A (k : fn) (args : answer -> list Z)
                    (out : answer -> A) s1,
             answers s1 = answers s ->
             ptrs s1 Init = Some "nvmlInit_v2" ->
             ptrs s1 Shutdown = Some "nvmlShutdown" ->
             ptrs s1 GetHandle = Some "nvmlDeviceGetHandleByIndex_v2" ->
             ptrs s1 k = Some (symbol_of k) ->
             exists s2,
               (i <- call Init [] ;;
                if negb (a_ret i =? NVML_SUCCESS) then nret (out no_answer)
                else
                  h <- call GetHandle [0] ;;
                  if negb (a_ret h =? NVML_SUCCESS) then
                    call Shutdown [] ;;; nret (out no_answer)
                  else
                    r <- call k (args h) ;;
                    call Shutdown [] ;;;
                    nret (out r))%nvml s1 = (Some (out a2), s2)
               /\ trace s2 = trace s1 ++ session (symbol_of k) (args a1)).
  { intros A k args out s1 Hans HI HS HH Hk.
    nvml_body. rewrite HI. cbn. rewrite Hans, Hans0. cbn.
    rewrite H0. cbn. rewrite HH. cbn. rewrite H1. cbn. rewrite Hk. cbn.
    rewrite HS. cbn. eexists. split; [reflexivity|].
    cbn. rewrite <- !app_assoc. cbn. unfold session.
    now rewrite ?H0, ?H1, ?H2. }
  split; [|split; [|split]].
  - device_case Hgen Hstep H2 GetTemp gpu_get_temperature
      "nvmlDeviceGetTemperature" [a_val a1; NVML_TEMPERATURE_GPU]
      (fun h => [a_val h; NVML_TEMPERATURE_GPU])
      (fun r => if a_ret r =? NVML_SUCCESS then to_int (a_val r) else -1)
      (to_int (a_val a2)).
  - intros Hp.
    assert (Hu : fst (gpu_get_utilization s) = Some (to_int (a_val a2))
                 /\ call_events (events_of gpu_get_utilization s)
                    = session "nvmlDeviceGetUtilizationRates" [a_val a1]).
    { revert Hp.
      device_case Hgen Hstep H2 GetUtil gpu_get_utilization
        "nvmlDeviceGetUtilizationRates" [a_val a1]
        (fun h => [a_val h])
        (fun r => if a_ret r =? NVML_SUCCESS then to_int (a_val r) else -1)
        (to_int (a_val a2)). }
    assert (Hm : fst (gpu_get_memory_utilization s)
                 = Some (to_int (a_val2 a2))
                 /\ call_events (events_of gpu_get_memory_utilization s)
                    = session "nvmlDeviceGetUtilizationRates" [a_val a1]).
    { revert Hp.
      device_case Hgen Hstep H2 GetUtil gpu_get_memory_utilization
        "nvmlDeviceGetUtilizationRates" [a_val a1]
        (fun h => [a_val h])
        (fun r => if a_ret r =? NVML_SUCCESS then to_int (a_val2 r) else -1)
        (to_int (a_val2 a2)). }
    tauto.
  - device_case Hgen Hstep H2 GetMemInfo gpu_get_vram
      "nvmlDeviceGetMemoryInfo" [a_val a1]
      (fun h => [a_val h])
      (fun r => if a_ret r =? NVML_SUCCESS
                then DDiv (DInt (a_val r)) (DInt (1024 * 1024 * 1024))
                else DInt (-1))
      (DDiv (DInt (a_val a2)) (DInt (1024 * 1024 * 1024))).
  - intros v Hv. apply to_int_small. lia.
Qed.

Lemma to_int_large v : 2 ^ 31 <= v < 2 ^ 32 -> to_int v = v - 2 ^ 32.
Proof.
  intros H. unfold to_int.
  replace (v + 2 ^ 31) with ((v - 2 ^ 31) + 1 * 2 ^ 32) by lia.
  rewrite Z.mod_add by lia. rewrite Z.mod_small by lia. lia.
Qed.

(** X21: with the library loaded and [nvmlInit_v2] and
    [nvmlDeviceGetCount_v2] succeeding, [gpu_get_count] returns the
    [unsigned int] count cast to [int]: the count itself below 2^31, the
    count minus 2^32 from there on, so that a count of 2^32 - 1 comes back
    as the error value [-1].  The library is shut down afterwards. *)
Theorem gpu_get_count_returns_the_cast_count
    (s : state) (a0 a1 a2 : answer) (rest : list answer) :
  consistent s ->
  nvml_available (snd (nvml_load s)) = 1 ->
  answers s = a0 :: a1 :: a2 :: rest ->
  a_ret a0 = NVML_SUCCESS -> a_ret a1 = NVML_SUCCESS ->
  0 <= a_val a1 < 2 ^ 32 ->
  fst (gpu_get_count s)
  = Some (if a_val a1 <? 2 ^ 31 then a_val a1 else a_val a1 - 2 ^ 32)
  /\ (fst (gpu_get_count s) = Some (-1) <-> a_val a1 = 2 ^ 32 - 1)
  /\ call_events (events_of gpu_get_count s)
     = [Call "nvmlInit_v2" [] NVML_SUCCESS;
        Call "nvmlDeviceGetCount_v2" [] NVML_SUCCESS;
        Call "nvmlShutdown" [] (a_ret a2)].
Proof.
  intros Hc Ha Hans0 H0 H1 Hv.
  assert (Hrun : exists s2 pre,
             gpu_get_count s = (Some (to_int (a_val a1)), s2)
             /\ calls pre = []
             /\ trace s2
                = trace s ++ pre
                  ++ [Call "nvmlInit_v2" [] NVML_SUCCESS;
                      Call "nvmlDeviceGetCount_v2" [] NVML_SUCCESS;
                      Call "nvmlShutdown" [] (a_ret a2)]).
  { unfold gpu_get_count.
    destruct (at_loaded_state s Hc Ha
                (fun ok => if ok =? 0 then nret (-1)
                           else
                             (i <- call Init [] ;;
                              if negb (a_ret i =? NVML_SUCCESS) then nret (-1)
                              else
                                r <- call GetCount [] ;;
                                call Shutdown [] ;;;
                                nret (if a_ret r =? NVML_SUCCESS
                                      then to_int (a_val r) else -1))%nvml))
      as (s1 & pre & E & Es & Ht & Hcalls & Hans & HI & HS & HC & HH & Hsym).
    rewrite E. clear E Es. nvml_body. rewrite HI. cbn.
    rewrite Hans, Hans0. cbn. rewrite H0. cbn. rewrite HC. cbn.
    rewrite HS. cbn. rewrite H1. cbn.
    eexists. exists pre. split; [reflexivity|]. split; [exact Hcalls|].
    cbn. now rewrite Ht, <- !app_assoc. }
  destruct Hrun as (s2 & pre & Erun & Hcalls & Ht2).
  rewrite (nvml_events_of_eq gpu_get_count s _ ltac:(rewrite Erun; exact Ht2)).
  rewrite Erun. cbn [fst].
  rewrite call_events_skip by exact Hcalls.
  destruct (Z.ltb_spec (a_val a1) (2 ^ 31)) as [Hs|Hl].
  - rewrite to_int_small by lia. split; [reflexivity|].
    split; [|reflexivity]. split; [intros [= E]; lia|lia].
  - rewrite to_int_large by lia. split; [reflexivity|].
    split; [|reflexivity]. split; [intros [= E]; lia|intros ->; reflexivity].
Qed.

(** X22: [gpu_get_serial] hands out the address of one static buffer.
    After two successful calls both results are that address, and what the
    first result points to is the text of the second call. *)
Theorem gpu_get_serial_results_share_one_buffer
    (s : state) (a0 a1 a2 a3 b0 b1 b2 b3 : answer) (rest : list answer)
    (t1 t2 : string) :
  consistent s ->
  nvml_available (snd (nvml_load s)) = 1 ->
  ptrs (snd (nvml_load s)) GetSerial <> None ->
  answers s = a0 :: a1 :: a2 :: a3 :: b0 :: b1 :: b2 :: b3 :: rest ->
  a_ret a0 = NVML_SUCCESS -> a_ret a1 = NVML_SUCCESS ->
  a_ret a2 = NVML_SUCCESS -> a_text a2 = Some t1 ->
  a_ret b0 = NVML_SUCCESS -> a_ret b1 = NVML_SUCCESS ->
  a_ret b2 = NVML_SUCCESS -> a_text b2 = Some t2 ->
  let first := gpu_get_serial s in
  let second := gpu_get_serial (snd first) in
  fst first = Some SerialBuffer
  /\ fst second = Some SerialBuffer
  /\ read_serial SerialBuffer (snd first) = Some t1
  /\ read_serial SerialBuffer (snd second) = Some t2.
Proof.
  intros Hc Ha Hp Hans0 A0 A1 A2 T1 B0 B1 B2 T2.
  assert (Hstep : forall s1 c0 c1 c2 c3 more t,
             nvml_available s1 = 1 ->
             ptrs s1 Init = Some "nvmlInit_v2" ->
             ptrs s1 Shutdown = Some "nvmlShutdown" ->
             ptrs s1 GetHandle = Some "nvmlDeviceGetHandleByIndex_v2" ->
             ptrs s1 GetSerial = Some "nvmlDeviceGetSerial" ->
             answers s1 = c0 :: c1 :: c2 :: c3 :: more ->
             a_ret c0 = NVML_SUCCESS -> a_ret c1 = NVML_SUCCESS ->
             a_ret c2 = NVML_SUCCESS -> a_text c2 = Some t ->
             exists s2,
               gpu_get_serial s1 = (Some SerialBuffer, s2)
               /\ serial s2 = t /\ answers s2 = more
               /\ nvml_available s2 = 1 /\ ptrs s2 = ptrs s1).
  { intros s1 c0 c1 c2 c3 more t Hav HI HS HH HG Hans C0 C1 C2 T.
    unfold gpu_get_serial. unfold nbind at 1.
    rewrite (nvml_load_cached s1) by lia. rewrite Hav.
    nvml_body. rewrite HG. cbn. rewrite HI. cbn. rewrite Hans. cbn.
    rewrite C0. cbn. rewrite HH. cbn. rewrite C1. cbn. rewrite HG. cbn.
    rewrite T. cbn. rewrite HS. cbn. rewrite C2. cbn.
    eexists. split; [reflexivity|]. now repeat split. }
  destruct (nvml_load_decides s Hc)
    as (v & s1 & pre & E & Hc1 & Hd1 & Hv & Ht & Hcalls & Hans).
  rewrite E in Ha, Hp. cbn [snd] in Ha, Hp.
  destruct (consistent_ready s1 Hc1 Ha) as (HI & HS & HC & HH).
  destruct (ptrs s1 GetSerial) as [x|] eqn:Ex; [|congruence].
  pose proof (proj2 (proj2 (proj2 Hc1)) _ _ Ex) as Hx; cbn in Hx; subst x.
  rewrite Hans0 in Hans.
  destruct (Hstep s1 _ _ _ _ _ t1 Ha HI HS HH Ex Hans A0 A1 A2 T1)
    as (s2 & E1 & Hs1 & Hans2 & Ha2 & Hp2).
  assert (Efirst : gpu_get_serial s = (Some SerialBuffer, s2)).
  { unfold gpu_get_serial. rewrite nvml_load_absorb, E. exact E1. }
  destruct (Hstep s2 _ _ _ _ _ t2 Ha2
              ltac:(now rewrite Hp2) ltac:(now rewrite Hp2)
              ltac:(now rewrite Hp2) ltac:(now rewrite Hp2)
              Hans2 B0 B1 B2 T2)
    as (s3 & E2 & Hs2 & _).
  cbv zeta. rewrite Efirst. cbn [fst snd]. rewrite E2. cbn [fst snd].
  unfold read_serial. now rewrite Hs1, Hs2.
Qed.

Lemma queries_complete_their_sessions_witness :
  (completes gpu_is_available (start full_driver gpu_script)
   /\ completes gpu_get_count (start full_driver gpu_script)
   /\ completes gpu_get_vram (start full_driver gpu_script)
   /\ completes gpu_get_max_cuda_version (start full_driver gpu_script)
   /\ completes gpu_get_temperature (start full_driver gpu_script)
   /\ completes gpu_get_utilization (start full_driver gpu_script)
   /\ completes gpu_get_memory_utilization (start full_driver gpu_script)
   /\ completes gpu_get_serial (start full_driver gpu_script))
  /\ calls (events_of gpu_get_count (start full_driver gpu_script))
     = ["nvmlInit_v2"; "nvmlDeviceGetCount_v2"; "nvmlShutdown"]
  /\ calls (events_of gpu_get_max_cuda_version (start full_driver gpu_script))
     = ["nvmlInit_v2"; "nvmlSystemGetCudaDriverVersion"; "nvmlShutdown"]
  /\ calls (events_of gpu_get_temperature (start full_driver gpu_script))
     = ["nvmlInit_v2"; "nvmlDeviceGetHandleByIndex_v2";
        "nvmlDeviceGetTemperature"; "nvmlShutdown"]
  /\ calls (events_of gpu_get_vram (start full_driver gpu_script))
     = ["nvmlInit_v2"; "nvmlDeviceGetHandleByIndex_v2";
        "nvmlDeviceGetMemoryInfo"; "nvmlShutdown"]
  /\ calls (events_of gpu_get_serial (start full_driver gpu_script))
     = ["nvmlInit_v2"; "nvmlDeviceGetHandleByIndex_v2";
        "nvmlDeviceGetSerial"; "nvmlShutdown"]
  /\ sessions false
       (events_of gpu_get_temperature (start full_driver gpu_script)) = true.
Proof.
  split.
  - apply (queries_complete_their_sessions (start full_driver gpu_script)).
    unfold consistent; cbn.
    split; [now left|]. split; [discriminate|]. split; [reflexivity|].
    discriminate.
  - split; [vm_compute; reflexivity|].
    split; [vm_compute; reflexivity|].
    split; [vm_compute; reflexivity|].
    split; [vm_compute; reflexivity|].
    split; vm_compute; reflexivity.
Defined.

Lemma gpu_get_name_calls_unchecked_pointer_witness :
  fst (gpu_get_name 64
         (start bare_driver [ok_answer 0 0 None; ok_answer 7 0 None])) = None
  /\ calls (events_of (gpu_get_name 64)
              (start bare_driver [ok_answer 0 0 None; ok_answer 7 0 None]))
     = ["nvmlInit_v2"; "nvmlDeviceGetHandleByIndex_v2"]
  /\ sessions false
       (events_of (gpu_get_name 64)
          (start bare_driver [ok_answer 0 0 None; ok_answer 7 0 None]))
     = false.
Proof.
  refine (proj2 (gpu_get_name_calls_unchecked_pointer
                   (start bare_driver [ok_answer 0 0 None; ok_answer 7 0 None])
                   64 _ _) _ _ _).
  - unfold consistent; cbn.
    split; [now left|]. split; [discriminate|]. split; [reflexivity|].
    discriminate.
  - reflexivity.
  - reflexivity.
  - reflexivity.
  - reflexivity.
Defined.

Lemma cuda_version_drops_the_last_digit_witness :
  fst (gpu_get_max_cuda_version
         (start full_driver [ok_answer 0 0 None; ok_answer 12045 0 None]))
  = Some (DAdd (DInt 12) (DDiv (DInt 4) (DInt 10))).
Proof.
  refine (proj1 (cuda_version_drops_the_last_digit
                   (start full_driver
                      [ok_answer 0 0 None; ok_answer 12045 0 None])
                   (ok_answer 0 0 None) (ok_answer 12045 0 None) []
                   _ _ _ _ _ _ _)).
  - unfold consistent; cbn.
    split; [now left|]. split; [discriminate|]. split; [reflexivity|].
    discriminate.
  - reflexivity.
  - vm_compute. discriminate.
  - reflexivity.
  - reflexivity.
  - reflexivity.
  - simpl. lia.
Defined.

Lemma device_queries_return_library_values_witness :
  fst (gpu_get_temperature (start full_driver gpu_script)) = Some 61
  /\ fst (gpu_get_utilization (start full_driver gpu_script)) = Some 61
  /\ fst (gpu_get_memory_utilization (start full_driver gpu_script)) = Some 35
  /\ call_events (events_of gpu_get_temperature (start full_driver gpu_script))
     = [Call "nvmlInit_v2" [] 0;
        Call "nvmlDeviceGetHandleByIndex_v2" [0] 0;
        Call "nvmlDeviceGetTemperature" [7; 0] 0;
        Call "nvmlShutdown" [] 0]
  /\ fst (gpu_get_vram (start full_driver vram_script))
     = Some (DDiv (DInt 25769803776) (DInt (1024 * 1024 * 1024)))
  /\ call_events (events_of gpu_get_vram (start full_driver vram_script))
     = [Call "nvmlInit_v2" [] 0;
        Call "nvmlDeviceGetHandleByIndex_v2" [0] 0;
        Call "nvmlDeviceGetMemoryInfo" [7] 0;
        Call "nvmlShutdown" [] 0].
Proof.
  assert (Hc : forall script, consistent (start full_driver script)).
  { intros script. unfold consistent; cbn.
    split; [now left|]. split; [discriminate|]. split; [reflexivity|].
    discriminate. }
  pose proof (device_queries_return_library_values
                (start full_driver gpu_script)
                (ok_answer 0 0 None) (ok_answer 7 0 None)
                (ok_answer 61 35 None) (ok_answer 0 0 None) []
                (Hc gpu_script) eq_refl eq_refl eq_refl eq_refl eq_refl)
    as (Ht & Hu & _ & _).
  pose proof (device_queries_return_library_values
                (start full_driver vram_script)
                (ok_answer 0 0 None) (ok_answer 7 0 None)
                (ok_answer 25769803776 0 None) (ok_answer 0 0 None) []
                (Hc vram_script) eq_refl eq_refl eq_refl eq_refl eq_refl)
    as (_ & _ & Hv & _).
  assert (Hp : forall script k,
             ptrs (snd (nvml_load (start full_driver script))) k <> None).
  { intros script k. destruct k; vm_compute; discriminate. }
  destruct (Ht (Hp _ _)) as (T1 & T2).
  destruct (Hu (Hp _ _)) as (U1 & U2 & _ & _).
  destruct (Hv (Hp _ _)) as (V1 & V2).
  split; [exact T1|]. split; [exact U1|]. split; [exact U2|].
  split; [exact T2|]. split; [exact V1|exact V2].
Defined.

Lemma gpu_get_count_returns_the_cast_count_witness :
  fst (gpu_get_count
         (start full_driver
            [ok_answer 0 0 None; ok_answer 4294967295 0 None;
             ok_answer 0 0 None]))
  = Some (if 4294967295 <? 2 ^ 31 then 4294967295 else 4294967295 - 2 ^ 32).
Proof.
  refine (proj1 (gpu_get_count_returns_the_cast_count
                   (start full_driver
                      [ok_answer 0 0 None; ok_answer 4294967295 0 None;
                       ok_answer 0 0 None])
                   (ok_answer 0 0 None) (ok_answer 4294967295 0 None)
                   (ok_answer 0 0 None) [] _ _ _ _ _ _)).
  - unfold consistent; cbn.
    split; [now left|]. split; [discriminate|]. split; [reflexivity|].
    discriminate.
  - reflexivity.
  - reflexivity.
  - reflexivity.
  - reflexivity.
  - simpl. lia.
Defined.

Lemma gpu_get_serial_results_share_one_buffer_witness :
  let first := gpu_get_serial (start full_driver serial_script) in
  let second := gpu_get_serial (snd first) in
  fst first = Some SerialBuffer
  /\ fst second = Some SerialBuffer
  /\ read_serial SerialBuffer (snd first) = Some "GPU-A"
  /\ read_serial SerialBuffer (snd second) = Some "GPU-B".
Proof.
  refine (gpu_get_serial_results_share_one_buffer
            (start full_driver serial_script)
            (ok_answer 0 0 None) (ok_answer 7 0 None)
            (ok_answer 0 0 (Some "GPU-A")) (ok_answer 0 0 None)
            (ok_answer 0 0 None) (ok_answer 8 0 None)
            (ok_answer 0 0 (Some "GPU-B")) (ok_answer 0 0 None) []
            "GPU-A" "GPU-B" _ _ _ _ _ _ _ _ _ _ _ _).
  - unfold consistent; cbn.
    split; [now left|]. split; [discriminate|]. split; [reflexivity|].
    discriminate.
  - reflexivity.
  - vm_compute. discriminate.
  - reflexivity.
  - reflexivity.
  - reflexivity.
  - reflexivity.
  - reflexivity.
  - reflexivity.
  - reflexivity.
  - reflexivity.
  - reflexivity.
Defined.

End NvmlFacts.

(** * Properties of the clients linked against NVML *)

Module LinkedFacts.
Import Nvml Linked.

Ltac linked_run :=
  unfold lbind, lret, nvml, write_static, write_out; cbn.

Ltac linked_cases :=
  repeat match goal with
         | |- context [a_ret ?a =? NVML_SUCCESS] =>
             destruct (a_ret a =? NVML_SUCCESS) eqn:?; cbn
         | |- context [match a_text ?a with _ => _ end] =>
             destruct (a_text a) eqn:?; cbn
         end.

Ltac linked_sessions f :=
  unfold l_events_of, f; linked_run; linked_cases;
  rewrite <- ?app_assoc; rewrite drop_app_length; cbn;
  repeat match goal with
         | H : (_ =? _) = _ |- _ => rewrite H
         end; reflexivity.

(** X23: every function of the four files linked against NVML makes its
    library calls in complete sessions, whatever the library answers:
    nothing is asked before a successful [nvmlInit_v2], [nvmlShutdown]
    follows on every path after it, and nothing is called after a failed
    [nvmlInit_v2]. *)
Theorem linked_queries_complete_their_sessions (s : lstate) (length : Z) :
  sessions false (l_events_of UtilsGpu.get_gpu_count s) = true
  /\ sessions false (l_events_of (UtilsGpu.get_gpu_name length) s) = true
  /\ sessions false (l_events_of UtilsGpu.get_gpu_vram s) = true
  /\ sessions false (l_events_of UtilsGpu.get_max_cuda_version s) = true
  /\ sessions false (l_events_of PkgGpu.get_gpu_count s) = true
  /\ sessions false (l_events_of (PkgGpu.get_gpu_name length) s) = true
  /\ sessions false (l_events_of PkgGpu.get_gpu_vram s) = true
  /\ sessions false (l_events_of PkgGpu.get_max_cuda_version s) = true
  /\ sessions false (l_events_of Fingerprint.getGpuSerial s) = true
  /\ sessions false (l_events_of UtilsFingerprint.getGpuName s) = true.
Proof.
  unfold PkgGpu.get_gpu_count, PkgGpu.get_gpu_name, PkgGpu.get_gpu_vram.
  repeat split.
  - linked_sessions UtilsGpu.get_gpu_count.
  - linked_sessions UtilsGpu.get_gpu_name.
  - linked_sessions UtilsGpu.get_gpu_vram.
  - linked_sessions UtilsGpu.get_max_cuda_version.
  - linked_sessions UtilsGpu.get_gpu_count.
  - linked_sessions UtilsGpu.get_gpu_name.
  - linked_sessions UtilsGpu.get_gpu_vram.
  - linked_sessions PkgGpu.get_max_cuda_version.
  - linked_sessions Fingerprint.getGpuSerial.
  - linked_sessions UtilsFingerprint.getGpuName.
Qed.

(** X24: the fingerprint functions return the address of their static
    buffer exactly when [nvmlInit_v2], [nvmlDeviceGetHandleByIndex_v2] (for
    device 0) and the query all return [NVML_SUCCESS], and NULL otherwise;
    [get_gpu_name] returns [1] under the same condition and [0] otherwise.
    The query is handed the device handle and the buffer size 128. *)
Theorem linked_results_need_three_successes
    (s : lstate) (a0 a1 a2 : answer) (rest : list answer) (length : Z) :
  l_answers s = a0 :: a1 :: a2 :: rest ->
  let all_ok :=
    (a_ret a0 =? NVML_SUCCESS) && (a_ret a1 =? NVML_SUCCESS)
    && (a_ret a2 =? NVML_SUCCESS) in
  fst (Fingerprint.getGpuSerial s) = (if all_ok then BufStatic else BufNull)
  /\ fst (UtilsFingerprint.getGpuName s)
     = (if all_ok then BufStatic else BufNull)
  /\ fst (UtilsGpu.get_gpu_name length s) = (if all_ok then 1 else 0)
  /\ (all_ok = true ->
      In (Call "nvmlDeviceGetSerial" [a_val a1; 128] NVML_SUCCESS)
         (l_events_of Fingerprint.getGpuSerial s)
      /\ In (Call "nvmlDeviceGetName" [a_val a1; 128] NVML_SUCCESS)
            (l_events_of UtilsFingerprint.getGpuName s)
      /\ In (Call "nvmlDeviceGetName" [a_val a1; length] NVML_SUCCESS)
            (l_events_of (UtilsGpu.get_gpu_name length) s)).
Proof.
  intros Hans all_ok. subst all_ok.
  unfold Fingerprint.getGpuSerial, UtilsFingerprint.getGpuName,
    UtilsGpu.get_gpu_name, l_events_of.
  linked_run. rewrite Hans. cbn.
  destruct (Z.eqb_spec (a_ret a0) NVML_SUCCESS) as [E0|E0]; cbn;
    [|repeat split; discriminate].
  destruct (Z.eqb_spec (a_ret a1) NVML_SUCCESS) as [E1|E1]; cbn;
    [|repeat split; discriminate].
  destruct (Z.eqb_spec (a_ret a2) NVML_SUCCESS) as [E2|E2]; cbn;
    [|destruct (a_text a2); repeat split; discriminate].
  destruct (a_text a2); cbn; rewrite <- ?app_assoc, ?drop_app_length; cbn;
    rewrite ?E2;
    (split; [reflexivity|]); (split; [reflexivity|]); (split; [reflexivity|]);
    intros _; (split; [|split]); do 2 right; now left.
Qed.

Lemma linked_results_need_three_successes_witness :
  fst (Fingerprint.getGpuSerial
         (linked_start [ok_answer 0 0 None; ok_answer 7 0 None;
                        ok_answer 0 0 (Some "GPU-A")]))
  = BufStatic.
Proof.
  refine (proj1 (linked_results_need_three_successes
                   (linked_start [ok_answer 0 0 None; ok_answer 7 0 None;
                                  ok_answer 0 0 (Some "GPU-A")])
                   (ok_answer 0 0 None) (ok_answer 7 0 None)
                   (ok_answer 0 0 (Some "GPU-A")) [] 64 _)).
  reflexivity.
Defined.

End LinkedFacts.
